(** * Remote image inspection and remote tag listing (package [distribution])

    A shallow embedding of the read-only resolution code of the engine:
    [Inspect] / [fetchManifest] with the v1 and v2 manifest fetchers, and
    [ListRemoteTags] / [getRemoteTagList] with the v1 and v2 tag listers.

    The registry service, the v1 session, the v2 repository client, the Go
    runtime (order of [range] over a map) and the Go library ([sort.Sort])
    are collaborators: they are the fields of one record, [Externals].  The
    collaborators that talk to the outside act on an abstract [World]; every
    call is appended to a trace together with its outcome, and so is every
    line written to the log.  A Go function of this package becomes a
    computation in the monad [M]: it threads the world and the trace and may
    panic.

    The registration of a container with systemd (package [machine]) is
    embedded apart, over its own collaborator. *)

From Stdlib Require Import String Ascii ZArith Lia DecimalString.
From stdpp Require Import base option list gmap strings sorting.

Local Open Scope Z_scope.

(** ** Go preliminaries *)

(** The values of Go's [error] interface that this package builds or tells
    apart by their dynamic type. *)
#[warnings="-register-all"]
Inductive error : Type :=
| errorString (msg : string)        (* errors.New, fmt.Errorf *)
| ErrNoSupport (Err : error)        (* registry.ErrNoSupport{Err} *)
| errcode_Errors (errs : list error) (* errcode.Errors *).

(** [_, ok := err.(registry.ErrNoSupport)] *)
Definition isNoSupport (err : error) : bool :=
  match err with
  | ErrNoSupport _ => true
  | _ => false
  end.

(** [if err != nil] on the result of a call that returns [(value, err)]. *)
Definition errOf {A : Type} (r : error + A) : option error :=
  match r with
  | inl err => Some err
  | inr _ => None
  end.

(** [strings.HasPrefix(s, prefix)] *)
Definition strings_HasPrefix (s prefix : string) : bool := String.prefix prefix s.

(** [strings.Contains(s, substr)] *)
Fixpoint strings_Contains (s substr : string) : bool :=
  String.prefix substr s ||
  match s with
  | EmptyString => false
  | String _ s' => strings_Contains s' substr
  end.

(** The verb [%d] of [fmt] on an integer. *)
Definition itoa (n : Z) : string := NilZero.string_of_int (Z.to_int n).

Module reference.

(** A parsed reference.  [ref.(reference.Tagged)] holds when [Tag] is set,
    [ref.(reference.Digested)] when [Digest] is set. *)
Record Named : Type := {
  Name : string;
  Tag : option string;
  Digest : option string
}.

End reference.

Module registry.

(** Modelled from the spec: the protocol versions [V1] and [V2] of an
    endpoint are the integers 1 and 2 of type [APIVersion]; the declaration
    of the constants is not among the sources. *)
Definition APIVersion1 : Z := 1.

(** Modelled from the spec: see [APIVersion1]. *)
Definition APIVersion2 : Z := 2.

Record APIEndpoint : Type := {
  URL : string;
  Version : Z
}.

Record IndexInfo : Type := {
  Name : string;
  Mirrors : list string
}.

Record RepositoryInfo : Type := {
  Index : IndexInfo;
  RemoteName : string;
  LocalName : string;
  CanonicalName : string
}.

Record ImgData : Type := {
  ID : string;
  Tag : string;
  Checksum : string
}.

Record RepositoryData : Type := {
  ImgList : gmap string ImgData;
  Endpoints : list string;
  Tokens : list string
}.

End registry.

Module tagpkg.

Definition DefaultTag : string := "latest".

End tagpkg.

Module runconfig.

(** The container configuration is copied as a whole and never read here. *)
Record Config : Type := {
  Image : string;
  Cmd : list string;
  Env : list string
}.

End runconfig.

Module image.

(** The fields of [image.Image] that [makeRemoteImageInspect] reads; [ID]
    stands for the method [ID()], [Created] for the creation time already
    formatted with [time.RFC3339Nano]. *)
Record Image : Type := {
  ID : string;
  Parent : string;
  Comment : string;
  Created : string;
  Container : string;
  ContainerConfig : runconfig.Config;
  DockerVersion : string;
  Author : string;
  Config : option runconfig.Config;
  Architecture : string;
  OS : string;
  Size : Z
}.

End image.

Module types.

Record RepositoryTag : Type := {
  Tag : string;
  ImageID : string
}.

Record RepositoryTagList : Type := {
  Name : string;
  TagList : list RepositoryTag
}.

Record RemoteImageInspect : Type := {
  ID : string;
  RepoTags : list string;
  RepoDigests : list string;
  Parent : string;
  Comment : string;
  Created : string;
  Container : string;
  ContainerConfig : runconfig.Config;
  DockerVersion : string;
  Author : string;
  Config : option runconfig.Config;
  Architecture : string;
  Os : string;
  Size : Z;
  Registry : string
}.

End types.

(** ** The trace *)

(** The lines this package writes with [logrus], one constructor per call
    site. *)
Inductive LogLine : Type :=
| TryingManifest (name : string) (endpoint : registry.APIEndpoint)
| TryingTagList (name : string) (endpoint : registry.APIEndpoint)
| NotContinuing (err : error)
| FailedToQualify (name r : string) (err : error)
| CouldNotGetV1Endpoint (err : error)
| FallbackFromError (err : error)
| RetrievingV1Tags
| UnableToGetRemoteTags (err : error)
| ErrorPullingMirror (name tag ep : string) (err : error)
| ErrorPullingEndpoint (name tag ep : string) (err : error)
| ErrorGettingV2Registry (err : error)
| ErrorTryingV2Registry (err : error)
| RetrievingV2Tags (url : string).

(** What an execution does to the outside: the calls to the collaborators,
    with their arguments and their outcome, and the log lines. *)
Inductive Event : Type :=
| Call_ResolveRepository (ref : reference.Named) (r : error + registry.RepositoryInfo)
| Call_LookupPullEndpoints (name : string) (r : error + list registry.APIEndpoint)
| Call_TLSConfig (index : string) (err : option error)
| Call_ToV1Endpoint (endpoint : registry.APIEndpoint) (err : option error)
| Call_NewSession (err : option error)
| Call_GetRepositoryData (remote : string) (r : error + registry.RepositoryData)
| Call_GetRemoteTags (endpoints : list string) (remote : string) (r : error + gmap string string)
| Call_GetRemoteImageJSON (imgID endpoint : string) (r : error + string)
| Call_NewV2Repository (endpoint : registry.APIEndpoint) (err : option error)
| Call_Manifests (err : option error)
| Call_Exists (dgst : string) (r : bool * option error)
| Call_Get (dgst : string) (err : option error)
| Call_ExistsByTag (tag : string) (r : bool * option error)
| Call_GetByTag (tag : string) (err : option error)
| Call_Tags (r : error + list string)
| Logged (line : LogLine).

(** ** The collaborators *)

(** [map[string][]string] *)
Abbreviation MetaHeaders := (gmap string (list string)).

Record Externals : Type := {
  World : Type;
  TLSConfigT : Type;
  V1Endpoint : Type;
  Session : Type;
  Repository : Type;
  ManifestService : Type;
  SignedManifest : Type;
  AuthConfig : Type;
  History : Type;
  RootFS : Type;
  RawConfig : Type;
  (* registry.Service and package registry *)
  ResolveRepository :
    reference.Named -> World -> (error + registry.RepositoryInfo) * World;
  LookupPullEndpoints :
    string -> World -> (error + list registry.APIEndpoint) * World;
  TLSConfig : string -> World -> (error + TLSConfigT) * World;
  ToV1Endpoint :
    registry.APIEndpoint -> MetaHeaders -> World -> (error + V1Endpoint) * World;
  (* registry.NewSession on the client built from the TLS configuration and
     the headers *)
  NewSession :
    TLSConfigT -> MetaHeaders -> option AuthConfig -> V1Endpoint ->
    World -> (error + Session) * World;
  GetRepositoryData :
    Session -> string -> World -> (error + registry.RepositoryData) * World;
  GetRemoteTags :
    Session -> list string -> string -> World -> (error + gmap string string) * World;
  GetRemoteImageJSON :
    Session -> string -> string -> World -> (error + string) * World;
  IsReferenceFullyQualified : reference.Named -> bool;
  FullyQualifyReferenceWith : string -> reference.Named -> error + reference.Named;
  ValidateRepositoryName : reference.Named -> option error;
  RegistryList : list string;
  ContinueOnError : error -> bool;
  (* the v2 repository client *)
  NewV2Repository :
    registry.RepositoryInfo -> registry.APIEndpoint -> MetaHeaders ->
    option AuthConfig -> World -> (error + Repository) * World;
  Manifests : Repository -> World -> (error + ManifestService) * World;
  Exists : ManifestService -> string -> World -> (bool * option error) * World;
  Get :
    ManifestService -> string -> World -> (option SignedManifest * option error) * World;
  ExistsByTag : ManifestService -> string -> World -> (bool * option error) * World;
  GetByTag :
    ManifestService -> string -> World -> (option SignedManifest * option error) * World;
  Tags : ManifestService -> World -> (error + list string) * World;
  (* functions of this package that are not among the sources *)
  validateRepoName : string -> option error;
  (* lines 107 to 159 of fetchWithRepository: verifyManifest,
     fixManifestLayers, the conversion of the history, digestFromManifest
     and image.NewFromJSON, as one function of the fetched manifest *)
  manifestToImage :
    SignedManifest -> reference.Named -> registry.RepositoryInfo ->
    error + (image.Image * string);
  (* packages image and v1, encoding/json *)
  HistoryFromConfig : string -> bool -> error + History;
  MakeRawConfigFromV1Config : string -> RootFS -> list History -> error + RawConfig;
  NewRootFS : RootFS;
  json_Marshal : RawConfig -> error + string;
  NewFromJSON : string -> error + image.Image;
  (* package reference and package digest *)
  WithTag : string -> string -> error + string;
  Digest_Validate : string -> option error;
  (* the method Error() of the errors that are not built by fmt or errors *)
  foreign_Error : error -> string;
  (* the verb %q of fmt *)
  Quote : string -> string;
  (* the Go runtime: the order in which one range statement visits a map *)
  mapRange : gmap string string -> World -> list (string * string) * World;
  (* sort.Sort on a slice, given the method Less of its sort.Interface *)
  sort_Sort : forall A : Type, (A -> A -> bool) -> list A -> list A
}.

(** [Less] is an ordering that [sort.Sort] accepts. *)
Record LessOrder {A : Type} (less : A -> A -> bool) : Prop := {
  less_irrefl : forall a, less a a = false;
  less_trans : forall a b c, less a b = true -> less b c = true -> less a c = true;
  less_incomp_trans :
    forall a b c, less a b = false -> less b c = false -> less a c = false
}.

(** [sort.IsSorted]: no element is less than its predecessor. *)
Definition IsSorted {A : Type} (less : A -> A -> bool) (l : list A) : Prop :=
  forall i x y, l !! i = Some x -> l !! S i = Some y -> less y x = false.

(** What the code relies on from the Go runtime and library. *)
Record ExternalsOK (X : Externals) : Prop := {
  mapRange_Permutation :
    forall m w, fst (mapRange X m w) ≡ₚ map_to_list m;
  sort_Sort_Permutation :
    forall A less (l : list A), sort_Sort X A less l ≡ₚ l;
  sort_Sort_IsSorted :
    forall A less (l : list A), LessOrder less -> IsSorted less (sort_Sort X A less l)
}.

(** ** The monad *)

Inductive Res (A : Type) : Type :=
| Done (a : A)
| Panic.

Arguments Done {A} a.
Arguments Panic {A}.

Inductive Ctl (S R : Type) : Type :=
| Continue (st : S)
| Break (r : R).

Arguments Continue {S R} st.
Arguments Break {S R} r.

Section Monad.

Context {X : Externals}.

Record State : Type := {
  world : World X;
  trace : list Event
}.

Definition M (A : Type) : Type := State -> Res A * State.

Definition ret {A : Type} (a : A) : M A := fun s => (Done a, s).

Definition bind {A B : Type} (m : M A) (k : A -> M B) : M B :=
  fun s =>
    match m s with
    | (Done a, s') => k a s'
    | (Panic, s') => (Panic, s')
    end.

Definition panic {A : Type} : M A := fun s => (Panic, s).

Definition emit (e : Event) : M unit :=
  fun s => (Done tt, {| world := world s; trace := trace s ++ [e] |}).

(** A call to a collaborator, recorded in the trace. *)
Definition call {R : Type} (f : World X -> R * World X) (ev : R -> Event) : M R :=
  fun s =>
    let (r, w) := f (world s) in
    (Done r, {| world := w; trace := trace s ++ [ev r] |}).

(** A step of the runtime, not recorded. *)
Definition runtime {R : Type} (f : World X -> R * World X) : M R :=
  fun s =>
    let (r, w) := f (world s) in
    (Done r, {| world := w; trace := trace s |}).

End Monad.

Arguments State X : clear implicits.
Arguments M X A : clear implicits.

Notation "x <- c1 ;; c2" := (bind c1 (fun x => c2))
  (at level 100, c1 at next level, right associativity).
Notation "c1 ;;; c2" := (bind c1 (fun _ => c2))
  (at level 100, right associativity).

(** [for _, x := range xs { body }] with a loop state: the body ends an
    iteration with [Continue] and leaves the loop with [Break]. *)
Fixpoint forRange {X : Externals} {A S R : Type}
    (xs : list A) (body : A -> S -> M X (Ctl S R)) (st : S) : M X (Ctl S R) :=
  match xs with
  | [] => ret (Continue st)
  | x :: xs' =>
      c <- body x st ;;
      match c with
      | Continue st' => forRange xs' body st'
      | Break r => ret (Break r)
      end
  end.

(** ** The code *)

Section Distribution.

Context {X : Externals}.

Local Open Scope string_scope.

(** [InspectConfig] and [ListRemoteTagsConfig]: the transport-related data;
    the registry service of the configuration is part of [X], the output
    stream is never written. *)
Record Config : Type := {
  MetaHeaders_ : MetaHeaders;
  AuthConfig_ : option (AuthConfig X)
}.

(** [err.Error()] *)
Definition Error (err : error) : string :=
  match err with
  | errorString msg => msg
  | _ => foreign_Error X err
  end.

(** A value that implements [ManifestFetcher]. *)
Inductive ManifestFetcher : Type :=
| v2ManifestFetcher (endpoint : registry.APIEndpoint) (config : Config)
    (repoInfo : registry.RepositoryInfo)
| v1ManifestFetcher (endpoint : registry.APIEndpoint) (config : Config)
    (repoInfo : registry.RepositoryInfo).

Definition newManifestFetcher (endpoint : registry.APIEndpoint)
    (repoInfo : registry.RepositoryInfo) (config : Config) : error + ManifestFetcher :=
  if (registry.Version endpoint =? registry.APIVersion2)%Z then
    inr (v2ManifestFetcher endpoint config repoInfo)
  else if (registry.Version endpoint =? registry.APIVersion1)%Z then
    inr (v1ManifestFetcher endpoint config repoInfo)
  else
    inl (errorString ("unknown version " +:+ itoa (registry.Version endpoint)
                      +:+ " for registry " +:+ registry.URL endpoint)).

Definition makeRemoteImageInspect (repoInfo : registry.RepositoryInfo)
    (img : image.Image) (tag : string) (dgst : string) : types.RemoteImageInspect :=
  let repoTags :=
    if decide (tag <> "") then
      match WithTag X (registry.CanonicalName repoInfo) tag with
      | inr tagged => [tagged]
      | inl _ => []
      end
    else [] in
  let repoDigests :=
    match Digest_Validate X dgst with
    | None => [dgst]
    | Some _ => []
    end in
  {| types.ID := image.ID img;
     types.RepoTags := repoTags;
     types.RepoDigests := repoDigests;
     types.Parent := image.Parent img;
     types.Comment := image.Comment img;
     types.Created := image.Created img;
     types.Container := image.Container img;
     types.ContainerConfig := image.ContainerConfig img;
     types.DockerVersion := image.DockerVersion img;
     types.Author := image.Author img;
     types.Config := image.Config img;
     types.Architecture := image.Architecture img;
     types.Os := image.OS img;
     types.Size := image.Size img;
     types.Registry := registry.Name (registry.Index repoInfo) |}.

(** *** The v1 fetcher *)

Definition pullImageJSON (session : Session X) (imgID endpoint : string)
    (token : list string) : M X (option image.Image * option error) :=
  r <- call (GetRemoteImageJSON X session imgID endpoint)
            (Call_GetRemoteImageJSON imgID endpoint) ;;
  match r with
  | inl err => ret (None, Some err)
  | inr imgJSON =>
    match HistoryFromConfig X imgJSON false with
    | inl err => ret (None, Some err)
    | inr h =>
      match MakeRawConfigFromV1Config X imgJSON (NewRootFS X) [h] with
      | inl err => ret (None, Some err)
      | inr configRaw =>
        match json_Marshal X configRaw with
        | inl err => ret (None, Some err)
        | inr config =>
          match NewFromJSON X config with
          | inl err => ret (None, Some err)
          | inr img => ret (Some img, None)
          end
        end
      end
    end
  end.

(** The state of the two loops of [fetchWithSession]: the variables
    [pulledImg] and [err]. *)
Definition Pulled : Type := (option image.Image * option error)%type.

(** [for _, ep := range mf.repoInfo.Index.Mirrors], lines 110 to 117. *)
Definition pullFromMirrors (session : Session X) (repoInfo : registry.RepositoryInfo)
    (repoData : registry.RepositoryData) (img : registry.ImgData)
    (st : Pulled) : M X (Ctl Pulled Pulled) :=
  forRange (registry.Mirrors (registry.Index repoInfo))
    (fun ep _ =>
       r <- pullImageJSON session (registry.ID img) ep (registry.Tokens repoData) ;;
       match snd r with
       | Some err =>
           emit (Logged (ErrorPullingMirror (registry.CanonicalName repoInfo)
                           (registry.Tag img) ep err)) ;;;
           ret (Continue r)
       | None => ret (Break r)
       end)
    st.

(** [for _, ep := range repoData.Endpoints], lines 119 to 126. *)
Definition pullFromEndpoints (session : Session X) (repoInfo : registry.RepositoryInfo)
    (repoData : registry.RepositoryData) (img : registry.ImgData)
    (st : Pulled) : M X (Ctl Pulled Pulled) :=
  forRange (registry.Endpoints repoData)
    (fun ep _ =>
       r <- pullImageJSON session (registry.ID img) ep (registry.Tokens repoData) ;;
       match snd r with
       | Some err =>
           emit (Logged (ErrorPullingEndpoint (registry.CanonicalName repoInfo)
                           (registry.Tag img) ep err)) ;;;
           ret (Continue r)
       | None => ret (Break r)
       end)
    st.

(** The variables of a loop after it: a [break] keeps them as they are. *)
Definition afterLoop {S : Type} (c : Ctl S S) : S :=
  match c with
  | Continue st => st
  | Break st => st
  end.

(** Lines 109 to 135 of [fetchWithSession]: the image JSON is pulled for
    [img], the entry of the asked tag. *)
Definition pullImage (session : Session X) (repoInfo : registry.RepositoryInfo)
    (repoData : registry.RepositoryData) (img : registry.ImgData)
    (askedTag : string) : M X (option types.RemoteImageInspect * option error) :=
  c <- pullFromMirrors session repoInfo repoData img (None, None) ;;
  c <- (match fst (afterLoop c) with
        | None => pullFromEndpoints session repoInfo repoData img (afterLoop c)
        | Some _ => ret c
        end) ;;
  match afterLoop c with
  | (_, Some err) =>
      ret (None, Some (errorString
             ("Error pulling image (" +:+ registry.Tag img +:+ ") from "
              +:+ registry.CanonicalName repoInfo +:+ ", " +:+ Error err)))
  | (None, None) =>
      ret (None, Some (errorString
             ("No such image " +:+ registry.CanonicalName repoInfo +:+ ":" +:+ askedTag)))
  | (Some pulledImg, None) =>
      ret (Some (makeRemoteImageInspect repoInfo pulledImg askedTag ""), None)
  end.

(** Lines 81 to 87: every tag of the repository gets its entry in the image
    list, in the order in which [range] visits the map. *)
Definition addTags (imgList : gmap string registry.ImgData)
    (visited : list (string * string)) : gmap string registry.ImgData :=
  foldl (fun m p =>
           <[snd p := {| registry.ID := snd p; registry.Tag := fst p;
                         registry.Checksum := "" |}]> m)
        imgList visited.

(** Lines 89 to 101: the tag that is looked up for the asked tag. *)
Definition chooseTag (tagsList : gmap string string) (askedTag : string) : M X string :=
  (* If no tag has been specified, choose latest if it exists *)
  let askedTag :=
    if decide (askedTag = "") then
      match tagsList !! tagpkg.DefaultTag with
      | Some _ => tagpkg.DefaultTag
      | None => askedTag
      end
    else askedTag in
  if decide (askedTag = "") then
    (* fallback to any tag in the repository *)
    visited <- runtime (mapRange X tagsList) ;;
    ret (match visited with
         | (tag, _) :: _ => tag
         | [] => askedTag
         end)
  else ret askedTag.

Definition fetchWithSession (session : Session X) (repoInfo : registry.RepositoryInfo)
    (askedTag : string) : M X (option types.RemoteImageInspect * option error) :=
  r <- call (GetRepositoryData X session (registry.RemoteName repoInfo))
            (Call_GetRepositoryData (registry.RemoteName repoInfo)) ;;
  match r with
  | inl err =>
      if strings_Contains (Error err) "HTTP code: 404" then
        ret (None, Some (errorString
               ("Error: image " +:+ registry.RemoteName repoInfo +:+ " not found")))
      else ret (None, Some err)
  | inr repoData =>
    emit (Logged RetrievingV1Tags) ;;;
    r <- call (GetRemoteTags X session (registry.Endpoints repoData)
                 (registry.RemoteName repoInfo))
              (Call_GetRemoteTags (registry.Endpoints repoData)
                 (registry.RemoteName repoInfo)) ;;
    match r with
    | inl err => emit (Logged (UnableToGetRemoteTags err)) ;;; ret (None, Some err)
    | inr tagsList =>
      if decide (size tagsList < 1)%nat then
        ret (None, Some (errorString
               ("No tags available for remote repository "
                +:+ registry.CanonicalName repoInfo)))
      else
        visited <- runtime (mapRange X tagsList) ;;
        let repoData :=
          {| registry.ImgList := addTags (registry.ImgList repoData) visited;
             registry.Endpoints := registry.Endpoints repoData;
             registry.Tokens := registry.Tokens repoData |} in
        askedTag <- chooseTag tagsList askedTag ;;
        match tagsList !! askedTag with
        | None =>
            ret (None, Some (errorString
                   ("Tag " +:+ askedTag +:+ " not found in repository "
                    +:+ registry.CanonicalName repoInfo)))
        | Some id =>
          match registry.ImgList repoData !! id with
          | None => panic (* img is nil and img.ID is read *)
          | Some img => pullImage session repoInfo repoData img askedTag
          end
        end
    end
  end.

Definition v1ManifestFetcher_Fetch (endpoint : registry.APIEndpoint) (config : Config)
    (repoInfo : registry.RepositoryInfo) (ref : reference.Named)
    : M X (option types.RemoteImageInspect * bool * option error) :=
  match reference.Digest ref with
  | Some _ =>
      (* Allowing fallback, because HTTPS v1 is before HTTP v2 *)
      ret (None, true,
           Some (ErrNoSupport (errorString "Cannot pull by digest with v1 registry")))
  | None =>
    let tag := match reference.Tag ref with Some t => t | None => "" end in
    r <- call (TLSConfig X (registry.Name (registry.Index repoInfo)))
              (fun r => Call_TLSConfig (registry.Name (registry.Index repoInfo)) (errOf r)) ;;
    match r with
    | inl err => ret (None, false, Some err)
    | inr tlsConfig =>
      r <- call (ToV1Endpoint X endpoint (MetaHeaders_ config))
                (fun r => Call_ToV1Endpoint endpoint (errOf r)) ;;
      match r with
      | inl err => emit (Logged (CouldNotGetV1Endpoint err)) ;;; ret (None, true, Some err)
      | inr v1Endpoint =>
        r <- call (NewSession X tlsConfig (MetaHeaders_ config) (AuthConfig_ config) v1Endpoint)
                  (fun r => Call_NewSession (errOf r)) ;;
        match r with
        | inl err => emit (Logged (FallbackFromError err)) ;;; ret (None, true, Some err)
        | inr session =>
          r <- fetchWithSession session repoInfo tag ;;
          ret (fst r, false, snd r)
        end
      end
    end
  end.

(** *** The v2 fetcher *)

(** Lines 83 to 90 of [fetchWithRepository]: the tag taken from the tags of
    the repository when the reference has none. *)
Definition defaultOrFirstTag (tagList : list string) : string :=
  let tag :=
    foldl (fun tag t => if decide (t = tagpkg.DefaultTag) then tagpkg.DefaultTag else tag)
          "" tagList in
  if decide (tag = "") then
    match tagList with
    | t :: _ => t (* len(tagList) > 0 *)
    | [] => tag
    end
  else tag.

(** What the three cases of [fetchWithRepository] leave in the variables
    [unverifiedManifest], [err], [tag] and [tagOrDigest]; [inl] is an early
    [return nil, err]. *)
Definition Fetched : Type :=
  (error + (option (SignedManifest X) * option error * string * string))%type.

Definition fetchByDigest (manSvc : ManifestService X) (repoInfo : registry.RepositoryInfo)
    (dgst : string) : M X Fetched :=
  r <- call (Exists X manSvc dgst) (Call_Exists dgst) ;;
  match r with
  | (false, None) =>
      ret (inl (errorString
             ("Digest " +:+ Quote X dgst +:+ " does not exist in remote repository "
              +:+ registry.CanonicalName repoInfo)))
  | (true, _) =>
      r <- call (Get X manSvc dgst) (fun r => Call_Get dgst (snd r)) ;;
      ret (inr (fst r, snd r, "", dgst))
  | (false, Some err) => ret (inr (None, Some err, "", dgst))
  end.

Definition fetchByTag (manSvc : ManifestService X) (tag : string) : M X Fetched :=
  r <- call (GetByTag X manSvc tag) (fun r => Call_GetByTag tag (snd r)) ;;
  ret (inr (fst r, snd r, tag, tag)).

Definition fetchWithRepository (repo : Repository X) (repoInfo : registry.RepositoryInfo)
    (ref : reference.Named) : M X (option types.RemoteImageInspect * option error) :=
  r <- call (Manifests X repo) (fun r => Call_Manifests (errOf r)) ;;
  match r with
  | inl err => ret (None, Some err)
  | inr manSvc =>
    f <- (match reference.Digest ref with
          | Some dgst => fetchByDigest manSvc repoInfo dgst
          | None =>
            match reference.Tag ref with
            | Some tag =>
                r <- call (ExistsByTag X manSvc tag) (Call_ExistsByTag tag) ;;
                match r with
                | (_, Some err) => ret (inl err)
                | (false, None) =>
                    ret (inl (errorString
                           ("Tag " +:+ Quote X tag +:+ " does not exist in remote repository "
                            +:+ registry.CanonicalName repoInfo)))
                | (true, None) => fetchByTag manSvc tag
                end
            | None =>
                r <- call (Tags X manSvc) Call_Tags ;;
                match r with
                | inl err => ret (inl err)
                | inr tagList =>
                    let tag := defaultOrFirstTag tagList in
                    if decide (tag = "") then
                      ret (inl (errorString
                             ("No tags available for remote repository "
                              +:+ registry.CanonicalName repoInfo)))
                    else fetchByTag manSvc tag
                end
            end
          end) ;;
    match f with
    | inl err => ret (None, Some err)
    | inr (_, Some err, _, _) => ret (None, Some err)
    | inr (None, None, _, tagOrDigest) =>
        ret (None, Some (errorString
               ("image manifest does not exist for tag or digest " +:+ Quote X tagOrDigest)))
    | inr (Some unverifiedManifest, None, tag, _) =>
        match manifestToImage X unverifiedManifest ref repoInfo with
        | inl err => ret (None, Some err)
        | inr (img, dgst) => ret (Some (makeRemoteImageInspect repoInfo img tag dgst), None)
        end
    end
  end.

Definition v2ManifestFetcher_Fetch (endpoint : registry.APIEndpoint) (config : Config)
    (repoInfo : registry.RepositoryInfo) (ref : reference.Named)
    : M X (option types.RemoteImageInspect * bool * option error) :=
  r <- call (NewV2Repository X repoInfo endpoint (MetaHeaders_ config) (AuthConfig_ config))
            (fun r => Call_NewV2Repository endpoint (errOf r)) ;;
  match r with
  | inl err => emit (Logged (ErrorGettingV2Registry err)) ;;; ret (None, true, Some err)
  | inr repo =>
    r <- fetchWithRepository repo repoInfo ref ;;
    match snd r with
    | Some err =>
        if ContinueOnError X err then
          emit (Logged (ErrorTryingV2Registry err)) ;;; ret (fst r, true, Some err)
        else ret (fst r, false, Some err)
    | None => ret (fst r, false, None)
    end
  end.

(** [fetcher.Fetch(ref)] *)
Definition Fetch (fetcher : ManifestFetcher) (ref : reference.Named)
    : M X (option types.RemoteImageInspect * bool * option error) :=
  match fetcher with
  | v2ManifestFetcher endpoint config repoInfo =>
      v2ManifestFetcher_Fetch endpoint config repoInfo ref
  | v1ManifestFetcher endpoint config repoInfo =>
      v1ManifestFetcher_Fetch endpoint config repoInfo ref
  end.

(** *** The orchestrator: inspection *)

(** The variables [lastErr] and [discardNoSupportErrors] of the endpoint
    loops. *)
Record ErrAcc : Type := {
  lastErr : option error;
  discardNoSupportErrors : bool
}.

(** Lines 196 to 205 of [fetchManifest] and lines 310 to 319 of
    [getRemoteTagList], the same statements: what an error that lets the
    loop continue does to the two variables. *)
Definition saveError (acc : ErrAcc) (err : error) : ErrAcc :=
  if negb (isNoSupport err) then
    (* Because we found an error that's not ErrNoSupport, discard all
       subsequent ErrNoSupport errors; save the current error *)
    {| lastErr := Some err; discardNoSupportErrors := true |}
  else if negb (discardNoSupportErrors acc) then
    (* Save the ErrNoSupport error, because it's either the first error or
       all encountered errors were also ErrNoSupport errors. *)
    {| lastErr := Some err; discardNoSupportErrors := discardNoSupportErrors acc |}
  else acc.

(** What a function of this package returns: [(value, err)]. *)
Definition Result (A : Type) : Type := (option A * option error)%type.

(** The body of [for _, endpoint := range endpoints] in [fetchManifest],
    lines 184 to 213. *)
Definition fetchManifest_body (ref : reference.Named) (config : Config)
    (repoInfo : registry.RepositoryInfo) (endpoint : registry.APIEndpoint)
    (acc : ErrAcc) : M X (Ctl ErrAcc (Result types.RemoteImageInspect)) :=
  emit (Logged (TryingManifest (registry.CanonicalName repoInfo) endpoint)) ;;;
  match newManifestFetcher endpoint repoInfo config with
  | inl err =>
      ret (Continue {| lastErr := Some err;
                       discardNoSupportErrors := discardNoSupportErrors acc |})
  | inr fetcher =>
    r <- Fetch fetcher ref ;;
    match r with
    | (_, fallback, Some err) =>
        if fallback then ret (Continue (saveError acc err))
        else emit (Logged (NotContinuing err)) ;;; ret (Break (None, Some err))
    | (imgInspect, _, None) => ret (Break (imgInspect, None))
    end
  end.

Definition noEndpoints (repoInfo : registry.RepositoryInfo) : error :=
  errorString ("no endpoints found for " +:+ registry.Name (registry.Index repoInfo)).

(** Lines 215 to 218 and 330 to 333: the error returned after the loop. *)
Definition lastErrOr (repoInfo : registry.RepositoryInfo) (acc : ErrAcc) : error :=
  match lastErr acc with
  | None => noEndpoints repoInfo
  | Some err => err
  end.

Definition initialAcc : ErrAcc := {| lastErr := None; discardNoSupportErrors := false |}.

Definition fetchManifest (ref : reference.Named) (config : Config)
    : M X (Result types.RemoteImageInspect) :=
  (* Resolve the Repository name from fqn to RepositoryInfo *)
  r <- call (ResolveRepository X ref) (Call_ResolveRepository ref) ;;
  match r with
  | inl err => ret (None, Some err)
  | inr repoInfo =>
    match validateRepoName X (registry.LocalName repoInfo) with
    | Some err => ret (None, Some err)
    | None =>
      r <- call (LookupPullEndpoints X (registry.CanonicalName repoInfo))
                (Call_LookupPullEndpoints (registry.CanonicalName repoInfo)) ;;
      match r with
      | inl err => ret (None, Some err)
      | inr endpoints =>
        c <- forRange endpoints (fetchManifest_body ref config repoInfo) initialAcc ;;
        match c with
        | Break result => ret result
        | Continue acc => ret (None, Some (lastErrOr repoInfo acc))
        end
      end
    end
  end.

(** The body of [for _, r := range registry.RegistryList] in [Inspect],
    lines 140 to 152; the loop state is the pair of the variables
    [imageInspect] and [err]. *)
Definition Inspect_body (ref : reference.Named) (config : Config) (r : string)
    (st : Result types.RemoteImageInspect)
    : M X (Ctl (Result types.RemoteImageInspect) (Result types.RemoteImageInspect)) :=
  (* Prepend the index name to the image name. *)
  match FullyQualifyReferenceWith X r ref with
  | inl _err =>
      emit (Logged (FailedToQualify (reference.Name ref) r _err)) ;;;
      ret (Continue (fst st, Some _err))
  | inr fqr =>
      res <- fetchManifest fqr config ;;
      match snd res with
      | None => ret (Break (fst res, None))
      | Some _ => ret (Continue res)
      end
  end.

Definition noRegistry : error := errorString "No configured registry to pull from.".

(** [Inspect] returns metadata for remote image. *)
Definition Inspect (ref : reference.Named) (config : Config)
    : M X (Result types.RemoteImageInspect) :=
  (* Unless the index name is specified, iterate over all registries until
     the matching image is found. *)
  if IsReferenceFullyQualified X ref then fetchManifest ref config
  else if decide (length (RegistryList X) = 0%nat) then ret (None, Some noRegistry)
  else
    c <- forRange (RegistryList X) (Inspect_body ref config) (None, None) ;;
    ret (afterLoop c).

(** *** The tag listers *)

Definition listTagsWithSession (session : Session X) (repoInfo : registry.RepositoryInfo)
    : M X (list types.RepositoryTag * option error) :=
  r <- call (GetRepositoryData X session (registry.RemoteName repoInfo))
            (Call_GetRepositoryData (registry.RemoteName repoInfo)) ;;
  match r with
  | inl err =>
      if strings_Contains (Error err) "HTTP code: 404" then
        ret ([], Some (errorString
               ("Error: image " +:+ registry.RemoteName repoInfo +:+ " not found")))
      else ret ([], Some err)
  | inr repoData =>
    emit (Logged RetrievingV1Tags) ;;;
    r <- call (GetRemoteTags X session (registry.Endpoints repoData)
                 (registry.RemoteName repoInfo))
              (Call_GetRemoteTags (registry.Endpoints repoData)
                 (registry.RemoteName repoInfo)) ;;
    match r with
    | inl err => emit (Logged (UnableToGetRemoteTags err)) ;;; ret ([], Some err)
    | inr tagsList =>
      if decide (size tagsList < 1)%nat then
        ret ([], Some (errorString
               ("No tags available for remote repository "
                +:+ registry.CanonicalName repoInfo)))
      else
        visited <- runtime (mapRange X tagsList) ;;
        ret (map (fun p => {| types.Tag := fst p; types.ImageID := snd p |}) visited, None)
    end
  end.

Definition v1TagLister_ListTags (endpoint : registry.APIEndpoint) (config : Config)
    (repoInfo : registry.RepositoryInfo)
    : M X (list types.RepositoryTag * bool * option error) :=
  r <- call (TLSConfig X (registry.Name (registry.Index repoInfo)))
            (fun r => Call_TLSConfig (registry.Name (registry.Index repoInfo)) (errOf r)) ;;
  match r with
  | inl err => ret ([], false, Some err)
  | inr tlsConfig =>
    r <- call (ToV1Endpoint X endpoint (MetaHeaders_ config))
              (fun r => Call_ToV1Endpoint endpoint (errOf r)) ;;
    match r with
    | inl err => emit (Logged (CouldNotGetV1Endpoint err)) ;;; ret ([], true, Some err)
    | inr v1Endpoint =>
      r <- call (NewSession X tlsConfig (MetaHeaders_ config) (AuthConfig_ config) v1Endpoint)
                (fun r => Call_NewSession (errOf r)) ;;
      match r with
      | inl err => emit (Logged (FallbackFromError err)) ;;; ret ([], true, Some err)
      | inr session =>
        r <- listTagsWithSession session repoInfo ;;
        ret (fst r, false, snd r)
      end
    end
  end.

Definition listTagsWithRepository (endpoint : registry.APIEndpoint) (repo : Repository X)
    : M X (list types.RepositoryTag * option error) :=
  emit (Logged (RetrievingV2Tags (registry.URL endpoint))) ;;;
  r <- call (Manifests X repo) (fun r => Call_Manifests (errOf r)) ;;
  match r with
  | inl err => ret ([], Some err)
  | inr manSvc =>
    r <- call (Tags X manSvc) Call_Tags ;;
    match r with
    | inl err =>
        match err with
        | errcode_Errors [t0] => ret ([], Some t0)
        | _ => ret ([], Some err)
        end
    | inr tags =>
        ret (map (fun tag => {| types.Tag := tag; types.ImageID := "" |}) tags, None)
    end
  end.

Definition v2TagLister_ListTags (endpoint : registry.APIEndpoint) (config : Config)
    (repoInfo : registry.RepositoryInfo)
    : M X (list types.RepositoryTag * bool * option error) :=
  r <- call (NewV2Repository X repoInfo endpoint (MetaHeaders_ config) (AuthConfig_ config))
            (fun r => Call_NewV2Repository endpoint (errOf r)) ;;
  match r with
  | inl err => emit (Logged (ErrorGettingV2Registry err)) ;;; ret ([], true, Some err)
  | inr repo =>
    r <- listTagsWithRepository endpoint repo ;;
    match snd r with
    | Some err =>
        if ContinueOnError X err then
          emit (Logged (ErrorTryingV2Registry err)) ;;; ret (fst r, true, Some err)
        else ret (fst r, false, Some err)
    | None => ret (fst r, false, None)
    end
  end.

(** A value that implements [TagLister]. *)
Inductive TagLister : Type :=
| v2TagLister (endpoint : registry.APIEndpoint) (config : Config)
    (repoInfo : registry.RepositoryInfo)
| v1TagLister (endpoint : registry.APIEndpoint) (config : Config)
    (repoInfo : registry.RepositoryInfo).

(** [newTagLister] creates a specific tag lister for given endpoint. *)
Definition newTagLister (endpoint : registry.APIEndpoint)
    (repoInfo : registry.RepositoryInfo) (config : Config) : error + TagLister :=
  if (registry.Version endpoint =? registry.APIVersion2)%Z then
    inr (v2TagLister endpoint config repoInfo)
  else if (registry.Version endpoint =? registry.APIVersion1)%Z then
    inr (v1TagLister endpoint config repoInfo)
  else
    inl (errorString ("unknown version " +:+ itoa (registry.Version endpoint)
                      +:+ " for registry " +:+ registry.URL endpoint)).

(** [tagLister.ListTags()] *)
Definition ListTags (tagLister : TagLister)
    : M X (list types.RepositoryTag * bool * option error) :=
  match tagLister with
  | v2TagLister endpoint config repoInfo => v2TagLister_ListTags endpoint config repoInfo
  | v1TagLister endpoint config repoInfo => v1TagLister_ListTags endpoint config repoInfo
  end.

(** *** The orchestrator: tag listing *)

(** [byTagName.Less] on two elements of the slice. *)
Definition byTagName_Less (a b : types.RepositoryTag) : bool :=
  (types.Tag a <? types.Tag b)%string.

(** [byAPIVersion.Less] on two elements of the slice. *)
Definition byAPIVersion_Less (a b : registry.APIEndpoint) : bool :=
  if (registry.Version a <? registry.Version b)%Z then true
  else if (registry.Version a =? registry.Version b)%Z
          && strings_HasPrefix (registry.URL a) "https://"
          && negb (strings_HasPrefix (registry.URL b) "https://") then true
  else false.

(** The body of [for _, endpoint := range endpoints] in [getRemoteTagList],
    lines 296 to 328. *)
Definition getRemoteTagList_body (config : Config) (repoInfo : registry.RepositoryInfo)
    (endpoint : registry.APIEndpoint) (acc : ErrAcc)
    : M X (Ctl ErrAcc (Result types.RepositoryTagList)) :=
  emit (Logged (TryingTagList (registry.CanonicalName repoInfo) endpoint)) ;;;
  match newTagLister endpoint repoInfo config with
  | inl err =>
      ret (Continue {| lastErr := Some err;
                       discardNoSupportErrors := discardNoSupportErrors acc |})
  | inr tagLister =>
    r <- ListTags tagLister ;;
    match r with
    | (_, fallback, Some err) =>
        (* We're querying v1 registries first. Let's ignore errors until
           the first v2 registry. *)
        if fallback || (registry.Version endpoint =? registry.APIVersion1)%Z then
          ret (Continue (saveError acc err))
        else emit (Logged (NotContinuing err)) ;;; ret (Break (None, Some err))
    | (tags, _, None) =>
        ret (Break (Some {| types.Name := registry.CanonicalName repoInfo;
                            types.TagList := sort_Sort X _ byTagName_Less tags |},
                    None))
    end
  end.

Definition getRemoteTagList (ref : reference.Named) (config : Config)
    : M X (Result types.RepositoryTagList) :=
  (* Resolve the Repository name from fqn to RepositoryInfo *)
  r <- call (ResolveRepository X ref) (Call_ResolveRepository ref) ;;
  match r with
  | inl err => ret (None, Some err)
  | inr repoInfo =>
    match validateRepoName X (registry.LocalName repoInfo) with
    | Some err => ret (None, Some err)
    | None =>
      r <- call (LookupPullEndpoints X (registry.CanonicalName repoInfo))
                (Call_LookupPullEndpoints (registry.CanonicalName repoInfo)) ;;
      match r with
      | inl err => ret (None, Some err)
      | inr endpoints =>
        (* Prefer v1 versions which provide also image ids *)
        let endpoints := sort_Sort X _ byAPIVersion_Less endpoints in
        c <- forRange endpoints (getRemoteTagList_body config repoInfo) initialAcc ;;
        match c with
        | Break result => ret result
        | Continue acc => ret (None, Some (lastErrOr repoInfo acc))
        end
      end
    end
  end.

(** The body of [for _, r := range registry.RegistryList] in
    [ListRemoteTags], lines 232 to 243; the loop state is the pair of the
    variables [tagList] and [err]. *)
Definition ListRemoteTags_body (ref : reference.Named) (config : Config) (r : string)
    (st : Result types.RepositoryTagList)
    : M X (Ctl (Result types.RepositoryTagList) (Result types.RepositoryTagList)) :=
  (* Prepend the index name to the image name. *)
  match FullyQualifyReferenceWith X r ref with
  | inl _err =>
      emit (Logged (FailedToQualify (reference.Name ref) r _err)) ;;;
      ret (Continue (fst st, Some _err))
  | inr fqr =>
      res <- getRemoteTagList fqr config ;;
      match snd res with
      | None => ret (Break (fst res, None))
      | Some _ => ret (Continue res)
      end
  end.

(** [ListRemoteTags] fetches a tag list from remote repository. *)
Definition ListRemoteTags (ref : reference.Named) (config : Config)
    : M X (Result types.RepositoryTagList) :=
  if IsReferenceFullyQualified X ref then getRemoteTagList ref config
  else if decide (length (RegistryList X) = 0%nat) then ret (None, Some noRegistry)
  else
    match ValidateRepositoryName X ref with
    | Some err => ret (None, Some err)
    | None =>
      c <- forRange (RegistryList X) (ListRemoteTags_body ref config) (None, None) ;;
      ret (afterLoop c)
    end.

End Distribution.

(** ** Executions *)

Section Executions.

Context {X : Externals}.

(** [observes try xs s os s']: the attempts [try x] for the [x] of [xs], made
    one after the other from [s], each from the state the one before left,
    return the outcomes [os] and leave [s']. *)
Inductive observes {A O : Type} (try : A -> M X O)
    : list A -> State X -> list (A * O) -> State X -> Prop :=
| observes_nil s : observes try [] s [] s
| observes_cons x xs s o s1 os s' :
    try x s = (Done o, s1) ->
    observes try xs s1 os s' ->
    observes try (x :: xs) s ((x, o) :: os) s'.

(** [emits P m]: the events [m] adds to the trace all satisfy [P], however
    it ends. *)
Definition emits (P : Event -> Prop) {A : Type} (m : M X A) : Prop :=
  forall s r s', m s = (r, s') ->
    exists evs, trace s' = trace s ++ evs /\ Forall P evs.

(** [returns Q m]: from every state [m] returns, it does not panic, and
    what it returns satisfies [Q]. *)
Definition returns {A : Type} (Q : A -> Prop) (m : M X A) : Prop :=
  forall s, exists a s', m s = (Done a, s') /\ Q a.

Definition anything {A : Type} (a : A) : Prop := True.

(** The events of a fetcher or a lister: the calls to the session and to the
    v2 repository, and the lines they log. *)
Definition inner (e : Event) : Prop :=
  match e with
  | Call_ResolveRepository _ _ | Call_LookupPullEndpoints _ _ => False
  | Logged (TryingManifest _ _) | Logged (TryingTagList _ _)
  | Logged (NotContinuing _) | Logged (FailedToQualify _ _ _) => False
  | _ => True
  end.

Definition notResolve (e : Event) : Prop :=
  match e with
  | Call_ResolveRepository _ _ => False
  | _ => True
  end.

Definition notTryingTagList (e : Event) : Prop :=
  match e with
  | Logged (TryingTagList _ _) => False
  | _ => True
  end.

(** What an endpoint loop observes at one endpoint: the error of the
    constructor of the fetcher or lister, or the three results of [Fetch] or
    [ListTags]. *)
Definition Attempt (V : Type) : Type := (error + (V * bool * option error))%type.

(** The attempt of [fetchManifest] at [endpoint]: the loop body up to the
    results of [Fetch]. *)
Definition tryManifest (ref : reference.Named) (config : Config)
    (repoInfo : registry.RepositoryInfo) (endpoint : registry.APIEndpoint)
    : M X (Attempt (option types.RemoteImageInspect)) :=
  emit (Logged (TryingManifest (registry.CanonicalName repoInfo) endpoint)) ;;;
  match newManifestFetcher endpoint repoInfo config with
  | inl err => ret (inl err)
  | inr fetcher => r <- Fetch fetcher ref ;; ret (inr r)
  end.

(** The attempt of [getRemoteTagList] at [endpoint]: the loop body up to the
    results of [ListTags]. *)
Definition tryTagList (config : Config) (repoInfo : registry.RepositoryInfo)
    (endpoint : registry.APIEndpoint) : M X (Attempt (list types.RepositoryTag)) :=
  emit (Logged (TryingTagList (registry.CanonicalName repoInfo) endpoint)) ;;;
  match newTagLister endpoint repoInfo config with
  | inl err => ret (inl err)
  | inr tagLister => r <- ListTags tagLister ;; ret (inr r)
  end.

(** The outcome is an error of [Fetch] or [ListTags] that is not an
    [ErrNoSupport]. *)
Definition realError {V : Type} (o : Attempt V) : bool :=
  match o with
  | inr (_, _, Some err) => negb (isNoSupport err)
  | _ => false
  end.

(** The outcome is an error of [Fetch] or [ListTags] returned with
    [fallback] set. *)
Definition fallbackError {V : Type} (o : Attempt V) : bool :=
  match o with
  | inr (_, fallback, Some _) => fallback
  | _ => false
  end.

(** The state after a line is logged. *)
Definition logged (s : State X) (l : LogLine) : State X :=
  {| world := world s; trace := trace s ++ [Logged l] |}.

(** The two variables of an endpoint loop after an iteration that observed
    [o] and went on to the next endpoint. *)
Definition accAfter {V : Type} (acc : ErrAcc) (o : Attempt V) : ErrAcc :=
  match o with
  | inl err => {| lastErr := Some err;
                  discardNoSupportErrors := discardNoSupportErrors acc |}
  | inr (_, _, Some err) => saveError acc err
  | inr (_, _, None) => acc
  end.

(** The state in which the endpoint loop of [fetchManifest] and of
    [getRemoteTagList] starts, when the repository resolves to [repoInfo]
    and the lookup of its endpoints leaves the world [w]. *)
Definition atEndpoints (ref : reference.Named) (repoInfo : registry.RepositoryInfo)
    (endpoints : list registry.APIEndpoint) (w : World X) (s : State X) : State X :=
  {| world := w;
     trace := trace s ++ [Call_ResolveRepository ref (inr repoInfo)]
              ++ [Call_LookupPullEndpoints (registry.CanonicalName repoInfo) (inr endpoints)] |}.

(** The attempt of [Inspect] at the registry [r]: the body of its loop up to
    the results of [fetchManifest]. *)
Definition tryRegistry (ref : reference.Named) (config : Config) (r : string)
    : M X (Result types.RemoteImageInspect) :=
  match FullyQualifyReferenceWith X r ref with
  | inl _err =>
      emit (Logged (FailedToQualify (reference.Name ref) r _err)) ;;;
      ret (None, Some _err)
  | inr fqr => fetchManifest fqr config
  end.

(** The attempt of [ListRemoteTags] at the registry [r]. *)
Definition tryRegistryTags (ref : reference.Named) (config : Config) (r : string)
    : M X (Result types.RepositoryTagList) :=
  match FullyQualifyReferenceWith X r ref with
  | inl _err =>
      emit (Logged (FailedToQualify (reference.Name ref) r _err)) ;;;
      ret (None, Some _err)
  | inr fqr => getRemoteTagList fqr config
  end.

(** The references that the trace shows were resolved, in order. *)
Definition resolved (evs : list Event) : list reference.Named :=
  omap (fun e => match e with
                 | Call_ResolveRepository ref _ => Some ref
                 | _ => None
                 end) evs.

(** The endpoints at which the trace shows a tag listing was tried, in
    order. *)
Definition triedForTags (evs : list Event) : list registry.APIEndpoint :=
  omap (fun e => match e with
                 | Logged (TryingTagList _ endpoint) => Some endpoint
                 | _ => None
                 end) evs.

(** The image JSON requests that the trace shows, in order: image id and
    address. *)
Definition imageRequests (evs : list Event) : list (string * string) :=
  omap (fun e => match e with
                 | Call_GetRemoteImageJSON imgID ep _ => Some (imgID, ep)
                 | _ => None
                 end) evs.

(** The tags for which the trace shows a manifest was fetched. *)
Definition manifestsByTag (evs : list Event) : list string :=
  omap (fun e => match e with
                 | Call_GetByTag tag _ => Some tag
                 | _ => None
                 end) evs.

(** One attempt of [fetchWithSession] to pull the image JSON, at a mirror
    ([mirror] set) or at an endpoint of the repository: the call with the
    line logged when it fails. *)
Definition pullAttempt (session : Session X) (repoInfo : registry.RepositoryInfo)
    (repoData : registry.RepositoryData) (img : registry.ImgData)
    (a : bool * string) : M X Pulled :=
  r <- pullImageJSON session (registry.ID img) (snd a) (registry.Tokens repoData) ;;
  match snd r with
  | Some err =>
      emit (Logged ((if fst a then ErrorPullingMirror else ErrorPullingEndpoint)
                      (registry.CanonicalName repoInfo) (registry.Tag img) (snd a) err)) ;;;
      ret r
  | None => ret r
  end.

(** The addresses [fetchWithSession] has for the image JSON, in the order
    of the source: the mirrors, then the endpoints of the repository. *)
Definition pullAddresses (repoInfo : registry.RepositoryInfo)
    (repoData : registry.RepositoryData) : list (bool * string) :=
  map (pair true) (registry.Mirrors (registry.Index repoInfo))
  ++ map (pair false) (registry.Endpoints repoData).

(** The candidates of [tried] that qualify the reference, qualified. *)
Definition candidates (ref : reference.Named) (tried : list string)
    : list reference.Named :=
  omap (fun r => match FullyQualifyReferenceWith X r ref with
                 | inr fqr => Some fqr
                 | inl _ => None
                 end) tried.

(** A result with an error carries no value. *)
Definition errorOnly {A : Type} (res : Result A) : Prop :=
  is_Some (snd res) -> fst res = None.

(** What [Inspect] and [ListRemoteTags] do with a reference that is not
    fully qualified, the registries being [rs]: the registries [tried], a
    prefix of [rs], were tried in order, each from the state the one before
    left; [os] is what each returned, all but the last failed, and the
    result is the one of the last, or carries its error.  The references
    resolved on the way are the candidates of [tried] that qualify. *)
Definition triedInOrder {A : Type} (try : string -> M X (Result A))
    (ref : reference.Named) (rs : list string) (s : State X) (res : Result A)
    (s' : State X) : Prop :=
  exists tried rest os os' r res',
    rs = tried ++ rest /\
    (length tried <= length rs)%nat /\
    observes try tried s os s' /\
    (exists evs, trace s' = trace s ++ evs /\ resolved evs = candidates ref tried) /\
    os = os' ++ [(r, res')] /\
    Forall (fun ro => is_Some (snd (snd ro))) os' /\
    snd res = snd res' /\
    (snd res' = None -> res = res') /\
    (is_Some (snd res') -> rest = []).

(** The state of [fetchWithSession] and of [listTagsWithSession] once the
    session returned the repository data and the tags. *)
Definition atTags (repoInfo : registry.RepositoryInfo) (repoData : registry.RepositoryData)
    (tagsList : gmap string string) (w : World X) (s : State X) : State X :=
  {| world := w;
     trace := trace s
              ++ [Call_GetRepositoryData (registry.RemoteName repoInfo) (inr repoData);
                  Logged RetrievingV1Tags;
                  Call_GetRemoteTags (registry.Endpoints repoData)
                    (registry.RemoteName repoInfo) (inr tagsList)] |}.
(** The state of [fetchWithRepository] once the repository returned its
    manifest service and its tags. *)
Definition atV2Tags (tagList : list string) (w : World X) (s : State X) : State X :=
  {| world := w;
     trace := trace s ++ [Call_Manifests None; Call_Tags (inr tagList)] |}.

(** Lines 100 to 161 of [fetchWithRepository] on what [GetByTag] returned. *)
Definition fromManifest (repoInfo : registry.RepositoryInfo) (ref : reference.Named)
    (tag : string) (r : option (SignedManifest X) * option error)
    : Result types.RemoteImageInspect :=
  match r with
  | (_, Some err) => (None, Some err)
  | (None, None) =>
      (None, Some (errorString
         ("image manifest does not exist for tag or digest " +:+ Quote X tag)))
  | (Some unverifiedManifest, None) =>
      match manifestToImage X unverifiedManifest ref repoInfo with
      | inl err => (None, Some err)
      | inr (img, dgst) =>
          (Some (makeRemoteImageInspect (X:=X) repoInfo img tag dgst), None)
      end
  end.
(** The attempt to pull the image JSON returned an error. *)
Definition pullFailed (ao : (bool * string) * Pulled) : Prop :=
  exists err, snd ao = (None, Some err).

(** The key [byAPIVersion.Less] compares: the version, then whether the URL
    lacks the secure scheme. *)
Definition rank (e : registry.APIEndpoint) : Z * Z :=
  (registry.Version e,
   if strings_HasPrefix (registry.URL e) "https://" then 0 else 1).

End Executions.

(** ** Collaborators to run the code on *)

(** What a registry answers in an example: the configured registries, the
    endpoints of a repository, the mirrors of its index, the endpoints named
    by its repository data, the outcome of the TLS configuration and of the
    opening of a v2 repository at an endpoint, the tags the v1 session and
    the v2 repository return, and the image JSON found at an address. *)
Record Scenario : Type := {
  sc_registries : list string;
  sc_endpoints : list registry.APIEndpoint;
  sc_mirrors : list string;
  sc_repoEndpoints : list string;
  sc_tls : option error;
  sc_v2repo : registry.APIEndpoint -> option error;
  sc_v1tags : error + gmap string string;
  sc_v2tags : error + list string;
  sc_imageJSON : string -> error + string
}.

Definition anImage : image.Image :=
  {| image.ID := "sha256:0a1b";
     image.Parent := "";
     image.Comment := "";
     image.Created := "2016-01-01T00:00:00Z";
     image.Container := "";
     image.ContainerConfig := {| runconfig.Image := ""; runconfig.Cmd := []; runconfig.Env := [] |};
     image.DockerVersion := "1.10.0";
     image.Author := "";
     image.Config := None;
     image.Architecture := "amd64";
     image.OS := "linux";
     image.Size := 0 |}.

(** The repository a name resolves to in a scenario. *)
Definition repoOf (sc : Scenario) (name : string) : registry.RepositoryInfo :=
  {| registry.Index := {| registry.Name := "docker.io"; registry.Mirrors := sc_mirrors sc |};
     registry.RemoteName := name;
     registry.LocalName := name;
     registry.CanonicalName := name |}.

Definition resolveIn (sc : Scenario) (ref : reference.Named)
    : error + registry.RepositoryInfo :=
  if strings_HasPrefix (reference.Name ref) "down.io/" then
    inl (errorString "registry is down")
  else inr (repoOf sc (reference.Name ref)).

Definition qualifyWith (r : string) (ref : reference.Named) : error + reference.Named :=
  if decide (r = ""%string) then inl (errorString "invalid registry name")
  else inr {| reference.Name := r +:+ "/" +:+ reference.Name ref;
              reference.Tag := reference.Tag ref;
              reference.Digest := reference.Digest ref |}.

Definition fromOption {A : Type} (o : option error) (a : A) : error + A :=
  match o with
  | Some err => inl err
  | None => inr a
  end.

(** A [sort.Sort]: merge sort, an element staying before the ones it is not
    less than. *)
Definition mergeSort (A : Type) (less : A -> A -> bool) (l : list A) : list A :=
  @merge_sort A (fun x y : A => less y x = false)
    (fun x y => decide (less y x = false)) l.

(** The collaborators of a scenario: the world has no state, a map is
    visited in the order of its keys, and [sort.Sort] is a merge sort. *)
Definition demo (sc : Scenario) : Externals :=
  {| World := unit;
     TLSConfigT := unit;
     V1Endpoint := unit;
     Session := unit;
     Repository := unit;
     ManifestService := unit;
     SignedManifest := unit;
     AuthConfig := unit;
     History := unit;
     RootFS := unit;
     RawConfig := unit;
     ResolveRepository := fun ref w => (resolveIn sc ref, w);
     LookupPullEndpoints := fun _ w => (inr (sc_endpoints sc), w);
     TLSConfig := fun _ w => (fromOption (sc_tls sc) tt, w);
     ToV1Endpoint := fun _ _ w => (inr tt, w);
     NewSession := fun _ _ _ _ w => (inr tt, w);
     GetRepositoryData := fun _ _ w =>
       (inr {| registry.ImgList := ∅;
               registry.Endpoints := sc_repoEndpoints sc;
               registry.Tokens := [] |}, w);
     GetRemoteTags := fun _ _ _ w => (sc_v1tags sc, w);
     GetRemoteImageJSON := fun _ _ ep w => (sc_imageJSON sc ep, w);
     IsReferenceFullyQualified := fun ref => strings_Contains (reference.Name ref) ".";
     FullyQualifyReferenceWith := qualifyWith;
     ValidateRepositoryName := fun _ => None;
     RegistryList := sc_registries sc;
     ContinueOnError := fun _ => true;
     NewV2Repository := fun _ e _ _ w => (fromOption (sc_v2repo sc e) tt, w);
     Manifests := fun _ w => (inr tt, w);
     Exists := fun _ _ w => ((true, None), w);
     Get := fun _ _ w => ((Some tt, None), w);
     ExistsByTag := fun _ _ w => ((true, None), w);
     GetByTag := fun _ _ w => ((Some tt, None), w);
     Tags := fun _ w => (sc_v2tags sc, w);
     validateRepoName := fun _ => None;
     manifestToImage := fun _ _ _ => inr (anImage, "sha256:77af"%string);
     HistoryFromConfig := fun _ _ => inr tt;
     MakeRawConfigFromV1Config := fun _ _ _ => inr tt;
     NewRootFS := tt;
     json_Marshal := fun _ => inr "{}"%string;
     NewFromJSON := fun _ => inr anImage;
     WithTag := fun name tag => inr (name +:+ ":" +:+ tag);
     Digest_Validate := fun d =>
       if decide (d = ""%string) then Some (errorString "invalid digest") else None;
     foreign_Error := fun _ => "not supported"%string;
     Quote := fun q => q;
     mapRange := fun m w => (map_to_list m, w);
     sort_Sort := mergeSort |}.

Definition start (sc : Scenario) : State (demo sc) := @Build_State (demo sc) tt [].

Definition noConfig (sc : Scenario) : @Config (demo sc) :=
  @Build_Config (demo sc) ∅ None.

Definition v1At (url : string) : registry.APIEndpoint :=
  {| registry.URL := url; registry.Version := registry.APIVersion1 |}.

Definition v2At (url : string) : registry.APIEndpoint :=
  {| registry.URL := url; registry.Version := registry.APIVersion2 |}.

Definition unqualified (name : string) : reference.Named :=
  {| reference.Name := name; reference.Tag := None; reference.Digest := None |}.

Definition tagged (name tag : string) : reference.Named :=
  {| reference.Name := name; reference.Tag := Some tag; reference.Digest := None |}.

Definition digested (name dgst : string) : reference.Named :=
  {| reference.Name := name; reference.Tag := None; reference.Digest := Some dgst |}.

(** A registry that answers every request. *)
Definition healthy : Scenario :=
  {| sc_registries := ["docker.io"%string];
     sc_endpoints := [v2At "https://registry-1.docker.io"];
     sc_mirrors := [];
     sc_repoEndpoints := ["https://registry-1.docker.io/v1/"%string];
     sc_tls := None;
     sc_v2repo := fun _ => None;
     sc_v1tags := inr (<["1.0"%string := "id10"%string]> (<["latest"%string := "id77"%string]> ∅));
     sc_v2tags := inr ["1.0"%string; "latest"%string; "2.0"%string];
     sc_imageJSON := fun _ => inr "{}"%string |}.

(** A v2 endpoint that is down and a v1 endpoint whose TLS configuration
    fails, in this order. *)
Definition twoDown : Scenario :=
  {| sc_registries := ["docker.io"%string];
     sc_endpoints := [v2At "https://registry-1.docker.io"; v1At "https://index.docker.io"];
     sc_mirrors := [];
     sc_repoEndpoints := ["https://registry-1.docker.io/v1/"%string];
     sc_tls := Some (errorString "x509: certificate signed by unknown authority");
     sc_v2repo := fun _ => Some (errorString "connection refused");
     sc_v1tags := inr ∅;
     sc_v2tags := inr [];
     sc_imageJSON := fun _ => inr "{}"%string |}.

(** A repository without tags. *)
Definition emptyRepo : Scenario :=
  {| sc_registries := ["docker.io"%string];
     sc_endpoints := [v1At "https://index.docker.io"];
     sc_mirrors := [];
     sc_repoEndpoints := ["https://registry-1.docker.io/v1/"%string];
     sc_tls := None;
     sc_v2repo := fun _ => None;
     sc_v1tags := inr ∅;
     sc_v2tags := inr [];
     sc_imageJSON := fun _ => inr "{}"%string |}.

(** A v2 repository whose first tag is the empty string. *)
Definition blankTag : Scenario :=
  {| sc_registries := ["docker.io"%string];
     sc_endpoints := [v2At "https://registry-1.docker.io"];
     sc_mirrors := [];
     sc_repoEndpoints := [];
     sc_tls := None;
     sc_v2repo := fun _ => None;
     sc_v1tags := inr ∅;
     sc_v2tags := inr [""%string; "1.0"%string];
     sc_imageJSON := fun _ => inr "{}"%string |}.

(** Two registries, the first one down. *)
Definition twoRegistries : Scenario :=
  {| sc_registries := ["down.io"%string; "docker.io"%string];
     sc_endpoints := [v2At "https://registry-1.docker.io"];
     sc_mirrors := [];
     sc_repoEndpoints := [];
     sc_tls := None;
     sc_v2repo := fun _ => None;
     sc_v1tags := inr ∅;
     sc_v2tags := inr ["1.0"%string; "latest"%string; "2.0"%string];
     sc_imageJSON := fun _ => inr "{}"%string |}.

Definition x : string := "docker.io/library/x".

(** The loop of [fetchManifest] over the two endpoints of [twoDown], for a
    reference with a digest. *)
Definition twoDownManifests
    : Res (Ctl ErrAcc (Result types.RemoteImageInspect)) * State (demo twoDown) :=
  forRange (sc_endpoints twoDown)
    (fetchManifest_body (digested x "sha256:1f") (noConfig twoDown) (repoOf twoDown x))
    initialAcc (start twoDown).

Definition refused : ErrAcc :=
  {| lastErr := Some (errorString "connection refused"); discardNoSupportErrors := true |}.

(** The tag listing of [x] in a scenario. *)
Definition tagListing (sc : Scenario)
    : Res (Result types.RepositoryTagList) * State (demo sc) :=
  getRemoteTagList (unqualified x) (noConfig sc) (start sc).

Definition noSupport : error :=
  ErrNoSupport (errorString "Cannot pull by digest with v1 registry").

Definition tlsError : error :=
  errorString "x509: certificate signed by unknown authority".

(** ** Outcomes *)

Section Outcomes.

Context {X : Externals}.

(** [yields Q m]: whatever [m] returns satisfies [Q]. *)
Definition yields {A : Type} (Q : A -> Prop) (m : M X A) : Prop :=
  forall s a s', m s = (Done a, s') -> Q a.

(** The error an endpoint loop observed at an endpoint, if any. *)
Definition attemptError {V : Type} (o : Attempt V) : option error :=
  match o with
  | inl err => Some err
  | inr (_, _, err) => err
  end.

(** The errors an endpoint loop observed, in order. *)
Definition errorsObserved {V : Type} (os : list (registry.APIEndpoint * Attempt V))
    : list error :=
  omap (fun eo => attemptError (snd eo)) os.

(** The error of [newManifestFetcher] and of [newTagLister] for an endpoint
    whose version they do not know. *)
Definition unknownVersion (endpoint : registry.APIEndpoint) : error :=
  errorString ("unknown version " +:+ itoa (registry.Version endpoint)
               +:+ " for registry " +:+ registry.URL endpoint).

(** The error [fetchWithSession] and [listTagsWithSession] return for the
    error [err] of [GetRepositoryData]. *)
Definition repositoryError (repoInfo : registry.RepositoryInfo) (err : error) : error :=
  if strings_Contains (Error (X:=X) err) "HTTP code: 404" then
    errorString ("Error: image " +:+ registry.RemoteName repoInfo +:+ " not found")
  else err.

(** A result carries a value or an error, and not both. *)
Definition valueOrError {A : Type} (res : Result A) : Prop :=
  (exists a, res = (Some a, None)) \/ (exists err, res = (None, Some err)).

(** The calls to a v1 session that the trace shows. *)
Definition sessionCall (e : Event) : bool :=
  match e with
  | Call_GetRepositoryData _ _ | Call_GetRemoteTags _ _ _
  | Call_GetRemoteImageJSON _ _ _ => true
  | _ => false
  end.

(** The calls to a registry that the trace shows: everything but the
    resolution of the name, the lookup of the endpoints and the log. *)
Definition registryCall (e : Event) : bool :=
  match e with
  | Call_ResolveRepository _ _ | Call_LookupPullEndpoints _ _ | Logged _ => false
  | _ => true
  end.

End Outcomes.

Section FetcherStates.

Context {X : Externals}.

(** Lines 100 to 161 of [fetchWithRepository] on the manifest and the error
    that one of its three cases left, [tag] and [tagOrDigest] being what the
    case left in these variables. *)
Definition manifestResult (repoInfo : registry.RepositoryInfo) (ref : reference.Named)
    (tag tagOrDigest : string) (r : option (SignedManifest X) * option error)
    : Result types.RemoteImageInspect :=
  match r with
  | (_, Some err) => (None, Some err)
  | (None, None) =>
      (None, Some (errorString
         ("image manifest does not exist for tag or digest " +:+ Quote X tagOrDigest)))
  | (Some unverifiedManifest, None) =>
      match manifestToImage X unverifiedManifest ref repoInfo with
      | inl err => (None, Some err)
      | inr (img, dgst) =>
          (Some (makeRemoteImageInspect (X:=X) repoInfo img tag dgst), None)
      end
  end.

(** The state of a v1 fetcher or lister once it has its session: the TLS
    configuration, the v1 endpoint and the session were obtained. *)
Definition atSession (repoInfo : registry.RepositoryInfo) (endpoint : registry.APIEndpoint)
    (w : World X) (s : State X) : State X :=
  {| world := w;
     trace := trace s ++ [Call_TLSConfig (registry.Name (registry.Index repoInfo)) None;
                          Call_ToV1Endpoint endpoint None;
                          Call_NewSession None] |}.

(** The state after the events [evs] that left the world [w]. *)
Definition after (s : State X) (evs : list Event) (w : World X) : State X :=
  {| world := w; trace := trace s ++ evs |}.

(** [errcode.Errors] with one element stands for this element, lines 204 to
    209 of [listTagsWithRepository]. *)
Definition singleError (err : error) : error :=
  match err with
  | errcode_Errors [t0] => t0
  | _ => err
  end.

(** The element of the list of tags made of an entry of the map of tags. *)
Definition tagOfEntry (p : string * string) : types.RepositoryTag :=
  {| types.Tag := fst p; types.ImageID := snd p |}.

End FetcherStates.

Section Downloads.

(** The event is not a request for an image or for a manifest. *)
Definition noDownload (e : Event) : Prop :=
  match e with
  | Call_GetRemoteImageJSON _ _ _ | Call_Exists _ _ | Call_Get _ _
  | Call_ExistsByTag _ _ | Call_GetByTag _ _ => False
  | _ => True
  end.

End Downloads.

(** ** Package [machine] *)

Module machine.

(** Package [systemd], and the method [Error] of its errors. *)
Record Systemd : Type := {
  Host : Type;
  RegisterMachine : string -> string -> Z -> string -> Host -> option error * Host;
  TerminateMachine : string -> Host -> option error * Host;
  systemd_Error : error -> string
}.

Section Machine.

Context (sd : Systemd).

Local Open Scope string_scope.

(** [err.Error()] *)
Definition Error (err : error) : string :=
  match err with
  | errorString msg => msg
  | _ => systemd_Error sd err
  end.

(** [Register] registers the machine with systemd; it returns the error and
    the lines written with [logrus.Errorf]. *)
Definition Register (name id : string) (pid : Z) (root_directory : string)
    (h : Host sd) : (option error * list string) * Host sd :=
  let (err, h) := RegisterMachine sd name id pid root_directory h in
  match err with
  | Some e =>
      if strings_Contains (Error e) "Failed to determine unit of process" then
        ((None, []), h)
      else
        ((Some e, ["Unable to RegisterMachine " +:+ name +:+ " for " +:+ id +:+ ": "
                   +:+ Error e]), h)
  | None => ((None, []), h)
  end.

Definition Terminate (name : string) (h : Host sd) : Host sd :=
  snd (TerminateMachine sd name h).

End Machine.

End machine.

(** A host on which every registration loses the race with the exit of the
    container. *)
Definition racyHost : machine.Systemd :=
  {| machine.Host := unit;
     machine.RegisterMachine := fun _ _ _ _ h =>
       (Some (errorString "Failed to determine unit of process 42 (No such process)"), h);
     machine.TerminateMachine := fun _ h => (None, h);
     machine.systemd_Error := fun _ => ""%string |}.

Section Records.

Context {X : Externals}.

(** The record was built by [makeRemoteImageInspect] for the repository
    [repoInfo]: without a tag when the reference has a digest, with the tag
    of the reference when it has one, not empty, and no digest. *)
Definition builtFor (repoInfo : registry.RepositoryInfo) (ref : reference.Named)
    (r : types.RemoteImageInspect) : Prop :=
  exists img tag dgst,
    r = makeRemoteImageInspect (X:=X) repoInfo img tag dgst /\
    (is_Some (reference.Digest ref) -> tag = ""%string) /\
    (reference.Digest ref = None -> forall t, reference.Tag ref = Some t ->
       t <> ""%string -> tag = t).

End Records.

(** ** More collaborators to run the code on *)

(** The collaborators [X] with another [GetRepositoryData]. *)
Definition withRepositoryData (X : Externals)
    (f : Session X -> string -> World X -> (error + registry.RepositoryData) * World X)
    : Externals :=
  {| World := World X;
     TLSConfigT := TLSConfigT X;
     V1Endpoint := V1Endpoint X;
     Session := Session X;
     Repository := Repository X;
     ManifestService := ManifestService X;
     SignedManifest := SignedManifest X;
     AuthConfig := AuthConfig X;
     History := History X;
     RootFS := RootFS X;
     RawConfig := RawConfig X;
     ResolveRepository := ResolveRepository X;
     LookupPullEndpoints := LookupPullEndpoints X;
     TLSConfig := TLSConfig X;
     ToV1Endpoint := ToV1Endpoint X;
     NewSession := NewSession X;
     GetRepositoryData := f;
     GetRemoteTags := GetRemoteTags X;
     GetRemoteImageJSON := GetRemoteImageJSON X;
     IsReferenceFullyQualified := IsReferenceFullyQualified X;
     FullyQualifyReferenceWith := FullyQualifyReferenceWith X;
     ValidateRepositoryName := ValidateRepositoryName X;
     RegistryList := RegistryList X;
     ContinueOnError := ContinueOnError X;
     NewV2Repository := NewV2Repository X;
     Manifests := Manifests X;
     Exists := Exists X;
     Get := Get X;
     ExistsByTag := ExistsByTag X;
     GetByTag := GetByTag X;
     Tags := Tags X;
     validateRepoName := validateRepoName X;
     manifestToImage := manifestToImage X;
     HistoryFromConfig := HistoryFromConfig X;
     MakeRawConfigFromV1Config := MakeRawConfigFromV1Config X;
     NewRootFS := NewRootFS X;
     json_Marshal := json_Marshal X;
     NewFromJSON := NewFromJSON X;
     WithTag := WithTag X;
     Digest_Validate := Digest_Validate X;
     foreign_Error := foreign_Error X;
     Quote := Quote X;
     mapRange := mapRange X;
     sort_Sort := sort_Sort X |}.

(** A v1 registry that does not know the repository. *)
Definition gone : Externals :=
  withRepositoryData (demo healthy)
    (fun _ _ w => (inl (errorString "Unexpected status (HTTP code: 404)"), w)).

(** An endpoint of a version that is neither 1 nor 2. *)
Definition unknownAt (url : string) : registry.APIEndpoint :=
  {| registry.URL := url; registry.Version := 3 |}.

(** No registry is configured. *)
Definition noRegistries : Scenario :=
  {| sc_registries := [];
     sc_endpoints := [];
     sc_mirrors := [];
     sc_repoEndpoints := [];
     sc_tls := None;
     sc_v2repo := fun _ => None;
     sc_v1tags := inr ∅;
     sc_v2tags := inr [];
     sc_imageJSON := fun _ => inr "{}"%string |}.

(** The inspection of a reference in a scenario. *)
Definition inspection (sc : Scenario) (ref : reference.Named)
    : Res (Result types.RemoteImageInspect) * State (demo sc) :=
  fetchManifest ref (noConfig sc) (start sc).

(** ** Basic facts on executions *)

Section Facts.

Context {X : Externals}.

Lemma bind_Done {A B : Type} (m : M X A) (k : A -> M X B) s a s1 :
  m s = (Done a, s1) -> bind m k s = k a s1.
Proof. intros H. unfold bind. now rewrite H. Qed.

Lemma bind_Panic {A B : Type} (m : M X A) (k : A -> M X B) s s1 :
  m s = (Panic, s1) -> bind m k s = (Panic, s1).
Proof. intros H. unfold bind. now rewrite H. Qed.

Lemma bind_inv {A B : Type} (m : M X A) (k : A -> M X B) s b s' :
  bind m k s = (Done b, s') ->
  exists a s1, m s = (Done a, s1) /\ k a s1 = (Done b, s').
Proof.
  unfold bind. destruct (m s) as [[a|] s1]; [eauto | discriminate].
Qed.

Lemma forRange_cons {A S R : Type} (x : A) xs (body : A -> S -> M X (Ctl S R)) st s :
  forRange (x :: xs) body st s =
  match body x st s with
  | (Done (Continue st'), s1) => forRange xs body st' s1
  | (Done (Break r), s1) => (Done (Break r), s1)
  | (Panic, s1) => (Panic, s1)
  end.
Proof.
  cbn [forRange]. unfold bind.
  destruct (body x st s) as [[[st'|r]|] s1]; reflexivity.
Qed.

Lemma forRange_app {A S R : Type} (xs ys : list A) (body : A -> S -> M X (Ctl S R))
    st s st1 s1 :
  forRange xs body st s = (Done (Continue st1), s1) ->
  forRange (xs ++ ys) body st s = forRange ys body st1 s1.
Proof.
  revert st s. induction xs as [|x xs IH]; intros st s H.
  - cbn in H. unfold ret in H. now inversion H.
  - rewrite <- app_comm_cons, forRange_cons. rewrite forRange_cons in H.
    destruct (body x st s) as [[[st'|r]|] s2]; try discriminate.
    now apply IH.
Qed.

Lemma observes_app {A O : Type} (try : A -> M X O) xs ys s os s1 os' s' :
  observes try xs s os s1 -> observes try ys s1 os' s' ->
  observes try (xs ++ ys) s (os ++ os') s'.
Proof.
  induction 1 as [|x xs s o s2 os s1 Hx Hxs IH]; intros Hys; [exact Hys|].
  cbn. econstructor; eauto.
Qed.

Lemma observes_fst {A O : Type} (try : A -> M X O) xs s os s' :
  observes try xs s os s' -> map fst os = xs.
Proof. induction 1; cbn; congruence. Qed.

Lemma runtime_run {R : Type} (f : World X -> R * World X) (s : State X) :
  runtime f s = (Done (fst (f (world s))),
                 {| world := snd (f (world s)); trace := trace s |}).
Proof. unfold runtime. now destruct (f (world s)). Qed.

Lemma call_run {R : Type} (f : World X -> R * World X) ev (s : State X) :
  call f ev s = (Done (fst (f (world s))),
                 {| world := snd (f (world s)); trace := trace s ++ [ev (fst (f (world s)))] |}).
Proof. unfold call. now destruct (f (world s)). Qed.

Lemma bind_assoc {A B C : Type} (m : M X A) (k0 : A -> M X B) (k : B -> M X C) s :
  bind (bind m k0) k s = bind m (fun x => bind (k0 x) k) s.
Proof. unfold bind. now destruct (m s) as [[a|] s1]. Qed.

End Facts.

(** ** The endpoint loops *)

Section EndpointLoops.

Context {X : Externals}.

Implicit Types (acc : ErrAcc) (s : State X) (err : error).

Lemma fetchManifest_body_try ref config repoInfo e acc s :
  fetchManifest_body ref config repoInfo e acc s =
  match tryManifest ref config repoInfo e s with
  | (Done (inl err), s1) =>
      (Done (Continue {| lastErr := Some err;
                         discardNoSupportErrors := discardNoSupportErrors acc |}), s1)
  | (Done (inr (_, true, Some err)), s1) => (Done (Continue (saveError acc err)), s1)
  | (Done (inr (_, false, Some err)), s1) =>
      (Done (Break (None, Some err)), logged s1 (NotContinuing err))
  | (Done (inr (img, _, None)), s1) => (Done (Break (img, None)), s1)
  | (Panic, s1) => (Panic, s1)
  end.
Proof.
  unfold fetchManifest_body, tryManifest, bind, emit, ret.
  destruct (newManifestFetcher e repoInfo config) as [err|f]; [reflexivity|].
  destruct (Fetch f ref _) as [[[[img fb] [err|]]|] s1]; try reflexivity;
    destruct fb; reflexivity.
Qed.

Lemma getRemoteTagList_body_try config repoInfo e acc s :
  getRemoteTagList_body config repoInfo e acc s =
  match tryTagList config repoInfo e s with
  | (Done (inl err), s1) =>
      (Done (Continue {| lastErr := Some err;
                         discardNoSupportErrors := discardNoSupportErrors acc |}), s1)
  | (Done (inr (_, fallback, Some err)), s1) =>
      if fallback || (registry.Version e =? registry.APIVersion1)%Z
      then (Done (Continue (saveError acc err)), s1)
      else (Done (Break (None, Some err)), logged s1 (NotContinuing err))
  | (Done (inr (tags, _, None)), s1) =>
      (Done (Break (Some {| types.Name := registry.CanonicalName repoInfo;
                            types.TagList := sort_Sort X _ byTagName_Less tags |},
                    None)), s1)
  | (Panic, s1) => (Panic, s1)
  end.
Proof.
  unfold getRemoteTagList_body, tryTagList, bind, emit, ret.
  destruct (newTagLister e repoInfo config) as [err|f]; [reflexivity|].
  destruct (ListTags f _) as [[[[tags fb] [err|]]|] s1]; try reflexivity.
  destruct (fb || _); reflexivity.
Qed.

(** The flag after an iteration that went on. *)
Lemma discard_accAfter {V : Type} acc (o : Attempt V) :
  discardNoSupportErrors (accAfter acc o) = discardNoSupportErrors acc || realError o.
Proof.
  destruct o as [err|[[v fb] [err|]]]; cbn; rewrite ?orb_false_r; try reflexivity.
  unfold saveError.
  destruct (isNoSupport err), (discardNoSupportErrors acc) eqn:Hd; cbn;
    rewrite ?Hd; reflexivity.
Qed.

Lemma discard_foldl {V : Type} acc (os : list (Attempt V)) :
  discardNoSupportErrors (foldl accAfter acc os)
  = discardNoSupportErrors acc || existsb realError os.
Proof.
  revert acc. induction os as [|o os IH]; intros acc; cbn.
  - now rewrite orb_false_r.
  - rewrite IH, discard_accAfter. now rewrite orb_assoc.
Qed.

(** The three cases of [saveError]. *)
Lemma saveError_real acc err :
  isNoSupport err = false ->
  saveError acc err = {| lastErr := Some err; discardNoSupportErrors := true |}.
Proof. intros H. unfold saveError. now rewrite H. Qed.

Lemma saveError_first acc err :
  isNoSupport err = true -> discardNoSupportErrors acc = false ->
  saveError acc err = {| lastErr := Some err; discardNoSupportErrors := false |}.
Proof. intros H1 H2. unfold saveError. now rewrite H1, H2. Qed.

Lemma saveError_discarded acc err :
  isNoSupport err = true -> discardNoSupportErrors acc = true ->
  saveError acc err = acc.
Proof. intros H1 H2. unfold saveError. now rewrite H1, H2. Qed.

Lemma lastErr_saveError acc err :
  lastErr (saveError acc err)
  = if isNoSupport err && discardNoSupportErrors acc then lastErr acc else Some err.
Proof.
  unfold saveError.
  destruct (isNoSupport err), (discardNoSupportErrors acc); reflexivity.
Qed.

(** An iteration that went on leaves an error in [lastErr]. *)
Lemma lastErr_accAfter {V : Type} acc (o : Attempt V) :
  (discardNoSupportErrors acc = true -> is_Some (lastErr acc)) ->
  (forall v fb, o <> inr (v, fb, None)) ->
  is_Some (lastErr (accAfter acc o)).
Proof.
  intros Hacc Ho. destruct o as [err|[[v fb] [err|]]]; cbn; [eauto| |now destruct (Ho v fb)].
  rewrite lastErr_saveError.
  destruct (isNoSupport err), (discardNoSupportErrors acc); cbn; eauto.
Qed.

(** A run of the loop of [fetchManifest] that reaches the end of the
    endpoints observed, at each of them, an error of the constructor or an
    error of [Fetch] with [fallback] set, and the variables are the fold of
    [accAfter] over what it observed. *)
Lemma fetchManifest_loop_observes ref config repoInfo xs acc s acc' s' :
  forRange xs (fetchManifest_body ref config repoInfo) acc s = (Done (Continue acc'), s') ->
  exists os,
    observes (tryManifest ref config repoInfo) xs s os s' /\
    Forall (fun eo => match snd eo with
                      | inl _ => True
                      | inr (_, fallback, err) => fallback = true /\ is_Some err
                      end) os /\
    acc' = foldl accAfter acc (map snd os).
Proof.
  revert acc s. induction xs as [|e xs IH]; intros acc s H.
  - cbn in H. unfold ret in H. inversion H; subst.
    exists []. repeat split; constructor.
  - rewrite forRange_cons, fetchManifest_body_try in H.
    destruct (tryManifest ref config repoInfo e s) as [[o|] s1] eqn:Htry; [|discriminate].
    destruct o as [err|[[img fb] [err|]]].
    + destruct (IH _ _ H) as (os & Hos & Hall & ->).
      exists ((e, inl err) :: os). repeat split; [econstructor; eauto|constructor; cbn; auto].
    + destruct fb; [|discriminate].
      destruct (IH _ _ H) as (os & Hos & Hall & ->).
      exists ((e, inr (img, true, Some err)) :: os).
      repeat split; [econstructor; eauto|constructor; cbn; eauto].
    + destruct fb; discriminate.
Qed.

Lemma getRemoteTagList_loop_observes config repoInfo xs acc s acc' s' :
  forRange xs (getRemoteTagList_body config repoInfo) acc s = (Done (Continue acc'), s') ->
  exists os,
    observes (tryTagList config repoInfo) xs s os s' /\
    Forall (fun eo => match snd eo with
                      | inl _ => True
                      | inr (_, fallback, err) =>
                          (fallback = true \/ registry.Version (fst eo) = registry.APIVersion1)
                          /\ is_Some err
                      end) os /\
    acc' = foldl accAfter acc (map snd os).
Proof.
  revert acc s. induction xs as [|e xs IH]; intros acc s H.
  - cbn in H. unfold ret in H. inversion H; subst.
    exists []. repeat split; constructor.
  - rewrite forRange_cons, getRemoteTagList_body_try in H.
    destruct (tryTagList config repoInfo e s) as [[o|] s1] eqn:Htry; [|discriminate].
    destruct o as [err|[[tags fb] [err|]]].
    + destruct (IH _ _ H) as (os & Hos & Hall & ->).
      exists ((e, inl err) :: os). repeat split; [econstructor; eauto|constructor; cbn; auto].
    + destruct (fb || _) eqn:Hgate; [|discriminate].
      destruct (IH _ _ H) as (os & Hos & Hall & ->).
      exists ((e, inr (tags, fb, Some err)) :: os).
      repeat split; [econstructor; eauto|constructor; cbn; eauto].
      split; [|eauto].
      apply orb_true_iff in Hgate as [->|Hv]; [now left|right; now apply Z.eqb_eq].
    + destruct fb; discriminate.
Qed.

End EndpointLoops.

Section EndpointLoopResults.

Context {X : Externals}.

Implicit Types (acc : ErrAcc) (s : State X) (err : error).

(** After the first iteration that went on, [lastErr] holds an error. *)
Lemma lastErr_foldl {V : Type} acc (os : list (Attempt V)) :
  Forall (fun o => forall v fb, o <> inr (v, fb, None)) os ->
  (discardNoSupportErrors acc = true -> is_Some (lastErr acc)) ->
  os <> [] \/ is_Some (lastErr acc) ->
  is_Some (lastErr (foldl accAfter acc os)).
Proof.
  revert acc. induction os as [|o os IH]; intros acc Hall Hacc Hne; cbn.
  - destruct Hne as [Hne|Hs]; [now destruct Hne | exact Hs].
  - inversion Hall as [|? ? Ho Hos]; subst.
    assert (Hl : is_Some (lastErr (accAfter acc o))) by now apply lastErr_accAfter.
    apply IH; auto.
Qed.

(** [fetchManifest] from the state in which its endpoint loop starts. *)
Lemma fetchManifest_at_endpoints ref config repoInfo endpoints w1 w s :
  ResolveRepository X ref (world s) = (inr repoInfo, w1) ->
  validateRepoName X (registry.LocalName repoInfo) = None ->
  LookupPullEndpoints X (registry.CanonicalName repoInfo) w1 = (inr endpoints, w) ->
  fetchManifest ref config s =
  match forRange endpoints (fetchManifest_body ref config repoInfo) initialAcc
          (atEndpoints ref repoInfo endpoints w s) with
  | (Done (Break result), s') => (Done result, s')
  | (Done (Continue acc), s') => (Done (None, Some (lastErrOr repoInfo acc)), s')
  | (Panic, s') => (Panic, s')
  end.
Proof.
  intros H1 H2 H3. unfold fetchManifest, bind, call, ret, atEndpoints.
  rewrite H1, H2. cbn. rewrite H3. rewrite <- app_assoc.
  destruct (forRange _ _ _ _) as [[[acc|r]|] s']; reflexivity.
Qed.

(** [getRemoteTagList] from the state in which its endpoint loop starts. *)
Lemma getRemoteTagList_at_endpoints ref config repoInfo endpoints w1 w s :
  ResolveRepository X ref (world s) = (inr repoInfo, w1) ->
  validateRepoName X (registry.LocalName repoInfo) = None ->
  LookupPullEndpoints X (registry.CanonicalName repoInfo) w1 = (inr endpoints, w) ->
  getRemoteTagList ref config s =
  match forRange (sort_Sort X _ byAPIVersion_Less endpoints)
          (getRemoteTagList_body config repoInfo) initialAcc
          (atEndpoints ref repoInfo endpoints w s) with
  | (Done (Break result), s') => (Done result, s')
  | (Done (Continue acc), s') => (Done (None, Some (lastErrOr repoInfo acc)), s')
  | (Panic, s') => (Panic, s')
  end.
Proof.
  intros H1 H2 H3. unfold getRemoteTagList, bind, call, ret, atEndpoints.
  rewrite H1, H2. cbn. rewrite H3. rewrite <- app_assoc.
  destruct (forRange _ _ _ _) as [[[acc|r]|] s']; reflexivity.
Qed.

(** The variables of an endpoint loop that reached the end of a list that is
    not empty hold an error. *)
Lemma exhausted_lastErr {V : Type} (os : list (registry.APIEndpoint * Attempt V)) P :
  Forall (fun eo => match snd eo with
                    | inl _ => True
                    | inr (_, fallback, err) => P eo fallback /\ is_Some err
                    end) os ->
  os <> [] ->
  is_Some (lastErr (foldl accAfter initialAcc (map snd os))).
Proof.
  intros Hall Hne. apply lastErr_foldl.
  - apply Forall_fmap. eapply Forall_impl; [exact Hall|].
    intros [e o]; cbn. destruct o as [err|[[v fb] [err|]]]; intros H v' fb'; try discriminate.
    destruct H as [_ [x Hx]]. discriminate.
  - cbn. discriminate.
  - left. destruct os; [now destruct Hne | discriminate].
Qed.

End EndpointLoopResults.

(** ** What the functions emit *)

Create HintDb emits.

Section Emits.
Context {X : Externals}.

Lemma emits_ret P {A : Type} (a : A) : emits P (ret (X:=X) a).
Proof.
  intros s r s' H. unfold ret in H. inversion H; subst.
  exists []. split; [now rewrite app_nil_r | constructor].
Qed.

Lemma emits_panic P {A : Type} : emits P (panic (X:=X) (A:=A)).
Proof.
  intros s r s' H. unfold panic in H. inversion H; subst.
  exists []. split; [now rewrite app_nil_r | constructor].
Qed.

Lemma emits_emit (P : Event -> Prop) e : P e -> emits P (emit (X:=X) e).
Proof.
  intros He s r s' H. unfold emit in H. inversion H; subst.
  exists [e]. split; [reflexivity | now constructor].
Qed.

Lemma emits_call (P : Event -> Prop) {R : Type} (f : World X -> R * World X) ev :
  (forall r, P (ev r)) -> emits P (call f ev).
Proof.
  intros He s r s' H. unfold call in H. destruct (f (world s)) as [r0 w].
  inversion H; subst. exists [ev r0]. split; [reflexivity | now constructor].
Qed.

Lemma emits_runtime P {R : Type} (f : World X -> R * World X) : emits P (runtime f).
Proof.
  intros s r s' H. unfold runtime in H. destruct (f (world s)) as [r0 w].
  inversion H; subst. exists []. split; [now rewrite app_nil_r | constructor].
Qed.

Lemma emits_bind P {A B : Type} (m : M X A) (k : A -> M X B) :
  emits P m -> (forall a, emits P (k a)) -> emits P (bind m k).
Proof.
  intros Hm Hk s r s' H. unfold bind in H.
  destruct (m s) as [[a|] s1] eqn:Em.
  - destruct (Hm _ _ _ Em) as (evs1 & E1 & F1).
    destruct (Hk a _ _ _ H) as (evs2 & E2 & F2).
    exists (evs1 ++ evs2). split; [now rewrite E2, E1, app_assoc | now apply Forall_app].
  - inversion H; subst. eauto.
Qed.

Lemma emits_forRange P {A S R : Type} (xs : list A) (body : A -> S -> M X (Ctl S R)) st :
  (forall x st, emits P (body x st)) -> emits P (forRange xs body st).
Proof.
  intros Hb. revert st. induction xs as [|x xs IH]; intros st; cbn [forRange].
  - apply emits_ret.
  - apply emits_bind; [apply Hb|]. intros [st'|r]; [apply IH | apply emits_ret].
Qed.

Lemma emits_impl (P Q : Event -> Prop) {A : Type} (m : M X A) :
  (forall e, P e -> Q e) -> emits P m -> emits Q m.
Proof.
  intros HPQ Hm s r s' H. destruct (Hm _ _ _ H) as (evs & E & F).
  exists evs. split; [exact E | eapply Forall_impl; eauto].
Qed.

Ltac emits_step :=
  first
    [ solve [auto with emits]
    | apply emits_ret
    | apply emits_panic
    | apply emits_runtime
    | apply emits_emit; exact I
    | apply emits_call; intros; exact I
    | apply emits_bind; [|intros]
    | apply emits_forRange; intros
    | match goal with
      | |- emits _ (match ?x with _ => _ end) => destruct x
      | |- emits _ (let (_, _) := ?x in _) => destruct x
      end
    | progress cbv zeta ].

Ltac emits_tac := repeat emits_step.

Lemma emits_pullImageJSON session imgID ep token :
  emits inner (pullImageJSON (X:=X) session imgID ep token).
Proof. unfold pullImageJSON. emits_tac. Qed.
#[local] Hint Resolve emits_pullImageJSON : emits.

Lemma emits_pullImage session repoInfo repoData img askedTag :
  emits inner (pullImage (X:=X) session repoInfo repoData img askedTag).
Proof. unfold pullImage, pullFromMirrors, pullFromEndpoints. emits_tac. Qed.
#[local] Hint Resolve emits_pullImage : emits.

Lemma emits_fetchWithSession session repoInfo askedTag :
  emits inner (fetchWithSession (X:=X) session repoInfo askedTag).
Proof. unfold fetchWithSession, chooseTag. emits_tac. Qed.
#[local] Hint Resolve emits_fetchWithSession : emits.

Lemma emits_fetchWithRepository repo repoInfo ref :
  emits inner (fetchWithRepository (X:=X) repo repoInfo ref).
Proof. unfold fetchWithRepository, fetchByDigest, fetchByTag. emits_tac. Qed.
#[local] Hint Resolve emits_fetchWithRepository : emits.

Lemma emits_Fetch f ref : emits inner (Fetch (X:=X) f ref).
Proof.
  destruct f; unfold Fetch, v2ManifestFetcher_Fetch, v1ManifestFetcher_Fetch; emits_tac.
Qed.
#[local] Hint Resolve emits_Fetch : emits.

Lemma emits_ListTags l : emits inner (ListTags (X:=X) l).
Proof.
  destruct l;
    unfold ListTags, v2TagLister_ListTags, v1TagLister_ListTags, listTagsWithRepository,
      listTagsWithSession; emits_tac.
Qed.
#[local] Hint Resolve emits_ListTags : emits.

Lemma inner_notResolve e : inner e -> notResolve e.
Proof. now destruct e. Qed.

Lemma inner_notTryingTagList e : inner e -> notTryingTagList e.
Proof. destruct e as [| | | | | | | | | | | | | | |l]; try easy. now destruct l. Qed.

Lemma emits_Fetch_notResolve f ref : emits notResolve (Fetch (X:=X) f ref).
Proof. eapply emits_impl; [apply inner_notResolve | apply emits_Fetch]. Qed.
#[local] Hint Resolve emits_Fetch_notResolve : emits.

Lemma emits_ListTags_notResolve l : emits notResolve (ListTags (X:=X) l).
Proof. eapply emits_impl; [apply inner_notResolve | apply emits_ListTags]. Qed.
#[local] Hint Resolve emits_ListTags_notResolve : emits.

Lemma emits_ListTags_notTrying l : emits notTryingTagList (ListTags (X:=X) l).
Proof. eapply emits_impl; [apply inner_notTryingTagList | apply emits_ListTags]. Qed.
#[local] Hint Resolve emits_ListTags_notTrying : emits.

(** What a computation that starts with a call adds to the trace. *)
Lemma emits_after_call P {R B : Type} (f : World X -> R * World X) ev (k : R -> M X B) :
  (forall r, emits P (k r)) ->
  forall s r s', bind (call f ev) k s = (r, s') ->
    exists evs, trace s' = trace s ++ ev (fst (f (world s))) :: evs /\ Forall P evs.
Proof.
  intros Hk s r s' H. unfold bind, call in H.
  destruct (f (world s)) as [r0 w]. cbn.
  destruct (Hk r0 _ _ _ H) as (evs & E & F).
  exists evs. split; [|exact F]. rewrite E. cbn. now rewrite <- app_assoc.
Qed.

Lemma resolved_notResolve evs : Forall notResolve evs -> resolved evs = [].
Proof.
  induction 1 as [|e evs He _ IH]; [reflexivity|].
  unfold resolved in *. cbn. rewrite IH. now destruct e.
Qed.

Lemma resolved_app evs1 evs2 : resolved (evs1 ++ evs2) = resolved evs1 ++ resolved evs2.
Proof. apply omap_app. Qed.

Lemma resolved_cons ref r evs :
  resolved (Call_ResolveRepository ref r :: evs) = ref :: resolved evs.
Proof. reflexivity. Qed.

(** [fetchManifest] resolves the reference it is given, and no other. *)
Lemma fetchManifest_resolves ref config (s : State X) r s' :
  fetchManifest ref config s = (r, s') ->
  exists evs, trace s' = trace s ++ evs /\ resolved evs = [ref].
Proof.
  intros H. unfold fetchManifest in H.
  apply (emits_after_call notResolve) in H.
  - destruct H as (evs & E & F). eexists. split; [exact E|].
    now rewrite resolved_cons, (resolved_notResolve _ F).
  - intros r0. unfold fetchManifest_body. emits_tac.
Qed.

(** [getRemoteTagList] resolves the reference it is given, and no other. *)
Lemma getRemoteTagList_resolves ref config (s : State X) r s' :
  getRemoteTagList ref config s = (r, s') ->
  exists evs, trace s' = trace s ++ evs /\ resolved evs = [ref].
Proof.
  intros H. unfold getRemoteTagList in H.
  apply (emits_after_call notResolve) in H.
  - destruct H as (evs & E & F). eexists. split; [exact E|].
    now rewrite resolved_cons, (resolved_notResolve _ F).
  - intros r0. unfold getRemoteTagList_body. emits_tac.
Qed.

(** An iteration of the loop of [getRemoteTagList] logs the endpoint it
    tries, and this line only once. *)
Lemma getRemoteTagList_body_emits config repoInfo e acc (s : State X) c s' :
  getRemoteTagList_body config repoInfo e acc s = (c, s') ->
  exists evs,
    trace s' = trace s ++ Logged (TryingTagList (registry.CanonicalName repoInfo) e) :: evs /\
    Forall notTryingTagList evs.
Proof.
  unfold getRemoteTagList_body, bind at 1, emit. intros H.
  assert (K : emits notTryingTagList
                (match newTagLister e repoInfo config with
                 | inl err =>
                     ret (Continue {| lastErr := Some err;
                                      discardNoSupportErrors := discardNoSupportErrors acc |})
                 | inr tagLister =>
                     r <- ListTags tagLister ;;
                     match r with
                     | (_, fallback, Some err) =>
                         if fallback || (registry.Version e =? registry.APIVersion1)%Z then
                           ret (Continue (saveError acc err))
                         else emit (Logged (NotContinuing err)) ;;; ret (Break (None, Some err))
                     | (tags, _, None) =>
                         ret (Break (Some {| types.Name := registry.CanonicalName repoInfo;
                                             types.TagList := sort_Sort X _ byTagName_Less tags |},
                                     None))
                     end
                 end : M X (Ctl ErrAcc (Result types.RepositoryTagList)))) by emits_tac.
  destruct (K _ _ _ H) as (evs & E & F). exists evs. split; [|exact F].
  rewrite E. cbn. now rewrite <- app_assoc.
Qed.

(** [pullImageJSON] makes one request and returns an image or an error. *)
Lemma pullImageJSON_run session imgID ep token (s : State X) :
  exists r,
    pullImageJSON session imgID ep token s =
    (Done r,
     {| world := snd (GetRemoteImageJSON X session imgID ep (world s));
        trace := trace s ++ [Call_GetRemoteImageJSON imgID ep
                               (fst (GetRemoteImageJSON X session imgID ep (world s)))] |}) /\
    ((exists err, r = (None, Some err)) \/ (exists img, r = (Some img, None))).
Proof.
  unfold pullImageJSON, bind, call, ret.
  destruct (GetRemoteImageJSON X session imgID ep (world s)) as [[err|json] w]; cbn;
    [eauto 6|].
  destruct (HistoryFromConfig X json false); [eauto 6|].
  destruct (MakeRawConfigFromV1Config X json (NewRootFS X) _); [eauto 6|].
  destruct (json_Marshal X _); [eauto 6|].
  destruct (NewFromJSON X _); eauto 6.
Qed.

(** One attempt to pull the image JSON returns, requests the image once, at
    its address, and returns an image or an error. *)
Lemma pullAttempt_run session repoInfo repoData img a (s : State X) :
  exists r s' evs,
    pullAttempt session repoInfo repoData img a s = (Done r, s') /\
    trace s' = trace s ++ evs /\
    imageRequests evs = [(registry.ID img, snd a)] /\
    ((exists err, r = (None, Some err)) \/ (exists pulled, r = (Some pulled, None))).
Proof.
  unfold pullAttempt, bind.
  destruct (pullImageJSON_run session (registry.ID img) (snd a) (registry.Tokens repoData) s)
    as (r & -> & [[err ->]|[pulled ->]]); cbn; unfold emit, ret; cbn.
  - eexists _, _, _. split; [reflexivity|]. split; [now rewrite <- app_assoc|].
    split; [reflexivity | eauto].
  - eexists _, _, _. split; [reflexivity|]. split; [reflexivity|].
    split; [reflexivity | eauto].
Qed.

End Emits.

(** ** The functions return *)

Create HintDb returns.

Section Returns.
Context {X : Externals}.

Lemma returns_ret {A : Type} (Q : A -> Prop) (a : A) : Q a -> returns Q (ret (X:=X) a).
Proof. intros H s. exists a, s. now split. Qed.

Lemma returns_emit e : returns anything (emit (X:=X) e).
Proof. intros s. unfold emit. eexists _, _. now split. Qed.

Lemma returns_call {R : Type} (f : World X -> R * World X) ev :
  returns anything (call f ev).
Proof. intros s. unfold call. destruct (f (world s)). eexists _, _. now split. Qed.

Lemma returns_runtime {R : Type} (f : World X -> R * World X) (Q : R -> Prop) :
  (forall w, Q (fst (f w))) -> returns Q (runtime f).
Proof.
  intros H s. unfold runtime. specialize (H (world s)).
  destruct (f (world s)). eexists _, _. now split.
Qed.

Lemma returns_bind {A B : Type} (Q : A -> Prop) (R : B -> Prop) (m : M X A) k :
  returns Q m -> (forall a, Q a -> returns R (k a)) -> returns R (bind m k).
Proof.
  intros Hm Hk s. destruct (Hm s) as (a & s1 & E & Ha).
  destruct (Hk a Ha s1) as (b & s' & E' & Hb).
  exists b, s'. split; [|exact Hb]. unfold bind. now rewrite E.
Qed.

Lemma returns_forRange {A S R : Type} (xs : list A) (body : A -> S -> M X (Ctl S R)) st :
  (forall x st, returns anything (body x st)) -> returns anything (forRange xs body st).
Proof.
  intros Hb. revert st. induction xs as [|x xs IH]; intros st; cbn [forRange].
  - now apply returns_ret.
  - eapply returns_bind; [apply Hb|]. intros [st'|r] _; [apply IH | now apply returns_ret].
Qed.

Lemma returns_impl {A : Type} (Q R : A -> Prop) (m : M X A) :
  (forall a, Q a -> R a) -> returns Q m -> returns R m.
Proof.
  intros HQR Hm s. destruct (Hm s) as (a & s' & E & Ha). eauto.
Qed.

Lemma returns_bind_any {A B : Type} (R : B -> Prop) (m : M X A) k :
  returns anything m -> (forall a, returns R (k a)) -> returns R (bind m k).
Proof. intros Hm Hk. eapply returns_bind; [exact Hm|]. intros a _. apply Hk. Qed.

Ltac returns_step :=
  first
    [ solve [auto with returns]
    | apply returns_ret; exact I
    | apply returns_emit
    | apply returns_call
    | apply returns_runtime; intros; exact I
    | apply returns_bind_any; [|intros]
    | apply returns_forRange; intros
    | match goal with
      | |- returns _ (match ?x with _ => _ end) => destruct x
      | |- returns _ (let (_, _) := ?x in _) => destruct x
      end
    | progress cbv zeta ].

Ltac returns_tac := repeat returns_step.

Lemma returns_pullImageJSON session imgID ep token :
  returns anything (pullImageJSON (X:=X) session imgID ep token).
Proof. unfold pullImageJSON. returns_tac. Qed.
#[local] Hint Resolve returns_pullImageJSON : returns.

Lemma returns_pullImage session repoInfo repoData img askedTag :
  returns anything (pullImage (X:=X) session repoInfo repoData img askedTag).
Proof. unfold pullImage, pullFromMirrors, pullFromEndpoints. returns_tac. Qed.
#[local] Hint Resolve returns_pullImage : returns.

Lemma returns_fetchWithRepository repo repoInfo ref :
  returns anything (fetchWithRepository (X:=X) repo repoInfo ref).
Proof. unfold fetchWithRepository, fetchByDigest, fetchByTag. returns_tac. Qed.
#[local] Hint Resolve returns_fetchWithRepository : returns.

Lemma returns_ListTags l : returns anything (ListTags (X:=X) l).
Proof.
  destruct l;
    unfold ListTags, v2TagLister_ListTags, v1TagLister_ListTags, listTagsWithRepository,
      listTagsWithSession; returns_tac.
Qed.
#[local] Hint Resolve returns_ListTags : returns.

(** Every tag visited has its entry in the image list, under its image id. *)
Lemma addTags_entry (T : string -> Prop) visited (m : gmap string registry.ImgData)
    (id : string) :
  (forall tag, (tag, id) ∈ visited -> T tag) ->
  ((exists tag, (tag, id) ∈ visited) \/
   (exists tag, T tag /\
      m !! id = Some {| registry.ID := id; registry.Tag := tag; registry.Checksum := "" |})) ->
  exists tag, T tag /\
    addTags m visited !! id
    = Some {| registry.ID := id; registry.Tag := tag; registry.Checksum := "" |}.
Proof.
  unfold addTags. revert m.
  induction visited as [|[t i] vs IH]; intros m HT H; cbn.
  - destruct H as [[tag H]|H]; [inversion H | exact H].
  - apply IH.
    + intros tag Hin. apply HT. now right.
    + cbn. destruct (decide (i = id)) as [->|Hne].
      * right. exists t. split; [apply HT; now left | apply lookup_insert_eq].
      * destruct H as [[tag H]|(tag & Ht & H)].
        -- left. exists tag. apply elem_of_cons in H as [H|H]; [congruence | exact H].
        -- right. exists tag. split; [exact Ht | now rewrite lookup_insert_ne].
Qed.

Lemma addTags_lookup visited (m : gmap string registry.ImgData) (id : string) :
  (exists tag, (tag, id) ∈ visited) ->
  exists tag, (tag, id) ∈ visited /\
    addTags m visited !! id
    = Some {| registry.ID := id; registry.Tag := tag; registry.Checksum := "" |}.
Proof.
  intros H. apply (addTags_entry (fun tag => (tag, id) ∈ visited)); auto.
Qed.

Section WithRuntime.
Hypothesis OK : ExternalsOK X.

Lemma returns_fetchWithSession session repoInfo askedTag :
  returns anything (fetchWithSession (X:=X) session repoInfo askedTag).
Proof.
  unfold fetchWithSession.
  apply returns_bind_any; [apply returns_call|]. intros [err|repoData]; [returns_tac|].
  apply returns_bind_any; [apply returns_emit|]. intros _.
  apply returns_bind_any; [apply returns_call|]. intros [err|tagsList]; [returns_tac|].
  destruct (decide _); [returns_tac|].
  eapply (returns_bind (fun visited => visited ≡ₚ map_to_list tagsList)).
  { apply returns_runtime. intros w. apply (mapRange_Permutation X OK). }
  intros visited Hv. cbv zeta.
  apply returns_bind_any; [unfold chooseTag; returns_tac|]. intros tag.
  destruct (tagsList !! tag) as [id|] eqn:E; [|returns_tac].
  cbn [registry.ImgList].
  destruct (addTags_lookup visited (registry.ImgList repoData) id) as (t & _ & ->).
  { exists tag. rewrite Hv. now apply elem_of_map_to_list. }
  returns_tac.
Qed.
#[local] Hint Resolve returns_fetchWithSession : returns.

Lemma returns_Fetch f ref : returns anything (Fetch (X:=X) f ref).
Proof.
  destruct f; unfold Fetch, v2ManifestFetcher_Fetch, v1ManifestFetcher_Fetch; returns_tac.
Qed.
#[local] Hint Resolve returns_Fetch : returns.

Lemma returns_fetchManifest ref config : returns anything (fetchManifest (X:=X) ref config).
Proof. unfold fetchManifest, fetchManifest_body. returns_tac. Qed.

End WithRuntime.

Lemma returns_getRemoteTagList ref config :
  returns anything (getRemoteTagList (X:=X) ref config).
Proof. unfold getRemoteTagList, getRemoteTagList_body. returns_tac. Qed.

End Returns.

(** ** The registry loops *)

Section RegistryLoop.

Context {X : Externals} {A : Type}.
Variable fetch : reference.Named -> M X (Result A).
Variable ref : reference.Named.
Hypothesis fetch_returns : forall fqr, returns errorOnly (fetch fqr).
Hypothesis fetch_resolves : forall fqr s r s',
  fetch fqr s = (r, s') -> exists evs, trace s' = trace s ++ evs /\ resolved evs = [fqr].

Let body (r : string) (st : Result A) : M X (Ctl (Result A) (Result A)) :=
  match FullyQualifyReferenceWith X r ref with
  | inl _err =>
      emit (Logged (FailedToQualify (reference.Name ref) r _err)) ;;;
      ret (Continue (fst st, Some _err))
  | inr fqr =>
      res <- fetch fqr ;;
      match snd res with
      | None => ret (Break (fst res, None))
      | Some _ => ret (Continue res)
      end
  end.

Let try (r : string) : M X (Result A) :=
  match FullyQualifyReferenceWith X r ref with
  | inl _err =>
      emit (Logged (FailedToQualify (reference.Name ref) r _err)) ;;;
      ret (None, Some _err)
  | inr fqr => fetch fqr
  end.

Lemma registry_try_returns r : returns errorOnly (try r).
Proof.
  unfold try. destruct (FullyQualifyReferenceWith X r ref) as [e|fqr]; [|apply fetch_returns].
  intros s. unfold bind, emit, ret. eexists _, _. split; [reflexivity|]. now intros _.
Qed.

Lemma registry_try_resolves r s res s' :
  try r s = (res, s') ->
  exists evs, trace s' = trace s ++ evs /\ resolved evs = candidates (X:=X) ref [r].
Proof.
  unfold try, candidates. cbn.
  destruct (FullyQualifyReferenceWith X r ref) as [e|fqr]; [|apply fetch_resolves].
  unfold bind, emit, ret. intros H. inversion H; subst. cbn. eauto.
Qed.

Lemma registry_body_try r st s :
  fst st = None ->
  body r st s =
  match try r s with
  | (Done res, s1) =>
      match snd res with
      | None => (Done (Break (fst res, None)), s1)
      | Some err => (Done (Continue (None, Some err)), s1)
      end
  | (Panic, s1) => (Panic, s1)
  end.
Proof.
  intros Hst. unfold body, try.
  destruct (FullyQualifyReferenceWith X r ref) as [e|fqr].
  - unfold bind, emit, ret. cbn. now rewrite Hst.
  - unfold bind. destruct (fetch_returns fqr s) as ([v e] & s1 & E & Q). rewrite E.
    cbn. destruct e as [e|]; [|reflexivity].
    unfold ret. cbn in Q. rewrite Q by eauto. reflexivity.
Qed.

(** The loop over the registries: the candidates are tried in order, each
    from the state its predecessor left; the loop leaves at the first that
    succeeds, with its result, and otherwise ends with the error of the last
    one. *)
Lemma registry_loop rs st s :
  fst st = None ->
  exists c s' tried rest os,
    forRange rs body st s = (Done c, s') /\
    rs = tried ++ rest /\
    observes try tried s os s' /\
    (exists evs, trace s' = trace s ++ evs /\ resolved evs = candidates (X:=X) ref tried) /\
    match c with
    | Continue st' =>
        rest = [] /\ Forall (fun ro => is_Some (snd (snd ro))) os /\
        fst st' = None /\
        snd st' = from_option (fun ro => snd (snd ro)) (snd st) (last os)
    | Break res =>
        exists os' r, os = os' ++ [(r, res)] /\
          Forall (fun ro => is_Some (snd (snd ro))) os' /\ snd res = None
    end.
Proof.
  revert st s. induction rs as [|r rs IH]; intros st s Hst.
  - exists (Continue st), s, [], [], []. cbn. repeat split; try constructor; auto.
    exists []. now rewrite app_nil_r.
  - destruct (registry_try_returns r s) as ([v e] & s1 & Etry & Q).
    destruct (registry_try_resolves _ _ _ _ Etry) as (evs1 & Ev1 & Rv1).
    rewrite forRange_cons, (registry_body_try r st s Hst), Etry. cbn [snd fst].
    destruct e as [e|].
    + destruct (IH (None, Some e) s1 eq_refl) as (c & s' & tried & rest & os & E & -> & Hos & Hev & Hc).
      exists c, s', (r :: tried), rest, ((r, (v, Some e)) :: os).
      split; [exact E|]. split; [reflexivity|]. split; [econstructor; eauto|]. split.
      * destruct Hev as (evs & Ev & Rv). exists (evs1 ++ evs).
        split; [now rewrite Ev, Ev1, app_assoc|].
        rewrite resolved_app, Rv1, Rv. unfold candidates. now rewrite <- omap_app.
      * destruct c as [st'|res].
        -- destruct Hc as (-> & Hall & Hf & Hs).
           split; [reflexivity|]. split; [constructor; cbn; eauto|].
           split; [exact Hf|].
           rewrite Hs. destruct os as [|o os]; [reflexivity|].
           rewrite last_cons_cons.
           destruct (last (o :: os)) eqn:EL; [reflexivity|].
           now apply last_None in EL.
        -- destruct Hc as (os' & r' & -> & Hall & Hn).
           exists ((r, (v, Some e)) :: os'), r'. repeat split; auto.
    + exists (Break (v, None)), s1, [r], rs, [(r, (v, None))].
      split; [reflexivity|]. split; [reflexivity|].
      split; [econstructor; eauto; constructor|]. split; [eauto|].
      exists [], r. repeat split; auto.
Qed.

(** The loop over a list of registries that is not empty, from the initial
    values of the two variables. *)
Lemma registry_loop_result rs s :
  rs <> [] ->
  exists c s' tried rest os os' r res',
    forRange rs body (None, None) s = (Done c, s') /\
    rs = tried ++ rest /\
    observes try tried s os s' /\
    (exists evs, trace s' = trace s ++ evs /\ resolved evs = candidates (X:=X) ref tried) /\
    os = os' ++ [(r, res')] /\
    Forall (fun ro => is_Some (snd (snd ro))) os' /\
    snd (afterLoop c) = snd res' /\
    (snd res' = None -> afterLoop c = res') /\
    (is_Some (snd res') -> rest = []).
Proof.
  intros Hne.
  destruct (registry_loop rs (None, None) s eq_refl)
    as (c & s' & tried & rest & os & E & Hrs & Hos & Hev & Hc).
  destruct c as [st'|res].
  - destruct Hc as (-> & Hall & Hf & Hs). rewrite app_nil_r in Hrs. subst tried.
    destruct (exists_last Hne) as (rs' & r0 & ->).
    assert (Hlen : length os = length (rs' ++ [r0])).
    { rewrite <- (observes_fst _ _ _ _ _ Hos). now rewrite length_map. }
    destruct os as [|o os _] using rev_ind.
    { rewrite length_app in Hlen. cbn in Hlen. lia. }
    destruct o as [r res'].
    exists (Continue st'), s', (rs' ++ [r0]), [], (os ++ [(r, res')]), os, r, res'.
    rewrite last_snoc in Hs. cbn in Hs.
    apply Forall_app in Hall as [Hall Hlast].
    inversion Hlast as [|? ? Hres' _]; subst. cbn in Hres'.
    repeat split; auto; try now rewrite app_nil_r.
    intros Hn. rewrite Hn in Hres'. now destruct Hres'.
  - destruct Hc as (os' & r & -> & Hall & Hn).
    exists (Break res), s', tried, rest, (os' ++ [(r, res)]), os', r, res.
    repeat split; auto. rewrite Hn. now intros [? ?].
Qed.

End RegistryLoop.

Section Results.

Context {X : Externals}.

Lemma fetchManifest_loop_errorOnly ref config repoInfo xs acc (s : State X) res s' :
  forRange xs (fetchManifest_body ref config repoInfo) acc s = (Done (Break res), s') ->
  errorOnly res.
Proof.
  revert acc s. induction xs as [|e xs IH]; intros acc s H; [discriminate|].
  rewrite forRange_cons, fetchManifest_body_try in H.
  destruct (tryManifest ref config repoInfo e s) as [[[err|[[img fb] [err|]]]|] s1];
    try destruct fb; try (now apply IH in H); inversion H; subst;
    unfold errorOnly; cbn; try reflexivity; now intros [? ?].
Qed.

Lemma getRemoteTagList_loop_errorOnly config repoInfo xs acc (s : State X) res s' :
  forRange xs (getRemoteTagList_body config repoInfo) acc s = (Done (Break res), s') ->
  errorOnly res.
Proof.
  revert acc s. induction xs as [|e xs IH]; intros acc s H; [discriminate|].
  rewrite forRange_cons, getRemoteTagList_body_try in H.
  destruct (tryTagList config repoInfo e s) as [[[err|[[img fb] [err|]]]|] s1];
    try destruct (fb || _); try (now apply IH in H); inversion H; subst;
    unfold errorOnly; cbn; try reflexivity; now intros [? ?].
Qed.

Lemma fetchManifest_errorOnly ref config (s : State X) res s' :
  fetchManifest ref config s = (Done res, s') -> errorOnly res.
Proof.
  unfold fetchManifest, bind, call, ret.
  destruct (ResolveRepository X ref (world s)) as [[err|repoInfo] w1];
    cbv beta iota; [intros H; inversion H; now intros _|].
  destruct (validateRepoName X _); [intros H; inversion H; now intros _|].
  destruct (LookupPullEndpoints X _ _) as [[err|eps] w2];
    cbv beta iota; [intros H; inversion H; now intros _|].
  destruct (forRange _ _ _ _) as [[[acc|r]|] s2] eqn:E; intros H; inversion H; subst.
  - now intros _.
  - eapply fetchManifest_loop_errorOnly; eauto.
Qed.

Lemma getRemoteTagList_errorOnly ref config (s : State X) res s' :
  getRemoteTagList ref config s = (Done res, s') -> errorOnly res.
Proof.
  unfold getRemoteTagList, bind, call, ret.
  destruct (ResolveRepository X ref (world s)) as [[err|repoInfo] w1];
    cbv beta iota; [intros H; inversion H; now intros _|].
  destruct (validateRepoName X _); [intros H; inversion H; now intros _|].
  destruct (LookupPullEndpoints X _ _) as [[err|eps] w2];
    cbv beta iota; [intros H; inversion H; now intros _|].
  destruct (forRange _ _ _ _) as [[[acc|r]|] s2] eqn:E; intros H; inversion H; subst.
  - now intros _.
  - eapply getRemoteTagList_loop_errorOnly; eauto.
Qed.

Lemma returns_errorOnly {A : Type} (m : M X (Result A)) :
  returns anything m -> (forall s res s', m s = (Done res, s') -> errorOnly res) ->
  returns errorOnly m.
Proof.
  intros Hr He s. destruct (Hr s) as (res & s' & E & _). eauto.
Qed.

Lemma lastErrOr_cases repoInfo acc :
  (forall err, lastErr acc = Some err -> lastErrOr repoInfo acc = err) /\
  (lastErr acc = None -> lastErrOr repoInfo acc = noEndpoints repoInfo).
Proof. unfold lastErrOr. split; [intros err ->|intros ->]; reflexivity. Qed.

Lemma sort_Sort_nil (OK : ExternalsOK X) {A : Type} less (l : list A) :
  sort_Sort X A less l = [] <-> l = [].
Proof.
  pose proof (sort_Sort_Permutation X OK A less l) as P. split; intros E.
  - rewrite E in P. symmetry in P. now apply Permutation_nil_r in P.
  - subst. now apply Permutation_nil_r in P.
Qed.

Lemma sort_Sort_singleton (OK : ExternalsOK X) {A : Type} less (a : A) :
  sort_Sort X A less [a] = [a].
Proof.
  pose proof (sort_Sort_Permutation X OK A less [a]) as P.
  now apply Permutation_singleton_r in P.
Qed.

(** The flag is set exactly when an error that is not an [ErrNoSupport] was
    observed; the next error the loop goes on from replaces [lastErr] unless
    it is an [ErrNoSupport] and the flag is set. *)
Lemma accumulator_after {V : Type} (os : list (registry.APIEndpoint * Attempt V)) err :
  let acc := foldl accAfter initialAcc (map snd os) in
  discardNoSupportErrors acc = existsb (fun eo => realError (snd eo)) os /\
  lastErr (saveError acc err)
  = if isNoSupport err && existsb (fun eo => realError (snd eo)) os
    then lastErr acc else Some err.
Proof.
  cbv zeta. rewrite lastErr_saveError, discard_foldl. cbn.
  assert (E : existsb realError (map snd os) = existsb (fun eo => realError (snd eo)) os).
  { induction os as [|eo os IH]; cbn; [reflexivity | now rewrite IH]. }
  now rewrite E.
Qed.

End Results.

(** ** Orders *)

Section Orders.

Lemma ascii_compare_refl (c : ascii) : Ascii.compare c c = Eq.
Proof. unfold Ascii.compare. apply N.compare_refl. Qed.

Lemma ascii_compare_lt_trans (a b c : ascii) :
  Ascii.compare a b = Lt -> Ascii.compare b c = Lt -> Ascii.compare a c = Lt.
Proof.
  unfold Ascii.compare. rewrite !N.compare_lt_iff. apply N.lt_trans.
Qed.

Lemma string_compare_refl (a : string) : String.compare a a = Eq.
Proof. induction a as [|c a IH]; cbn; [reflexivity | now rewrite ascii_compare_refl]. Qed.

Lemma string_compare_lt_trans (a b c : string) :
  String.compare a b = Lt -> String.compare b c = Lt -> String.compare a c = Lt.
Proof.
  revert b c. induction a as [|x a IH]; intros [|y b] [|z c]; cbn; try easy.
  destruct (Ascii.compare x y) eqn:Exy; try discriminate.
  - apply Ascii.compare_eq_iff in Exy as ->.
    destruct (Ascii.compare y z); try easy. apply IH.
  - intros _. destruct (Ascii.compare y z) eqn:Eyz; try discriminate.
    + apply Ascii.compare_eq_iff in Eyz as <-. now rewrite Exy.
    + now rewrite (ascii_compare_lt_trans _ _ _ Exy Eyz).
Qed.

Lemma string_ltb_irrefl (a : string) : String.ltb a a = false.
Proof. unfold String.ltb. now rewrite string_compare_refl. Qed.

Lemma string_ltb_trans (a b c : string) :
  String.ltb a b = true -> String.ltb b c = true -> String.ltb a c = true.
Proof.
  unfold String.ltb. intros H1 H2.
  destruct (String.compare a b) eqn:E1; try discriminate.
  destruct (String.compare b c) eqn:E2; try discriminate.
  now rewrite (string_compare_lt_trans _ _ _ E1 E2).
Qed.

(** [a] is not less than [b]: [b] is [a] or is less than [a]. *)
Lemma string_ltb_false (a b : string) :
  String.ltb a b = false <-> a = b \/ String.ltb b a = true.
Proof.
  unfold String.ltb. rewrite (String.compare_antisym a b).
  destruct (String.compare b a) eqn:E; cbn.
  - apply String.compare_eq_iff in E. intuition.
  - intuition.
  - split; [discriminate|]. intros [->|]; [|discriminate].
    now rewrite string_compare_refl in E.
Qed.

Lemma string_ltb_incomp_trans (a b c : string) :
  String.ltb a b = false -> String.ltb b c = false -> String.ltb a c = false.
Proof.
  rewrite !string_ltb_false. intros [->|H1] [->|H2]; auto.
  right. eapply string_ltb_trans; eauto.
Qed.

(** Not less means less or equal, in the order of the bytes. *)
Lemma string_ltb_leb (a b : string) : String.ltb b a = false <-> String.leb a b = true.
Proof.
  unfold String.ltb, String.leb. rewrite (String.compare_antisym a b).
  destruct (String.compare b a); cbn; easy.
Qed.

Lemma byTagName_LessOrder : LessOrder byTagName_Less.
Proof.
  unfold byTagName_Less. split.
  - intros a. apply string_ltb_irrefl.
  - intros a b c. apply string_ltb_trans.
  - intros a b c. apply string_ltb_incomp_trans.
Qed.

Lemma byAPIVersion_Less_rank a b :
  byAPIVersion_Less a b = true <->
  fst (rank a) < fst (rank b) \/ (fst (rank a) = fst (rank b) /\ snd (rank a) < snd (rank b)).
Proof.
  unfold byAPIVersion_Less, rank. cbn.
  destruct (Z.ltb_spec (registry.Version a) (registry.Version b)); [intuition|].
  destruct (Z.eqb_spec (registry.Version a) (registry.Version b));
    destruct (strings_HasPrefix (registry.URL a) _), (strings_HasPrefix (registry.URL b) _);
    cbn; intuition (try discriminate; try lia).
Qed.

Lemma byAPIVersion_Less_rank_false a b :
  byAPIVersion_Less a b = false <->
  fst (rank b) < fst (rank a) \/ (fst (rank a) = fst (rank b) /\ snd (rank b) <= snd (rank a)).
Proof.
  destruct (byAPIVersion_Less a b) eqn:E.
  - apply byAPIVersion_Less_rank in E. split; [discriminate | lia].
  - split; [intros _ | reflexivity].
    assert (N : ~ (fst (rank a) < fst (rank b) \/
                   (fst (rank a) = fst (rank b) /\ snd (rank a) < snd (rank b)))).
    { intros H. apply byAPIVersion_Less_rank in H. congruence. }
    lia.
Qed.

Lemma byAPIVersion_LessOrder : LessOrder byAPIVersion_Less.
Proof.
  split.
  - intros a. apply byAPIVersion_Less_rank_false. lia.
  - intros a b c. rewrite !byAPIVersion_Less_rank. lia.
  - intros a b c. rewrite !byAPIVersion_Less_rank_false. lia.
Qed.

(** In a slice that [sort.IsSorted] accepts no element is less than one
    before it. *)
Lemma IsSorted_all {A : Type} (less : A -> A -> bool) (l : list A) :
  LessOrder less -> IsSorted less l ->
  forall i j x y, (i < j)%nat -> l !! i = Some x -> l !! j = Some y -> less y x = false.
Proof.
  intros O S i j. revert i. induction j as [|j IH]; intros i x y Hij Hx Hy; [lia|].
  destruct (decide (i = j)) as [->|Hne]; [now apply (S j)|].
  destruct (lookup_lt_is_Some_2 l j) as [z Hz].
  { apply lookup_lt_Some in Hy. lia. }
  apply (less_incomp_trans less O y z x).
  - now apply (S j).
  - apply (IH i); [lia | exact Hx | exact Hz].
Qed.

Lemma Sorted_IsSorted {A : Type} (less : A -> A -> bool) (l : list A) :
  Sorted (fun x y => less y x = false) l -> IsSorted less l.
Proof.
  induction 1 as [|a l Hl IH Hhd]; intros i x y Hx Hy; [inversion Hx|].
  destruct i as [|i]; cbn in *.
  - inversion Hx; subst. destruct l as [|b l]; [inversion Hy|].
    cbn in Hy. inversion Hy; subst. now inversion Hhd.
  - now apply (IH i).
Qed.

Lemma mergeSort_IsSorted {A : Type} (less : A -> A -> bool) (l : list A) :
  LessOrder less -> IsSorted less (mergeSort A less l).
Proof.
  intros O. apply Sorted_IsSorted. unfold mergeSort. apply Sorted_merge_sort.
  intros x y. destruct (less y x) eqn:E; [right | now left].
  destruct (less x y) eqn:E'; [|reflexivity].
  rewrite <- (less_irrefl less O x). symmetry. eapply (less_trans less O); eauto.
Qed.

Lemma demo_OK (sc : Scenario) : ExternalsOK (demo sc).
Proof.
  split; cbn.
  - reflexivity.
  - intros A less l. apply merge_sort_Permutation.
  - intros A less l. apply mergeSort_IsSorted.
Qed.

End Orders.

(** ** The image JSON of the v1 fetcher *)

Section Pull.
Context {X : Externals}.
Variables (session : Session X) (repoInfo : registry.RepositoryInfo)
  (repoData : registry.RepositoryData) (img : registry.ImgData).

Lemma imageRequests_app evs1 evs2 :
  imageRequests (evs1 ++ evs2) = imageRequests evs1 ++ imageRequests evs2.
Proof. apply omap_app. Qed.

(** A loop of [fetchWithSession] over addresses of one kind. *)
Lemma pull_loop (b : bool) (body : string -> Pulled -> M X (Ctl Pulled Pulled)) :
  (forall ep st s,
     body ep st s =
     match pullAttempt session repoInfo repoData img (b, ep) s with
     | (Done r, s1) =>
         match snd r with
         | Some _ => (Done (Continue r), s1)
         | None => (Done (Break r), s1)
         end
     | (Panic, s1) => (Panic, s1)
     end) ->
  forall eps st s,
  exists c s' tried rest os,
    forRange eps body st s = (Done c, s') /\
    eps = tried ++ rest /\
    observes (pullAttempt session repoInfo repoData img) (map (pair b) tried) s os s' /\
    (exists evs, trace s' = trace s ++ evs /\
       imageRequests evs = map (fun a => (registry.ID img, snd a)) (map (pair b) tried)) /\
    match c with
    | Continue st' =>
        rest = [] /\ Forall pullFailed os /\ st' = from_option snd st (last os)
    | Break r =>
        exists os' a pulled,
          os = os' ++ [(a, (Some pulled, None))] /\ Forall pullFailed os' /\
          r = (Some pulled, None)
    end.
Proof.
  intros Hbody eps. induction eps as [|ep eps IH]; intros st s.
  - exists (Continue st), s, [], [], []. cbn. repeat split; try constructor.
    exists []. now rewrite app_nil_r.
  - destruct (pullAttempt_run session repoInfo repoData img (b, ep) s)
      as (r & s1 & evs1 & E1 & T1 & R1 & Sh).
    rewrite forRange_cons, Hbody, E1.
    destruct Sh as [[err ->]|[pulled ->]]; cbn [snd].
    + destruct (IH (None, Some err) s1)
        as (c & s' & tried & rest & os & E & -> & Hos & (evs & T & R) & Hc).
      exists c, s', (ep :: tried), rest, (((b, ep), (None, Some err)) :: os).
      split; [exact E|]. split; [reflexivity|].
      split; [cbn; econstructor; eauto|]. split.
      * exists (evs1 ++ evs). split; [now rewrite T, T1, app_assoc|].
        now rewrite imageRequests_app, R1, R.
      * destruct c as [st'|r'].
        -- destruct Hc as (-> & Hall & ->). split; [reflexivity|].
           split; [constructor; [now exists err | exact Hall]|].
           destruct os as [|o os]; [reflexivity|]. rewrite last_cons_cons.
           destruct (last (o :: os)) eqn:EL; [reflexivity|]. now apply last_None in EL.
        -- destruct Hc as (os' & a & pulled & -> & Hall & ->).
           exists (((b, ep), (None, Some err)) :: os'), a, pulled.
           split; [reflexivity|]. split; [|reflexivity].
           constructor; [now exists err | exact Hall].
    + exists (Break (Some pulled, None)), s1, [ep], eps, [((b, ep), (Some pulled, None))].
      split; [reflexivity|]. split; [reflexivity|].
      split; [cbn; econstructor; eauto; constructor|]. split; [eauto|].
      exists [], (b, ep), pulled. repeat split. constructor.
Qed.

Lemma pullFromMirrors_body ep (st : Pulled) (s : State X) :
  (r <- pullImageJSON session (registry.ID img) ep (registry.Tokens repoData) ;;
   match snd r with
   | Some err =>
       emit (Logged (ErrorPullingMirror (registry.CanonicalName repoInfo)
                       (registry.Tag img) ep err)) ;;;
       ret (Continue r)
   | None => ret (Break (S:=Pulled) r)
   end) s =
  match pullAttempt session repoInfo repoData img (true, ep) s with
  | (Done r, s1) =>
      match snd r with
      | Some _ => (Done (Continue r), s1)
      | None => (Done (Break r), s1)
      end
  | (Panic, s1) => (Panic, s1)
  end.
Proof.
  unfold pullAttempt, bind. cbn [fst snd].
  destruct (pullImageJSON _ _ _ _ s) as [[[p [e|]]|] s1]; reflexivity.
Qed.

Lemma pullFromEndpoints_body ep (st : Pulled) (s : State X) :
  (r <- pullImageJSON session (registry.ID img) ep (registry.Tokens repoData) ;;
   match snd r with
   | Some err =>
       emit (Logged (ErrorPullingEndpoint (registry.CanonicalName repoInfo)
                       (registry.Tag img) ep err)) ;;;
       ret (Continue r)
   | None => ret (Break (S:=Pulled) r)
   end) s =
  match pullAttempt session repoInfo repoData img (false, ep) s with
  | (Done r, s1) =>
      match snd r with
      | Some _ => (Done (Continue r), s1)
      | None => (Done (Break r), s1)
      end
  | (Panic, s1) => (Panic, s1)
  end.
Proof.
  unfold pullAttempt, bind. cbn [fst snd].
  destruct (pullImageJSON _ _ _ _ s) as [[[p [e|]]|] s1]; reflexivity.
Qed.

Lemma string_app_assoc (a b c : string) : (a +:+ b) +:+ c = a +:+ (b +:+ c).
Proof.
  induction a as [|x a IH]; [reflexivity|].
  change (String x ((a +:+ b) +:+ c) = String x (a +:+ (b +:+ c))). now rewrite IH.
Qed.

Lemma observes_last_failed {O : Type} (P : (bool * string) * O -> Prop)
    (os : list ((bool * string) * O)) :
  Forall P os -> os <> [] ->
  exists os' o, os = os' ++ [o] /\ Forall P os' /\ P o /\ last os = Some o.
Proof.
  intros Hall Hne. destruct (exists_last Hne) as (os' & o & ->).
  apply Forall_app in Hall as [H1 H2]. inversion H2; subst.
  exists os', o. repeat split; auto. apply last_snoc.
Qed.

End Pull.

(** ** The tags of the v1 and v2 fetchers *)

Section Tags.

Context {X : Externals}.

Lemma defaultTag_foldl (tagList : list string) (tag : string) :
  foldl (fun tag t => if decide (t = tagpkg.DefaultTag) then tagpkg.DefaultTag else tag)
        tag tagList
  = if decide (tagpkg.DefaultTag ∈ tagList) then tagpkg.DefaultTag else tag.
Proof.
  revert tag. induction tagList as [|t l IH]; intros tag; cbn.
  - destruct (decide _) as [H|_]; [inversion H | reflexivity].
  - rewrite IH. destruct (decide (t = tagpkg.DefaultTag)) as [->|Hne].
    + destruct (decide (_ ∈ l)), (decide (_ ∈ _ :: l)) as [|Hn]; try reflexivity;
        destruct Hn; now left.
    + destruct (decide (_ ∈ l)) as [Hin|Hnin], (decide (_ ∈ t :: l)) as [Hin'|Hnin'];
        try reflexivity.
      * destruct Hnin'. now right.
      * apply elem_of_cons in Hin' as [E|Hin']; [congruence | contradiction].
Qed.

Lemma defaultOrFirstTag_cases (tagList : list string) :
  (tagpkg.DefaultTag ∈ tagList -> defaultOrFirstTag tagList = tagpkg.DefaultTag) /\
  (tagpkg.DefaultTag ∉ tagList -> defaultOrFirstTag tagList = hd ""%string tagList).
Proof.
  unfold defaultOrFirstTag. rewrite defaultTag_foldl.
  destruct (decide (tagpkg.DefaultTag ∈ tagList)) as [Hin|Hnin]; split; intros H;
    try contradiction.
  - destruct (decide _) as [E|_]; [discriminate E | reflexivity].
  - destruct (decide _) as [_|Hn]; [|now destruct Hn]. now destruct tagList.
Qed.

Section WithRuntime.

Hypothesis OK : ExternalsOK X.

(** The tag [chooseTag] returns. *)
Lemma chooseTag_run (tagsList : gmap string string) askedTag (s : State X) :
  size tagsList <> 0%nat ->
  exists tag s',
    chooseTag tagsList askedTag s = (Done tag, s') /\
    trace s' = trace s /\
    (askedTag <> ""%string -> tag = askedTag) /\
    (askedTag = ""%string -> is_Some (tagsList !! tagpkg.DefaultTag) ->
     tag = tagpkg.DefaultTag) /\
    (askedTag = ""%string -> tagsList !! tagpkg.DefaultTag = None ->
     is_Some (tagsList !! tag)).
Proof.
  intros Hne. unfold chooseTag.
  destruct (decide (askedTag = ""%string)) as [->|Hasked].
  - destruct (tagsList !! tagpkg.DefaultTag) as [id|] eqn:Hd.
    + destruct (decide _) as [Hl|_]; [discriminate Hl|].
      exists tagpkg.DefaultTag, s. unfold ret.
      split; [reflexivity|]. split; [reflexivity|].
      split; [congruence|]. split; [reflexivity|]. congruence.
    + destruct (decide _) as [_|Hn]; [|now destruct Hn].
      unfold bind, runtime, ret.
      pose proof (mapRange_Permutation X OK tagsList (world s)) as P.
      destruct (mapRange X tagsList (world s)) as [visited w]. cbn in P.
      destruct visited as [|[tag id] visited].
      * apply Permutation_nil_l in P. symmetry in P. apply map_to_list_empty_iff in P.
        subst. now rewrite map_size_empty in Hne.
      * exists tag, {| world := w; trace := trace s |}.
        split; [reflexivity|]. split; [reflexivity|].
        split; [congruence|]. split; [intros _ [? ?]; congruence|].
        intros _ _. exists id. apply elem_of_map_to_list. rewrite <- P. now left.
  - destruct (decide _) as [Hl|_]; [congruence|].
    exists askedTag, s. unfold ret.
    split; [reflexivity|]. split; [reflexivity|].
    split; [reflexivity|]. split; congruence.
Qed.

(** [fetchWithSession] from the state in which the session returned the
    repository data and the tags. *)
Lemma fetchWithSession_at_tags (session : Session X) repoInfo askedTag (s : State X)
    repoData w1 tagsList w2 :
  GetRepositoryData X session (registry.RemoteName repoInfo) (world s) = (inr repoData, w1) ->
  GetRemoteTags X session (registry.Endpoints repoData) (registry.RemoteName repoInfo) w1
  = (inr tagsList, w2) ->
  fetchWithSession session repoInfo askedTag s =
  (if decide (size tagsList < 1)%nat then
     ret (None, Some (errorString
            ("No tags available for remote repository "
             +:+ registry.CanonicalName repoInfo)))
   else
     visited <- runtime (mapRange X tagsList) ;;
     askedTag <- chooseTag tagsList askedTag ;;
     match tagsList !! askedTag with
     | None =>
         ret (None, Some (errorString
                ("Tag " +:+ askedTag +:+ " not found in repository "
                 +:+ registry.CanonicalName repoInfo)))
     | Some id =>
       match addTags (registry.ImgList repoData) visited !! id with
       | None => panic
       | Some img =>
           pullImage session repoInfo
             {| registry.ImgList := addTags (registry.ImgList repoData) visited;
                registry.Endpoints := registry.Endpoints repoData;
                registry.Tokens := registry.Tokens repoData |} img askedTag
       end
     end) (atTags repoInfo repoData tagsList w2 s).
Proof.
  intros H1 H2. unfold fetchWithSession.
  unfold bind at 1, call. rewrite H1.
  unfold bind at 1, emit. unfold bind at 1, call. cbn [world trace]. rewrite H2.
  unfold atTags. rewrite <- !app_assoc. reflexivity.
Qed.

End WithRuntime.

End Tags.

(** ** The loop of the tag listing *)

Section TagListing.

Context {X : Externals}.

Lemma triedForTags_app evs1 evs2 :
  triedForTags (evs1 ++ evs2) = triedForTags evs1 ++ triedForTags evs2.
Proof. apply omap_app. Qed.

Lemma triedForTags_notTrying evs : Forall notTryingTagList evs -> triedForTags evs = [].
Proof.
  induction 1 as [|e evs He _ IH]; [reflexivity|].
  unfold triedForTags in *. cbn. rewrite IH.
  destruct e as [| | | | | | | | | | | | | | |l]; try reflexivity. now destruct l.
Qed.

(** A tag list returned by the loop of [getRemoteTagList] went through
    [sort.Sort]. *)
Lemma getRemoteTagList_loop_sorted config repoInfo xs acc (s : State X) tl err s' :
  forRange xs (getRemoteTagList_body config repoInfo) acc s
  = (Done (Break (Some tl, err)), s') ->
  err = None /\ exists tags, types.TagList tl = sort_Sort X _ byTagName_Less tags.
Proof.
  revert acc s. induction xs as [|e xs IH]; intros acc s H; [discriminate|].
  rewrite forRange_cons, getRemoteTagList_body_try in H.
  destruct (tryTagList config repoInfo e s) as [[[err0|[[tags fb] [err0|]]]|] s1];
    try destruct (fb || _); try (now apply IH in H); inversion H; subst.
  split; [reflexivity | now exists tags].
Qed.

(** The endpoints the loop of [getRemoteTagList] tries are the first ones of
    its list, in order, and all of them when it reaches the end. *)
Lemma getRemoteTagList_loop_tried config repoInfo xs acc (s : State X) r s' :
  forRange xs (getRemoteTagList_body config repoInfo) acc s = (r, s') ->
  exists evs, trace s' = trace s ++ evs /\
    triedForTags evs `prefix_of` xs /\
    (forall acc', r = Done (Continue acc') -> triedForTags evs = xs).
Proof.
  revert acc s. induction xs as [|e xs IH]; intros acc s H.
  - cbn in H. unfold ret in H. inversion H; subst. exists [].
    rewrite app_nil_r. repeat split. apply prefix_nil.
  - rewrite forRange_cons in H.
    destruct (getRemoteTagList_body config repoInfo e acc s) as [c s1] eqn:Eb.
    destruct (getRemoteTagList_body_emits _ _ _ _ _ _ _ Eb) as (evs1 & T1 & F1).
    assert (Tr : triedForTags (Logged (TryingTagList (registry.CanonicalName repoInfo) e)
                               :: evs1) = [e]).
    { change (e :: triedForTags evs1 = [e]). now rewrite (triedForTags_notTrying _ F1). }
    destruct c as [[acc1|res]|].
    + destruct (IH _ _ H) as (evs & T & P & Hall).
      exists ((Logged (TryingTagList (registry.CanonicalName repoInfo) e) :: evs1) ++ evs).
      split; [now rewrite T, T1, app_assoc|].
      rewrite triedForTags_app, Tr. split; [now apply prefix_cons|].
      intros acc' Hr. cbn. f_equal. eauto.
    + inversion H; subst. eexists. split; [exact T1|]. rewrite Tr.
      split; [apply prefix_cons, prefix_nil | discriminate].
    + inversion H; subst. eexists. split; [exact T1|]. rewrite Tr.
      split; [apply prefix_cons, prefix_nil | discriminate].
Qed.

End TagListing.

(** * The claims *)

Section Claims.

Context {X : Externals}.

(** C1: in the endpoint loop of [fetchManifest] and in the one of
    [getRemoteTagList], when the loop has gone through the endpoints [xs]
    and observed [os] there, the flag [discardNoSupportErrors] is set exactly
    when one of the errors observed was not an [ErrNoSupport]; and an error
    returned with [fallback] at the next endpoint replaces [lastErr] unless
    it is an [ErrNoSupport] and such an error was observed before, in which
    case [lastErr] stays as it is.  So an [ErrNoSupport] is stored only while
    no other fallback error has been seen, never after, and another fallback
    error is always stored. *)
Theorem error_accumulator_invariant (ref : reference.Named) (config : @Config X)
    repoInfo xs acc (s s' : State X) :
  (forRange xs (fetchManifest_body ref config repoInfo) initialAcc s
   = (Done (Continue acc), s') ->
   exists os,
     observes (tryManifest ref config repoInfo) xs s os s' /\
     Forall (fun eo => realError (snd eo) = true -> fallbackError (snd eo) = true) os /\
     discardNoSupportErrors acc = existsb (fun eo => realError (snd eo)) os /\
     forall e img err s1,
       tryManifest ref config repoInfo e s' = (Done (inr (img, true, Some err)), s1) ->
       exists acc',
         fetchManifest_body ref config repoInfo e acc s' = (Done (Continue acc'), s1) /\
         lastErr acc'
         = if isNoSupport err && existsb (fun eo => realError (snd eo)) os
           then lastErr acc else Some err) /\
  (forRange xs (getRemoteTagList_body config repoInfo) initialAcc s
   = (Done (Continue acc), s') ->
   exists os,
     observes (tryTagList config repoInfo) xs s os s' /\
     Forall (fun eo => realError (snd eo) = true ->
               fallbackError (snd eo) = true
               \/ registry.Version (fst eo) = registry.APIVersion1) os /\
     discardNoSupportErrors acc = existsb (fun eo => realError (snd eo)) os /\
     forall e tags err s1,
       tryTagList config repoInfo e s' = (Done (inr (tags, true, Some err)), s1) ->
       exists acc',
         getRemoteTagList_body config repoInfo e acc s' = (Done (Continue acc'), s1) /\
         lastErr acc'
         = if isNoSupport err && existsb (fun eo => realError (snd eo)) os
           then lastErr acc else Some err).
Proof.
  split; intros H.
  - destruct (fetchManifest_loop_observes _ _ _ _ _ _ _ _ H) as (os & Hos & Hall & ->).
    destruct (accumulator_after os (errorString "")) as [Hd _].
    exists os. split; [exact Hos|]. split; [|split; [exact Hd|]].
    + eapply Forall_impl; [exact Hall|]. intros [e o]; cbn.
      destruct o as [err|[[v fb] [err|]]]; cbn; try discriminate.
      now intros [-> _] _.
    + intros e img err s1 Htry. eexists. split.
      * rewrite fetchManifest_body_try, Htry. reflexivity.
      * apply accumulator_after.
  - destruct (getRemoteTagList_loop_observes _ _ _ _ _ _ _ H) as (os & Hos & Hall & ->).
    destruct (accumulator_after os (errorString "")) as [Hd _].
    exists os. split; [exact Hos|]. split; [|split; [exact Hd|]].
    + eapply Forall_impl; [exact Hall|]. intros [e o]; cbn.
      destruct o as [err|[[v fb] [err|]]]; cbn; try discriminate.
      intros [[->|Hv] _] _; auto.
    + intros e tags err s1 Htry. eexists. split.
      * rewrite getRemoteTagList_body_try, Htry. reflexivity.
      * apply accumulator_after.
Qed.

(** C2: for a fully qualified reference [Inspect] is [fetchManifest] and
    [ListRemoteTags] is [getRemoteTagList] on that reference, and the one
    reference resolved is this one: no registry of the list is visited.  For
    a reference that is not fully qualified and a list of registries that is
    not empty, both return, and the registries are tried in the order of the
    list, no more of them than the list has, each from the state the one
    before left; all tried before the last failed; when the last succeeds
    its result is returned, with no error, and the rest of the list is not
    tried; when it fails the list is exhausted and its error, the last one
    observed, is returned. *)
Theorem registries_tried_in_order (OK : ExternalsOK X) (ref : reference.Named)
    (config : @Config X) (s : State X) :
  (IsReferenceFullyQualified X ref = true ->
   Inspect ref config s = fetchManifest ref config s /\
   ListRemoteTags ref config s = getRemoteTagList ref config s /\
   (forall r s', Inspect ref config s = (r, s') ->
      exists evs, trace s' = trace s ++ evs /\ resolved evs = [ref]) /\
   (forall r s', ListRemoteTags ref config s = (r, s') ->
      exists evs, trace s' = trace s ++ evs /\ resolved evs = [ref])) /\
  (IsReferenceFullyQualified X ref = false -> RegistryList X <> [] ->
   (exists res s',
      Inspect ref config s = (Done res, s') /\
      triedInOrder (tryRegistry ref config) ref (RegistryList X) s res s') /\
   (ValidateRepositoryName X ref = None ->
    exists res s',
      ListRemoteTags ref config s = (Done res, s') /\
      triedInOrder (tryRegistryTags ref config) ref (RegistryList X) s res s')).
Proof.
  split.
  - intros Hq. unfold Inspect, ListRemoteTags. rewrite Hq.
    repeat split; [apply fetchManifest_resolves | apply getRemoteTagList_resolves].
  - intros Hq Hne. split.
    + destruct (registry_loop_result (fun fqr => fetchManifest fqr config) ref) with
        (rs := RegistryList X) (s := s)
        as (c & s' & tried & rest & os & os' & r & res' & E & Hrs & Hos & Hev & H).
      * intros fqr. apply returns_errorOnly;
          [now apply returns_fetchManifest | apply fetchManifest_errorOnly].
      * intros fqr. apply fetchManifest_resolves.
      * exact Hne.
      * exists (afterLoop c), s'. split.
        -- unfold Inspect. rewrite Hq.
           destruct (decide _) as [Hl|_]; [now apply length_zero_iff_nil in Hl|].
           unfold bind, ret.
           assert (E' : forRange (RegistryList X) (Inspect_body ref config) (None, None) s
                        = (Done c, s')) by exact E.
           now rewrite E'.
        -- exists tried, rest, os, os', r, res'. split; [exact Hrs|].
           split; [rewrite Hrs, length_app; lia|]. split; [exact Hos|]. split; [exact Hev|].
           exact H.
    + intros Hv.
      destruct (registry_loop_result (fun fqr => getRemoteTagList fqr config) ref) with
        (rs := RegistryList X) (s := s)
        as (c & s' & tried & rest & os & os' & r & res' & E & Hrs & Hos & Hev & H).
      * intros fqr. apply returns_errorOnly;
          [apply returns_getRemoteTagList | apply getRemoteTagList_errorOnly].
      * intros fqr. apply getRemoteTagList_resolves.
      * exact Hne.
      * exists (afterLoop c), s'. split.
        -- unfold ListRemoteTags. rewrite Hq, Hv.
           destruct (decide _) as [Hl|_]; [now apply length_zero_iff_nil in Hl|].
           unfold bind, ret.
           assert (E' : forRange (RegistryList X) (ListRemoteTags_body ref config)
                          (None, None) s = (Done c, s')) by exact E.
           now rewrite E'.
        -- exists tried, rest, os, os', r, res'. split; [exact Hrs|].
           split; [rewrite Hrs, length_app; lia|]. split; [exact Hos|]. split; [exact Hev|].
           exact H.
Qed.


(** C3: for a reference with a digest, [Fetch] of the v1 fetcher returns no
    record, [fallback] set and a [registry.ErrNoSupport] error, and leaves
    the world and the trace as they were: no collaborator is called. *)
Theorem v1_Fetch_digest_no_support endpoint (config : @Config X)
    repoInfo ref dgst (s : State X) :
  reference.Digest ref = Some dgst ->
  Fetch (v1ManifestFetcher endpoint config repoInfo) ref s =
  (Done (None, true,
         Some (ErrNoSupport (errorString "Cannot pull by digest with v1 registry"))), s) /\
  isNoSupport (ErrNoSupport (errorString "Cannot pull by digest with v1 registry")) = true.
Proof.
  intros H. split; [|reflexivity]. unfold Fetch, v1ManifestFetcher_Fetch. now rewrite H.
Qed.

(** C4: when the loop of [fetchManifest], or the one of [getRemoteTagList],
    has gone through every endpoint, the function returns no value and the
    error left in [lastErr]; it returns the error "no endpoints found" only
    when [lastErr] holds none, which is the case only when there was no
    endpoint at all.  With a single endpoint whose attempt returns an
    [ErrNoSupport] error, this error is what the function returns. *)
Theorem exhausted_endpoints_return_last_error (OK : ExternalsOK X)
    (ref : reference.Named) (config : @Config X) repoInfo endpoints w1 w (s : State X) :
  ResolveRepository X ref (world s) = (inr repoInfo, w1) ->
  validateRepoName X (registry.LocalName repoInfo) = None ->
  LookupPullEndpoints X (registry.CanonicalName repoInfo) w1 = (inr endpoints, w) ->
  let s0 := atEndpoints ref repoInfo endpoints w s in
  (forall acc s',
     forRange endpoints (fetchManifest_body ref config repoInfo) initialAcc s0
     = (Done (Continue acc), s') ->
     fetchManifest ref config s = (Done (None, Some (lastErrOr repoInfo acc)), s') /\
     (forall err, lastErr acc = Some err -> lastErrOr repoInfo acc = err) /\
     (lastErr acc = None -> lastErrOr repoInfo acc = noEndpoints repoInfo) /\
     (lastErr acc = None <-> endpoints = [])) /\
  (forall acc s',
     forRange (sort_Sort X _ byAPIVersion_Less endpoints)
       (getRemoteTagList_body config repoInfo) initialAcc s0
     = (Done (Continue acc), s') ->
     getRemoteTagList ref config s = (Done (None, Some (lastErrOr repoInfo acc)), s') /\
     (forall err, lastErr acc = Some err -> lastErrOr repoInfo acc = err) /\
     (lastErr acc = None -> lastErrOr repoInfo acc = noEndpoints repoInfo) /\
     (lastErr acc = None <-> endpoints = [])) /\
  (forall e img fallback err s1,
     endpoints = [e] -> isNoSupport err = true ->
     tryManifest ref config repoInfo e s0 = (Done (inr (img, fallback, Some err)), s1) ->
     exists s', fetchManifest ref config s = (Done (None, Some err), s')) /\
  (forall e tags fallback err s1,
     endpoints = [e] -> isNoSupport err = true ->
     tryTagList config repoInfo e s0 = (Done (inr (tags, fallback, Some err)), s1) ->
     exists s', getRemoteTagList ref config s = (Done (None, Some err), s')).
Proof.
  intros H1 H2 H3 s0. repeat split.
  - rewrite (fetchManifest_at_endpoints _ _ _ _ _ _ _ H1 H2 H3). fold s0. now rewrite H.
  - apply lastErrOr_cases.
  - apply lastErrOr_cases.
  - intros Hn. destruct endpoints as [|e es]; [reflexivity|exfalso].
    destruct (fetchManifest_loop_observes _ _ _ _ _ _ _ _ H) as (os & Hos & Hall & ->).
    destruct (exhausted_lastErr os (fun _ fb => fb = true) Hall) as [x Hx].
    + apply observes_fst in Hos. destruct os; [discriminate | discriminate].
    + congruence.
  - intros ->. cbn in H. unfold ret in H. now inversion H.
  - rewrite (getRemoteTagList_at_endpoints _ _ _ _ _ _ _ H1 H2 H3). fold s0. now rewrite H.
  - apply lastErrOr_cases.
  - apply lastErrOr_cases.
  - intros Hn. apply (sort_Sort_nil OK byAPIVersion_Less).
    destruct (sort_Sort X _ byAPIVersion_Less endpoints) as [|e es]; [reflexivity|exfalso].
    destruct (getRemoteTagList_loop_observes _ _ _ _ _ _ _ H) as (os & Hos & Hall & ->).
    destruct (exhausted_lastErr os
                (fun eo fb => fb = true \/ registry.Version (fst eo) = registry.APIVersion1)
                Hall) as [x Hx].
    + apply observes_fst in Hos. destruct os; [discriminate | discriminate].
    + congruence.
  - intros ->. cbn in H. rewrite (proj2 (sort_Sort_nil OK byAPIVersion_Less [])) in H by reflexivity.
    cbn in H. unfold ret in H. now inversion H.
  - intros e img fb err s1 -> Hns Htry.
    rewrite (fetchManifest_at_endpoints _ _ _ _ _ _ _ H1 H2 H3). fold s0.
    rewrite forRange_cons, fetchManifest_body_try, Htry.
    destruct fb; cbn; unfold ret; eexists; [|reflexivity].
    unfold lastErrOr. rewrite saveError_first by easy. reflexivity.
  - intros e tags fb err s1 -> Hns Htry.
    rewrite (getRemoteTagList_at_endpoints _ _ _ _ _ _ _ H1 H2 H3). fold s0.
    rewrite (sort_Sort_singleton OK).
    rewrite forRange_cons, getRemoteTagList_body_try, Htry.
    destruct (fb || _); cbn; unfold ret; eexists; [|reflexivity].
    unfold lastErrOr. rewrite saveError_first by easy. reflexivity.
Qed.

(** C5, as amended: on a reference with no tag and no digest the v2 fetcher
    takes the tag "latest" when the tags of the repository contain it,
    wherever it stands, and their first element otherwise; when the tag
    taken is not the empty string the manifest is fetched for it, once, and
    the result comes from this manifest; when it is the empty string, that
    is when the repository has no tag or its first tag is the empty string,
    the fetch fails with "No tags available" and no manifest is fetched. *)
Theorem v2_default_tag (repo : Repository X) repoInfo ref (s : State X)
    manSvc w1 tagList w2 :
  reference.Digest ref = None -> reference.Tag ref = None ->
  Manifests X repo (world s) = (inr manSvc, w1) ->
  Tags X manSvc w1 = (inr tagList, w2) ->
  let s2 := atV2Tags tagList w2 s in
  let tag := defaultOrFirstTag tagList in
  (tagpkg.DefaultTag ∈ tagList -> tag = tagpkg.DefaultTag) /\
  (tagpkg.DefaultTag ∉ tagList -> tag = hd ""%string tagList) /\
  (tag <> ""%string ->
   fetchWithRepository repo repoInfo ref s =
   (Done (fromManifest repoInfo ref tag (fst (GetByTag X manSvc tag w2))),
    {| world := snd (GetByTag X manSvc tag w2);
       trace := trace s2 ++ [Call_GetByTag tag (snd (fst (GetByTag X manSvc tag w2)))] |})) /\
  (tag = ""%string ->
   fetchWithRepository repo repoInfo ref s =
   (Done (None, Some (errorString ("No tags available for remote repository "
                                   +:+ registry.CanonicalName repoInfo))), s2)).
Proof.
  intros Hd Ht H1 H2 s2 tag.
  split; [apply defaultOrFirstTag_cases|]. split; [apply defaultOrFirstTag_cases|].
  unfold fetchWithRepository. rewrite Hd, Ht.
  rewrite (bind_Done _ _ _ _ _ (call_run _ _ _)). rewrite H1. cbn [fst snd errOf].
  cbv beta iota.
  rewrite bind_assoc, (bind_Done _ _ _ _ _ (call_run _ _ _)).
  cbn [world trace]. rewrite H2. cbn [fst snd]. cbv zeta. fold tag.
  assert (Es : {| world := w2; trace := (trace s ++ [Call_Manifests None])
                                        ++ [Call_Tags (inr tagList)] |} = s2).
  { unfold s2, atV2Tags. now rewrite <- app_assoc. }
  rewrite Es. split; intros Htag.
  - destruct (decide (tag = ""%string)) as [E|_]; [contradiction|].
    unfold fetchByTag. rewrite bind_assoc, (bind_Done _ _ _ _ _ (call_run _ _ _)).
    unfold bind at 1.
    unfold ret. destruct (GetByTag X manSvc tag (world s2)) as [[m e] w3] eqn:EG.
    unfold s2 at 1, atV2Tags in EG. cbn [world] in EG. rewrite EG. cbn [fst snd].
    destruct e as [e|]; [destruct m; reflexivity|]. destruct m as [m|]; [|reflexivity].
    cbn. destruct (manifestToImage X m ref repoInfo) as [err|[img dgst]]; reflexivity.
  - destruct (decide (tag = ""%string)) as [_|N]; [|contradiction]. reflexivity.
Qed.

Section Runtime.

Hypothesis OK : ExternalsOK X.

(** C6, as amended: once the v1 session returned the repository data and
    the tags, [fetchWithSession] fails with "No tags available" when the map
    of the tags is empty, whatever tag was asked, and before any image is
    requested.  When the map is not empty, the tag looked up is the asked one
    when one was asked, "latest" when none was asked and the map has it, and
    a tag of the map otherwise; when the map does not have the tag looked up
    the fetch fails with "Tag ... not found", nothing being requested; when
    it has it, the image JSON is pulled for the image id of this tag. *)
Theorem v1_tag_resolution (session : Session X) repoInfo askedTag (s : State X)
    repoData w1 tagsList w2 :
  GetRepositoryData X session (registry.RemoteName repoInfo) (world s) = (inr repoData, w1) ->
  GetRemoteTags X session (registry.Endpoints repoData) (registry.RemoteName repoInfo) w1
  = (inr tagsList, w2) ->
  let s2 := atTags repoInfo repoData tagsList w2 s in
  (size tagsList = 0%nat ->
   fetchWithSession session repoInfo askedTag s =
   (Done (None, Some (errorString ("No tags available for remote repository "
                                   +:+ registry.CanonicalName repoInfo))), s2)) /\
  (size tagsList <> 0%nat ->
   exists tag s3,
     trace s3 = trace s2 /\
     (askedTag <> ""%string -> tag = askedTag) /\
     (askedTag = ""%string -> is_Some (tagsList !! tagpkg.DefaultTag) ->
      tag = tagpkg.DefaultTag) /\
     (askedTag = ""%string -> tagsList !! tagpkg.DefaultTag = None ->
      is_Some (tagsList !! tag)) /\
     match tagsList !! tag with
     | None =>
         fetchWithSession session repoInfo askedTag s =
         (Done (None, Some (errorString ("Tag " +:+ tag +:+ " not found in repository "
                                         +:+ registry.CanonicalName repoInfo))), s3)
     | Some id =>
         exists img repoData',
           registry.ID img = id /\
           registry.Endpoints repoData' = registry.Endpoints repoData /\
           fetchWithSession session repoInfo askedTag s =
           pullImage session repoInfo repoData' img tag s3
     end).
Proof.
  intros H1 H2 s2. rewrite (fetchWithSession_at_tags _ _ _ _ _ _ _ _ H1 H2). fold s2.
  split.
  - intros Hz. destruct (decide _) as [_|Hn]; [reflexivity|lia].
  - intros Hnz. destruct (decide _) as [Hl|_]; [lia|].
    rewrite (bind_Done _ _ _ _ _ (runtime_run _ _)).
    pose proof (mapRange_Permutation X OK tagsList (world s2)) as P.
    destruct (mapRange X tagsList (world s2)) as [visited w3]. cbn [fst snd] in *.
    destruct (chooseTag_run OK tagsList askedTag {| world := w3; trace := trace s2 |} Hnz)
      as (tag & s3 & E & T & A1 & A2 & A3).
    exists tag, s3. split; [exact T|].
    do 3 (split; [assumption|]).
    rewrite (bind_Done _ _ _ _ _ E).
    destruct (tagsList !! tag) as [id|] eqn:Et; [|reflexivity].
    destruct (addTags_lookup visited (registry.ImgList repoData) id) as (t & _ & ->).
    { exists tag. rewrite P. now apply elem_of_map_to_list. }
    eexists _, _. split; [|split]; [| |reflexivity]; reflexivity.
Qed.

(** C8: a tag list that [getRemoteTagList] returns comes with no error and
    is in ascending order of the tag names, compared byte by byte: of two
    elements the later one is never less than the earlier one. *)
Theorem tag_list_sorted_by_name ref (config : @Config X) (s : State X) tl err s' :
  getRemoteTagList ref config s = (Done (Some tl, err), s') ->
  err = None /\
  forall i j a b, (i < j)%nat ->
    types.TagList tl !! i = Some a -> types.TagList tl !! j = Some b ->
    String.ltb (types.Tag b) (types.Tag a) = false /\
    String.leb (types.Tag a) (types.Tag b) = true.
Proof.
  intros H.
  assert (L : exists repoInfo xs acc s0,
            forRange xs (getRemoteTagList_body config repoInfo) acc s0
            = (Done (Break (Some tl, err)), s')).
  { unfold getRemoteTagList, bind, call, ret in H.
    destruct (ResolveRepository X ref (world s)) as [[e|repoInfo] w1];
      cbv beta iota in H; [discriminate|].
    destruct (validateRepoName X _); [discriminate|].
    destruct (LookupPullEndpoints X _ _) as [[e|eps] w2]; cbv beta iota in H; [discriminate|].
    destruct (forRange _ _ _ _) as [[[acc|r]|] s2] eqn:E; inversion H; subst. eauto. }
  destruct L as (repoInfo & xs & acc & s0 & L).
  destruct (getRemoteTagList_loop_sorted _ _ _ _ _ _ _ _ L) as (-> & tags & Etl).
  split; [reflexivity|]. intros i j a b Hij Ha Hb. rewrite Etl in Ha, Hb.
  assert (Hlt : byTagName_Less b a = false).
  { eapply (IsSorted_all byTagName_Less); eauto using byTagName_LessOrder.
    apply (sort_Sort_IsSorted X OK), byTagName_LessOrder. }
  split; [exact Hlt | now apply string_ltb_leb].
Qed.

(** C9: [byAPIVersion.Less] puts an endpoint of a lower version before one
    of a higher version, so a v1 endpoint before a v2 endpoint, and of two
    endpoints of the same version the one whose URL starts with "https://"
    before the one whose URL does not; and the endpoints [getRemoteTagList]
    tries are, in the order in which it tries them, the first ones of the
    sorted list of the endpoints of the repository: none of them is less,
    for this comparison, than one tried before it. *)
Theorem endpoints_tried_in_version_order ref (config : @Config X) repoInfo endpoints
    w1 w (s : State X) r s' :
  ResolveRepository X ref (world s) = (inr repoInfo, w1) ->
  validateRepoName X (registry.LocalName repoInfo) = None ->
  LookupPullEndpoints X (registry.CanonicalName repoInfo) w1 = (inr endpoints, w) ->
  getRemoteTagList ref config s = (r, s') ->
  (forall a b, registry.Version a < registry.Version b ->
     byAPIVersion_Less a b = true /\ byAPIVersion_Less b a = false) /\
  (forall a b, registry.Version a = registry.APIVersion1 ->
     registry.Version b = registry.APIVersion2 ->
     byAPIVersion_Less a b = true /\ byAPIVersion_Less b a = false) /\
  (forall a b, registry.Version a = registry.Version b ->
     strings_HasPrefix (registry.URL a) "https://" = true ->
     strings_HasPrefix (registry.URL b) "https://" = false ->
     byAPIVersion_Less a b = true /\ byAPIVersion_Less b a = false) /\
  exists evs,
    trace s' = trace (atEndpoints ref repoInfo endpoints w s) ++ evs /\
    triedForTags evs `prefix_of` sort_Sort X _ byAPIVersion_Less endpoints /\
    sort_Sort X _ byAPIVersion_Less endpoints ≡ₚ endpoints /\
    (forall i j a b, (i < j)%nat ->
       triedForTags evs !! i = Some a -> triedForTags evs !! j = Some b ->
       byAPIVersion_Less b a = false).
Proof.
  intros H1 H2 H3 H.
  assert (V : forall a b, registry.Version a < registry.Version b ->
                byAPIVersion_Less a b = true /\ byAPIVersion_Less b a = false).
  { intros a b Hv. split.
    - apply byAPIVersion_Less_rank. left. exact Hv.
    - apply byAPIVersion_Less_rank_false. left. exact Hv. }
  split; [exact V|]. split.
  { intros a b Ha Hb. apply V. rewrite Ha, Hb. reflexivity. }
  split.
  { intros a b Hv Ha Hb. split.
    - apply byAPIVersion_Less_rank. right. unfold rank. cbn. rewrite Ha, Hb. lia.
    - apply byAPIVersion_Less_rank_false. right. unfold rank. cbn. rewrite Ha, Hb. lia. }
  rewrite (getRemoteTagList_at_endpoints _ _ _ _ _ _ _ H1 H2 H3) in H.
  destruct (forRange _ _ _ _) as [c s2] eqn:E.
  destruct (getRemoteTagList_loop_tried _ _ _ _ _ _ _ E) as (evs & T & P & _).
  assert (Es : s' = s2) by (destruct c as [[?|?]|]; now inversion H). subst s2.
  exists evs. split; [exact T|]. split; [exact P|].
  split; [apply (sort_Sort_Permutation X OK)|].
  intros i j a b Hij Ha Hb. destruct P as [rest P].
  eapply (IsSorted_all byAPIVersion_Less (sort_Sort X _ byAPIVersion_Less endpoints)).
  - apply byAPIVersion_LessOrder.
  - apply (sort_Sort_IsSorted X OK), byAPIVersion_LessOrder.
  - exact Hij.
  - rewrite P. now apply lookup_app_l_Some.
  - rewrite P. now apply lookup_app_l_Some.
Qed.


End Runtime.

(** C10: in the loop of [getRemoteTagList] an error of [ListTags] at an
    endpoint of version 1, or returned with [fallback], lets the loop go on
    with the next endpoint, which is tried; an error returned without
    [fallback] at an endpoint of another version ends the loop at once with
    this error.  In the loop of [fetchManifest] the version plays no part:
    an error returned without [fallback] ends the loop at once. *)
Theorem tag_listing_passes_v1_errors (ref : reference.Named) (config : @Config X)
    repoInfo e rest acc (s s1 : State X) fallback err :
  (forall tags,
     tryTagList config repoInfo e s = (Done (inr (tags, fallback, Some err)), s1) ->
     (registry.Version e = registry.APIVersion1 \/ fallback = true ->
      forRange (e :: rest) (getRemoteTagList_body config repoInfo) acc s
      = forRange rest (getRemoteTagList_body config repoInfo) (saveError acc err) s1 /\
      forall e' rest' r s',
        rest = e' :: rest' ->
        forRange (e :: rest) (getRemoteTagList_body config repoInfo) acc s = (r, s') ->
        Logged (TryingTagList (registry.CanonicalName repoInfo) e') ∈ trace s') /\
     (registry.Version e <> registry.APIVersion1 -> fallback = false ->
      forRange (e :: rest) (getRemoteTagList_body config repoInfo) acc s
      = (Done (Break (None, Some err)), logged s1 (NotContinuing err)))) /\
  (forall img,
     tryManifest ref config repoInfo e s = (Done (inr (img, fallback, Some err)), s1) ->
     (fallback = true ->
      forRange (e :: rest) (fetchManifest_body ref config repoInfo) acc s
      = forRange rest (fetchManifest_body ref config repoInfo) (saveError acc err) s1) /\
     (fallback = false ->
      forRange (e :: rest) (fetchManifest_body ref config repoInfo) acc s
      = (Done (Break (None, Some err)), logged s1 (NotContinuing err)))).
Proof.
  split.
  - intros tags H.
    assert (Go : registry.Version e = registry.APIVersion1 \/ fallback = true ->
                 forRange (e :: rest) (getRemoteTagList_body config repoInfo) acc s
                 = forRange rest (getRemoteTagList_body config repoInfo)
                     (saveError acc err) s1).
    { intros Hgo. rewrite forRange_cons, getRemoteTagList_body_try, H.
      destruct Hgo as [->| ->]; [now rewrite Z.eqb_refl, orb_true_r | reflexivity]. }
    split.
    + intros Hgo. split; [now apply Go|].
      intros e' rest' r s' -> Hrun. rewrite (Go Hgo), forRange_cons in Hrun.
      destruct (getRemoteTagList_body config repoInfo e' (saveError acc err) s1)
        as [c s2] eqn:Eb.
      destruct (getRemoteTagList_body_emits _ _ _ _ _ _ _ Eb) as (evs1 & T1 & _).
      assert (In2 : Logged (TryingTagList (registry.CanonicalName repoInfo) e') ∈ trace s2).
      { rewrite T1. apply elem_of_app. right. now left. }
      destruct c as [[acc2|res]|]; [|now inversion Hrun; subst..].
      destruct (getRemoteTagList_loop_tried _ _ _ _ _ _ _ Hrun) as (evs & T & _).
      rewrite T. apply elem_of_app. now left.
    + intros Hv Hf. subst fallback.
      rewrite forRange_cons, getRemoteTagList_body_try, H.
      apply Z.eqb_neq in Hv. now rewrite Hv.
  - intros img H. split; intros ->;
      now rewrite forRange_cons, fetchManifest_body_try, H.
Qed.

End Claims.

Section PullClaim.

Context {X : Externals}.
Variables (session : Session X) (repoInfo : registry.RepositoryInfo)
  (repoData : registry.RepositoryData) (img : registry.ImgData).

(** C7: [pullImage], the end of [fetchWithSession], returns; it tries the
    addresses in order, the mirrors first and then the endpoints of the
    repository, each attempt making one request for the image; an attempt
    that fails is passed, one that succeeds ends the attempts, so that the
    endpoints are tried only when no mirror gave the image.  When the last
    attempt succeeds the record of its image is returned; when all the
    addresses were tried and the last attempt failed, the error returned is
    an error built by [fmt.Errorf] whose message ends with the message of
    the error of this last attempt. *)
Theorem image_pulled_from_mirrors_then_endpoints (askedTag : string) (s : State X) :
  exists res s' tried rest os,
    pullImage session repoInfo repoData img askedTag s = (Done res, s') /\
    pullAddresses repoInfo repoData = tried ++ rest /\
    observes (pullAttempt session repoInfo repoData img) tried s os s' /\
    (exists evs, trace s' = trace s ++ evs /\
       imageRequests evs = map (fun a => (registry.ID img, snd a)) tried) /\
    ((exists os' a pulled,
        os = os' ++ [(a, (Some pulled, None))] /\ Forall pullFailed os' /\
        res = (Some (makeRemoteImageInspect (X:=X) repoInfo pulled askedTag ""), None)) \/
     (exists os' a cause prefix,
        rest = [] /\ os = os' ++ [(a, (None, Some cause))] /\ Forall pullFailed os' /\
        res = (None, Some (errorString (prefix +:+ Error (X:=X) cause)))) \/
     (pullAddresses repoInfo repoData = [] /\ os = [] /\
      res = (None, Some (errorString
               ("No such image " +:+ registry.CanonicalName repoInfo +:+ ":" +:+ askedTag))))).
Proof.
  unfold pullImage, pullAddresses.
  destruct (pull_loop session repoInfo repoData img true
              (fun ep _ =>
                 r <- pullImageJSON session (registry.ID img) ep (registry.Tokens repoData) ;;
                 match snd r with
                 | Some err =>
                     emit (Logged (ErrorPullingMirror (registry.CanonicalName repoInfo)
                                     (registry.Tag img) ep err)) ;;;
                     ret (Continue r)
                 | None => ret (Break r)
                 end)
              (fun ep st s => pullFromMirrors_body session repoInfo repoData img ep st s)
              (registry.Mirrors (registry.Index repoInfo)) (None, None) s)
    as (c & s1 & tried & rest & os & E & Hm & Hos & (evs & T & R) & Hc).
  change (pullFromMirrors session repoInfo repoData img (None, None) s = (Done c, s1)) in E.
  rewrite (bind_Done _ _ _ _ _ E).
  destruct c as [st'|r].
  - (* no mirror produced an image *)
    destruct Hc as (-> & Hall & Efo). rewrite app_nil_r in Hm. subst tried.
    assert (Hst : fst st' = None).
    { rewrite Efo. destruct (last os) as [[a p]|] eqn:EL; [|reflexivity]. cbn.
      apply last_Some in EL as (os' & ->). apply Forall_app in Hall as [_ Hl].
      inversion Hl as [|? ? [err Herr] _]; subst. cbn in Herr. now subst. }
    cbn [afterLoop].
    destruct st' as [p0 e0]. cbn in Hst. subst p0. cbn [fst]. symmetry in Efo.
    destruct (pull_loop session repoInfo repoData img false
                (fun ep _ =>
                   r <- pullImageJSON session (registry.ID img) ep (registry.Tokens repoData) ;;
                   match snd r with
                   | Some err =>
                       emit (Logged (ErrorPullingEndpoint (registry.CanonicalName repoInfo)
                                       (registry.Tag img) ep err)) ;;;
                       ret (Continue r)
                   | None => ret (Break r)
                   end)
                (fun ep st s => pullFromEndpoints_body session repoInfo repoData img ep st s)
                (registry.Endpoints repoData) (None, e0) s1)
      as (c2 & s2 & tried2 & rest2 & os2 & E2 & He & Hos2 & (evs2 & T2 & R2) & Hc2).
    change (pullFromEndpoints session repoInfo repoData img (None, e0) s1
            = (Done c2, s2)) in E2.
    rewrite (bind_Done _ _ _ _ _ E2).
    assert (Hobs : observes (pullAttempt session repoInfo repoData img)
                     (map (pair true) (registry.Mirrors (registry.Index repoInfo))
                      ++ map (pair false) tried2) s (os ++ os2) s2)
      by (eapply observes_app; eauto).
    assert (Hreq : exists evs0, trace s2 = trace s ++ evs0 /\
              imageRequests evs0
              = map (fun a => (registry.ID img, snd a))
                  (map (pair true) (registry.Mirrors (registry.Index repoInfo))
                   ++ map (pair false) tried2)).
    { exists (evs ++ evs2). split; [now rewrite T2, T, app_assoc|].
      now rewrite imageRequests_app, R, R2, map_app. }
    destruct c2 as [st2|r2].
    + (* no endpoint produced an image either *)
      destruct Hc2 as (-> & Hall2 & Efo2). rewrite app_nil_r in He. subst tried2.
      cbn [afterLoop].
      destruct (decide (os ++ os2 = [])) as [Hnil|Hne].
      * apply app_eq_nil in Hnil as [-> ->]. cbn in Efo. inversion Efo; subst e0.
        cbn in Efo2. subst st2. cbn. unfold ret.
        pose proof (observes_fst _ _ _ _ _ Hos) as Hm0.
        pose proof (observes_fst _ _ _ _ _ Hos2) as He0. cbn in Hm0, He0.
        symmetry in Hm0, He0. apply fmap_nil_inv in Hm0, He0.
        rewrite Hm0, He0 in *. cbn in Hobs, Hreq.
        eexists _, _, [], [], []. split; [reflexivity|].
        cbn. split; [reflexivity|]. split; [exact Hobs|].
        split; [exact Hreq|]. right. right. auto.
      * destruct (observes_last_failed pullFailed (os ++ os2)) as (os' & [a p] & Eo & Ho' & [cause Hp] & Hl);
          [now apply Forall_app | exact Hne |].
        cbn in Hp. subst p.
        assert (Hlast : from_option snd (None, e0) (last os2) = (None, Some cause)).
        { clear Efo2 E2 Hos2 Hobs. destruct os2 as [|o2 os2 _] using rev_ind.
          - rewrite app_nil_r in Hl. rewrite Hl in Efo. cbn in *. congruence.
          - rewrite app_assoc, last_snoc in Hl. inversion Hl; subst.
            now rewrite last_snoc. }
        assert (Hst2 : st2 = (None, Some cause)) by (rewrite Efo2; exact Hlast).
        clear Efo2. subst st2. cbv beta iota. unfold ret.
        eexists _, _, _, [], (os ++ os2). split; [reflexivity|].
        split; [now rewrite app_nil_r|]. split; [exact Hobs|]. split; [exact Hreq|].
        right. left.
        exists os', a, cause,
          ("Error pulling image (" +:+ registry.Tag img +:+ ") from "
           +:+ registry.CanonicalName repoInfo +:+ ", ").
        repeat split; [exact Eo | exact Ho' |].
        rewrite !string_app_assoc. reflexivity.
    + (* an endpoint produced the image *)
      destruct Hc2 as (os2' & a & pulled & -> & Hall2 & ->). cbn [afterLoop]. unfold ret.
      eexists _, _, _, (map (pair false) rest2), (os ++ os2' ++ [(a, (Some pulled, None))]).
      split; [reflexivity|]. split; [now rewrite He, map_app, app_assoc|].
      split; [exact Hobs|]. split; [exact Hreq|].
      left. exists (os ++ os2'), a, pulled. rewrite app_assoc.
      repeat split. now apply Forall_app.
  - (* a mirror produced the image: the endpoints are not tried *)
    destruct Hc as (os' & a & pulled & -> & Hall & ->). cbn [afterLoop fst].
    unfold bind at 1, ret.
    eexists _, _, (map (pair true) tried),
      (map (pair true) rest ++ map (pair false) (registry.Endpoints repoData)), _.
    split; [reflexivity|]. split; [now rewrite Hm, map_app, app_assoc|].
    split; [exact Hos|]. split; [eauto|].
    left. exists os', a, pulled. repeat split. exact Hall.
Qed.
End PullClaim.

Lemma error_accumulator_invariant_witness :
  twoDownManifests = (Done (Continue refused), snd twoDownManifests) /\
  exists os,
    observes (tryManifest (digested x "sha256:1f") (noConfig twoDown) (repoOf twoDown x))
      (sc_endpoints twoDown) (start twoDown) os (snd twoDownManifests) /\
    discardNoSupportErrors refused = existsb (fun eo => realError (snd eo)) os.
Proof.
  assert (E : twoDownManifests = (Done (Continue refused), snd twoDownManifests))
    by (vm_compute; reflexivity).
  split; [exact E|].
  destruct (proj1 (error_accumulator_invariant (digested x "sha256:1f") (noConfig twoDown)
                     (repoOf twoDown x) (sc_endpoints twoDown) refused (start twoDown)
                     (snd twoDownManifests)) E)
    as (os & Hos & _ & Hd & _).
  exists os. split; [exact Hos | exact Hd].
Defined.

Lemma registries_tried_in_order_witness :
  IsReferenceFullyQualified (demo twoRegistries) (unqualified "library/x") = false /\
  RegistryList (demo twoRegistries) = ["down.io"%string; "docker.io"%string] /\
  exists res s',
    Inspect (unqualified "library/x") (noConfig twoRegistries) (start twoRegistries)
    = (Done res, s') /\
    triedInOrder (tryRegistry (unqualified "library/x") (noConfig twoRegistries))
      (unqualified "library/x") (RegistryList (demo twoRegistries))
      (start twoRegistries) res s'.
Proof.
  split; [reflexivity|]. split; [reflexivity|].
  destruct (registries_tried_in_order (demo_OK twoRegistries) (unqualified "library/x")
              (noConfig twoRegistries) (start twoRegistries)) as [_ H].
  destruct H as [H _]; [reflexivity | discriminate | exact H].
Defined.

Lemma v1_Fetch_digest_no_support_witness :
  Fetch (v1ManifestFetcher (v1At "https://index.docker.io") (noConfig healthy)
           (repoOf healthy x))
    (digested x "sha256:1f") (start healthy)
  = (Done (None, true, Some noSupport), start healthy) /\
  isNoSupport noSupport = true.
Proof.
  apply (v1_Fetch_digest_no_support (v1At "https://index.docker.io") (noConfig healthy)
           (repoOf healthy x) (digested x "sha256:1f") "sha256:1f"%string (start healthy)).
  reflexivity.
Defined.

Lemma exhausted_endpoints_return_last_error_witness :
  sc_endpoints emptyRepo = [v1At "https://index.docker.io"] /\
  exists s',
    fetchManifest (digested x "sha256:1f") (noConfig emptyRepo) (start emptyRepo)
    = (Done (None, Some noSupport), s').
Proof.
  split; [reflexivity|].
  destruct (exhausted_endpoints_return_last_error (demo_OK emptyRepo)
              (digested x "sha256:1f") (noConfig emptyRepo) (repoOf emptyRepo x)
              (sc_endpoints emptyRepo) tt tt (start emptyRepo)
              eq_refl eq_refl eq_refl) as (_ & _ & H & _).
  apply (H (v1At "https://index.docker.io") None true noSupport
           (snd (tryManifest (digested x "sha256:1f") (noConfig emptyRepo)
                   (repoOf emptyRepo x) (v1At "https://index.docker.io")
                   (atEndpoints (X:=demo emptyRepo) (digested x "sha256:1f")
                      (repoOf emptyRepo x) (sc_endpoints emptyRepo) tt (start emptyRepo)))));
    [reflexivity | reflexivity | vm_compute; reflexivity].
Defined.

Lemma v2_default_tag_witness :
  defaultOrFirstTag ["1.0"%string; "latest"%string; "2.0"%string] = tagpkg.DefaultTag /\
  manifestsByTag
    (trace (snd (fetchWithRepository (X:=demo healthy) tt (repoOf healthy x)
                   (unqualified x) (start healthy))))
  = ["latest"%string].
Proof.
  destruct (v2_default_tag (X:=demo healthy) tt (repoOf healthy x) (unqualified x)
              (start healthy) tt tt ["1.0"%string; "latest"%string; "2.0"%string] tt
              eq_refl eq_refl eq_refl eq_refl) as (H1 & _ & H3 & _).
  split.
  - apply H1. vm_compute. right. left.
  - rewrite H3 by (vm_compute; discriminate). vm_compute. reflexivity.
Defined.

Lemma v1_tag_resolution_witness :
  exists tag (s3 : State (demo healthy)),
    tag = tagpkg.DefaultTag /\
    trace s3
    = trace (atTags (X:=demo healthy) (repoOf healthy x)
               {| registry.ImgList := ∅;
                  registry.Endpoints := sc_repoEndpoints healthy;
                  registry.Tokens := [] |}
               (<["1.0"%string := "id10"%string]> (<["latest"%string := "id77"%string]> ∅))
               tt (start healthy)).
Proof.
  destruct (v1_tag_resolution (X:=demo healthy) (demo_OK healthy) tt (repoOf healthy x)
              ""%string (start healthy)
              {| registry.ImgList := ∅;
                 registry.Endpoints := sc_repoEndpoints healthy;
                 registry.Tokens := [] |}
              tt
              (<["1.0"%string := "id10"%string]> (<["latest"%string := "id77"%string]> ∅))
              tt eq_refl eq_refl) as [_ H].
  destruct H as (tag & s3 & T & _ & D & _); [vm_compute; discriminate|].
  exists tag, s3. split; [|exact T].
  apply D; [reflexivity|]. exists "id77"%string. vm_compute. reflexivity.
Defined.

Lemma tag_list_sorted_by_name_witness :
  exists tl,
    fst (tagListing healthy) = Done (Some tl, None) /\
    map types.Tag (types.TagList tl) = ["1.0"%string; "2.0"%string; "latest"%string] /\
    forall i j a b, (i < j)%nat ->
      types.TagList tl !! i = Some a -> types.TagList tl !! j = Some b ->
      String.ltb (types.Tag b) (types.Tag a) = false /\
      String.leb (types.Tag a) (types.Tag b) = true.
Proof.
  destruct (tagListing healthy) as [r s'] eqn:E.
  assert (Er : r = Done (Some {| types.Name := x;
                                 types.TagList :=
                                   [{| types.Tag := "1.0"; types.ImageID := "" |};
                                    {| types.Tag := "2.0"; types.ImageID := "" |};
                                    {| types.Tag := "latest"; types.ImageID := "" |}] |},
                         None)).
  { change r with (fst (r, s')). rewrite <- E. vm_compute. reflexivity. }
  subst r. eexists. split; [reflexivity|]. split; [reflexivity|].
  exact (proj2 (tag_list_sorted_by_name (X:=demo healthy) (demo_OK healthy) (unqualified x)
                  (noConfig healthy) (start healthy) _ None s' E)).
Defined.

Lemma endpoints_tried_in_version_order_witness :
  sc_endpoints twoDown
  = [v2At "https://registry-1.docker.io"; v1At "https://index.docker.io"] /\
  triedForTags (trace (snd (tagListing twoDown)))
  = [v1At "https://index.docker.io"; v2At "https://registry-1.docker.io"] /\
  exists evs,
    trace (snd (tagListing twoDown))
    = trace (atEndpoints (X:=demo twoDown) (unqualified x) (repoOf twoDown x)
               (sc_endpoints twoDown) tt (start twoDown)) ++ evs /\
    forall i j a b, (i < j)%nat ->
      triedForTags evs !! i = Some a -> triedForTags evs !! j = Some b ->
      byAPIVersion_Less b a = false.
Proof.
  split; [reflexivity|]. split; [vm_compute; reflexivity|].
  destruct (endpoints_tried_in_version_order (X:=demo twoDown) (demo_OK twoDown)
              (unqualified x) (noConfig twoDown) (repoOf twoDown x) (sc_endpoints twoDown)
              tt tt (start twoDown) (fst (tagListing twoDown)) (snd (tagListing twoDown))
              eq_refl eq_refl eq_refl (surjective_pairing _))
    as (_ & _ & _ & evs & T & _ & _ & H).
  exists evs. split; [exact T | exact H].
Defined.

Lemma tag_listing_passes_v1_errors_witness :
  let body := getRemoteTagList_body (noConfig twoDown) (repoOf twoDown x) in
  let s1 := snd (tryTagList (noConfig twoDown) (repoOf twoDown x)
                   (v1At "https://index.docker.io") (start twoDown)) in
  forRange [v1At "https://index.docker.io"; v2At "https://registry-1.docker.io"]
    body initialAcc (start twoDown)
  = forRange [v2At "https://registry-1.docker.io"] body
      (saveError initialAcc tlsError) s1.
Proof.
  cbv zeta.
  destruct (tag_listing_passes_v1_errors (X:=demo twoDown) (unqualified x)
              (noConfig twoDown) (repoOf twoDown x) (v1At "https://index.docker.io")
              [v2At "https://registry-1.docker.io"] initialAcc (start twoDown)
              (snd (tryTagList (noConfig twoDown) (repoOf twoDown x)
                      (v1At "https://index.docker.io") (start twoDown)))
              false tlsError) as [H _].
  destruct (H [] ltac:(vm_compute; reflexivity)) as [Hgo _].
  exact (proj1 (Hgo (or_introl eq_refl))).
Defined.

Lemma image_pulled_from_mirrors_then_endpoints_witness :
  let repoData := {| registry.ImgList := ∅;
                     registry.Endpoints := sc_repoEndpoints healthy;
                     registry.Tokens := [] |} in
  let img := {| registry.ID := "id77"; registry.Tag := "latest"; registry.Checksum := "" |} in
  exists res s' tried rest os,
    pullImage (X:=demo healthy) tt (repoOf healthy x) repoData img "latest" (start healthy)
    = (Done res, s') /\
    pullAddresses (repoOf healthy x) repoData = tried ++ rest /\
    observes (pullAttempt (X:=demo healthy) tt (repoOf healthy x) repoData img)
      tried (start healthy) os s'.
Proof.
  cbv zeta.
  destruct (image_pulled_from_mirrors_then_endpoints (X:=demo healthy) tt (repoOf healthy x)
              {| registry.ImgList := ∅;
                 registry.Endpoints := sc_repoEndpoints healthy;
                 registry.Tokens := [] |}
              {| registry.ID := "id77"; registry.Tag := "latest"; registry.Checksum := "" |}
              "latest"%string (start healthy))
    as (res & s' & tried & rest & os & E & A & O & _).
  exists res, s', tried, rest, os. auto.
Defined.

(** C5, as the specification states it, fails on the tags ["", "1.0"]: they
    are not empty and do not contain "latest", yet no manifest is fetched,
    not even for their first element, and the fetch fails with "No tags
    available". *)
Lemma first_tag_blank :
  let tags := [""%string; "1.0"%string] in
  let run := fetchWithRepository (X:=demo blankTag) tt (repoOf blankTag x)
               (unqualified x) (start blankTag) in
  sc_v2tags blankTag = inr tags /\
  tags <> [] /\ (tagpkg.DefaultTag ∉ tags) /\
  fst run = Done (None, Some (errorString
                    "No tags available for remote repository docker.io/library/x")) /\
  manifestsByTag (trace (snd run)) = [] /\
  manifestsByTag (trace (snd run)) <> [hd ""%string tags].
Proof.
  cbv zeta. split; [reflexivity|]. split; [discriminate|]. split.
  { rewrite !elem_of_cons, elem_of_nil. intros [H|[H|[]]]; discriminate. }
  split; [vm_compute; reflexivity|].
  assert (E : manifestsByTag
                (trace (snd (fetchWithRepository (X:=demo blankTag) tt (repoOf blankTag x)
                               (unqualified x) (start blankTag)))) = [])
    by (vm_compute; reflexivity).
  split; [exact E|]. rewrite E. discriminate.
Qed.

(** C6, as the specification states it, fails on the tag "v1" asked of a
    repository whose map of tags is empty: the tag is absent from the map,
    yet the error is "No tags available", not "Tag v1 not found". *)
Lemma explicit_tag_of_empty_repository :
  let run := fetchWithSession (X:=demo emptyRepo) tt (repoOf emptyRepo x) "v1"
               (start emptyRepo) in
  sc_v1tags emptyRepo = inr ∅ /\
  (∅ : gmap string string) !! "v1"%string = None /\
  fst run = Done (None, Some (errorString
                    "No tags available for remote repository docker.io/library/x")) /\
  fst run <> Done (None, Some (errorString
                     "Tag v1 not found in repository docker.io/library/x")).
Proof.
  cbv zeta. split; [reflexivity|]. split; [reflexivity|].
  assert (E : fst (fetchWithSession (X:=demo emptyRepo) tt (repoOf emptyRepo x) "v1"
                     (start emptyRepo))
              = Done (None, Some (errorString
                        "No tags available for remote repository docker.io/library/x")))
    by (vm_compute; reflexivity).
  split; [exact E|]. rewrite E. discriminate.
Qed.

(** * More of the code *)

(** ** Partial correctness *)

Section MoreFacts.

Context {X : Externals}.

Lemma yields_ret {A : Type} (Q : A -> Prop) (a : A) : Q a -> yields (X:=X) Q (ret a).
Proof. intros H s a' s' E. inversion E; subst. exact H. Qed.

Lemma yields_bind {A B : Type} (Q : A -> Prop) (R : B -> Prop) (m : M X A) k :
  yields Q m -> (forall a, Q a -> yields R (k a)) -> yields R (bind m k).
Proof.
  intros Hm Hk s b s' E. apply bind_inv in E as (a & s1 & E1 & E2).
  exact (Hk a (Hm _ _ _ E1) _ _ _ E2).
Qed.

Lemma yields_bind_any {A B : Type} (R : B -> Prop) (m : M X A) k :
  (forall a, yields R (k a)) -> yields R (bind m k).
Proof.
  intros Hk s b s' E. apply bind_inv in E as (a & s1 & E1 & E2).
  exact (Hk a _ _ _ E2).
Qed.

Lemma yields_impl {A : Type} (Q R : A -> Prop) (m : M X A) :
  (forall a, Q a -> R a) -> yields Q m -> yields R m.
Proof. intros H Hm s a s' E. exact (H _ (Hm _ _ _ E)). Qed.

Lemma yields_panic {A : Type} (Q : A -> Prop) : yields (X:=X) Q panic.
Proof. intros s a s' E. discriminate. Qed.

(** A loop that was left by [Break] went through a prefix of the list and
    was left at the next element. *)
Lemma forRange_Break_inv {A S R : Type} (xs : list A) (body : A -> S -> M X (Ctl S R))
    st s r s' :
  forRange xs body st s = (Done (Break r), s') ->
  exists tried x rest st1 s1,
    xs = tried ++ x :: rest /\
    forRange tried body st s = (Done (Continue st1), s1) /\
    body x st1 s1 = (Done (Break r), s').
Proof.
  revert st s. induction xs as [|x xs IH]; intros st s H.
  - discriminate.
  - rewrite forRange_cons in H.
    destruct (body x st s) as [[[st1|r1]|] s1] eqn:E; [| |discriminate].
    + destruct (IH _ _ H) as (tried & y & rest & st2 & s2 & -> & Ht & Hb).
      exists (x :: tried), y, rest, st2, s2. split; [reflexivity|]. split; [|exact Hb].
      rewrite forRange_cons, E. exact Ht.
    + inversion H; subst. exists [], x, xs, st, s. repeat split. exact E.
Qed.

(** What every iteration that goes on establishes holds after a loop that
    made one iteration at least and was not left by [Break]. *)
Lemma forRange_Continue_inv {A S R : Type} (J K : S -> Prop) (xs : list A)
    (body : A -> S -> M X (Ctl S R)) st s st' s' :
  (forall x st s st' s', J st -> body x st s = (Done (Continue st'), s') -> J st' /\ K st') ->
  J st -> xs <> [] ->
  forRange xs body st s = (Done (Continue st'), s') -> K st'.
Proof.
  intros Hb. revert st s. induction xs as [|x xs IH]; intros st s HJ Hne H; [easy|].
  rewrite forRange_cons in H.
  destruct (body x st s) as [[[st1|r1]|] s1] eqn:E; [|discriminate..].
  destruct (Hb _ _ _ _ _ HJ E) as [HJ1 HK1].
  destruct xs as [|y ys].
  - cbn in H. unfold ret in H. inversion H; subst. exact HK1.
  - eapply IH; [exact HJ1 | discriminate | exact H].
Qed.

Lemma prefix_spec (p s : string) :
  String.prefix p s = true <-> exists post, s = p +:+ post.
Proof.
  revert s. induction p as [|a p IH]; intros s.
  - split; [|now destruct s]. intros _. exists s. reflexivity.
  - destruct s as [|b s].
    + split; [discriminate|]. intros [post H]. discriminate.
    + cbn [String.prefix]. destruct (ascii_dec a b) as [->|N].
      * rewrite IH. split; intros [post H]; exists post.
        -- change (String b s = String b (p +:+ post)). now rewrite H.
        -- change (String b s = String b (p +:+ post)) in H. now inversion H.
      * split; [discriminate|]. intros [post H].
        change (String b s = String a (p +:+ post)) in H. inversion H. congruence.
Qed.

(** [strings.Contains]: the string holds an occurrence of the substring. *)
Lemma strings_Contains_spec (s sub : string) :
  strings_Contains s sub = true <-> exists pre post, s = pre +:+ sub +:+ post.
Proof.
  split.
  - induction s as [|c s IH]; cbn [strings_Contains]; intros H;
      apply orb_true_iff in H as [H|H].
    + apply prefix_spec in H as [post ->]. exists ""%string, post. reflexivity.
    + discriminate.
    + apply prefix_spec in H as [post ->]. exists ""%string, post. reflexivity.
    + destruct (IH H) as (pre & post & ->). exists (String c pre), post. reflexivity.
  - intros (pre & post & ->). induction pre as [|c pre IH].
    + change (strings_Contains (sub +:+ post) sub = true).
      destruct (sub +:+ post) eqn:E; cbn [strings_Contains]; apply orb_true_iff; left;
        apply prefix_spec; exists post; now rewrite E.
    + change (strings_Contains (String c (pre +:+ sub +:+ post)) sub = true).
      cbn [strings_Contains]. rewrite IH. apply orb_true_r.
Qed.

End MoreFacts.

(** ** What the fetchers return *)

Section Fetched.

Context {X : Externals}.

Lemma pullImage_yields session repoInfo repoData img askedTag :
  yields (fun res =>
            (exists pulled,
               res = (Some (makeRemoteImageInspect (X:=X) repoInfo pulled askedTag ""), None))
            \/ (exists err, res = (None, Some err)))
    (pullImage (X:=X) session repoInfo repoData img askedTag).
Proof.
  intros s a s' H. unfold pullImage in H.
  apply bind_inv in H as (c & s1 & _ & H). apply bind_inv in H as (c2 & s2 & _ & H).
  destruct (afterLoop c2) as [[p|] [e|]]; unfold ret in H; inversion H; eauto.
Qed.

Lemma chooseTag_asked tagsList askedTag (s : State X) tag s' :
  chooseTag tagsList askedTag s = (Done tag, s') -> askedTag <> ""%string -> tag = askedTag.
Proof.
  intros H N. unfold chooseTag in H. cbv zeta in H.
  destruct (decide (askedTag = ""%string)) as [E|_]; [contradiction|].
  destruct (decide (askedTag = ""%string)) as [E|_]; [contradiction|].
  unfold ret in H. now inversion H.
Qed.

Lemma fetchWithSession_yields session repoInfo askedTag :
  yields (fun res =>
            (exists pulled tag,
               res = (Some (makeRemoteImageInspect (X:=X) repoInfo pulled tag ""), None) /\
               (askedTag <> ""%string -> tag = askedTag))
            \/ (exists err, res = (None, Some err)))
    (fetchWithSession (X:=X) session repoInfo askedTag).
Proof.
  intros s a s' H. unfold fetchWithSession in H.
  apply bind_inv in H as (r & s1 & _ & H). destruct r as [err|repoData].
  { destruct (strings_Contains _ _); unfold ret in H; inversion H; eauto. }
  apply bind_inv in H as (u & s2 & _ & H). apply bind_inv in H as (r & s3 & _ & H).
  destruct r as [err|tagsList].
  { apply bind_inv in H as (u' & s4 & _ & H). unfold ret in H; inversion H; eauto. }
  destruct (decide _) as [_|_]; [unfold ret in H; inversion H; eauto|].
  apply bind_inv in H as (visited & s4 & _ & H). cbv zeta in H.
  apply bind_inv in H as (tag & s5 & Hc & H).
  destruct (tagsList !! tag) as [id|]; [|unfold ret in H; inversion H; eauto].
  cbn [registry.ImgList] in H.
  destruct (addTags _ _ !! id) as [img|]; [|discriminate].
  apply pullImage_yields in H as [[pulled ->]|[err ->]]; [left|eauto].
  exists pulled, tag. split; [reflexivity|]. intros N. exact (chooseTag_asked _ _ _ _ _ Hc N).
Qed.

Lemma fetchWithRepository_yields repo repoInfo ref :
  yields (fun res =>
            (exists r, res = (Some r, None) /\ builtFor (X:=X) repoInfo ref r)
            \/ (exists err, res = (None, Some err)))
    (fetchWithRepository (X:=X) repo repoInfo ref).
Proof.
  intros s a s' H. unfold fetchWithRepository in H.
  apply bind_inv in H as (r & s1 & _ & H). destruct r as [err|manSvc].
  { unfold ret in H; inversion H; eauto. }
  apply bind_inv in H as (f & s2 & Hf & H).
  assert (F : match f with
              | inr (_, _, tag, _) =>
                  (is_Some (reference.Digest ref) -> tag = ""%string) /\
                  (reference.Digest ref = None -> forall t, reference.Tag ref = Some t ->
                     t <> ""%string -> tag = t)
              | inl _ => True
              end).
  { destruct (reference.Digest ref) as [dgst|].
    - unfold fetchByDigest in Hf. apply bind_inv in Hf as (r & s3 & _ & Hf).
      destruct r as [[|] [e|]].
      + apply bind_inv in Hf as (g & s4 & _ & Hf). unfold ret in Hf; inversion Hf. easy.
      + apply bind_inv in Hf as (g & s4 & _ & Hf). unfold ret in Hf; inversion Hf. easy.
      + unfold ret in Hf; inversion Hf. easy.
      + unfold ret in Hf; inversion Hf. easy.
    - destruct (reference.Tag ref) as [tag|].
      + apply bind_inv in Hf as (r & s3 & _ & Hf). destruct r as [[|] [e|]];
          try (unfold ret in Hf; inversion Hf; easy).
        unfold fetchByTag in Hf. apply bind_inv in Hf as (g & s4 & _ & Hf).
        unfold ret in Hf; inversion Hf. split; [intros [? ?]; discriminate|].
        intros _ t [= ->] _. reflexivity.
      + apply bind_inv in Hf as (r & s3 & _ & Hf). destruct r as [e|tagList];
          [unfold ret in Hf; inversion Hf; easy|].
        cbv zeta in Hf. destruct (decide _); [unfold ret in Hf; inversion Hf; easy|].
        unfold fetchByTag in Hf. apply bind_inv in Hf as (g & s4 & _ & Hf).
        unfold ret in Hf; inversion Hf. split; [intros [? ?]; discriminate|].
        intros _ t [=]. }
  destruct f as [err|[[[[m|] [e|]] tag] tagOrDigest]];
    try (unfold ret in H; inversion H; eauto; fail).
  destruct (manifestToImage X m ref repoInfo) as [err|[img dgst]];
    unfold ret in H; inversion H; [eauto|].
  left. eexists. split; [reflexivity|]. exists img, tag, dgst. split; [reflexivity|exact F].
Qed.

(** A fetcher made for [repoInfo] returns a record built for it and no
    error, or an error and no record. *)
Lemma Fetch_yields endpoint config repoInfo fetcher ref :
  newManifestFetcher (X:=X) endpoint repoInfo config = inr fetcher ->
  yields (fun r =>
            (exists rec, fst (fst r) = Some rec /\ snd r = None /\
                         builtFor (X:=X) repoInfo ref rec)
            \/ (fst (fst r) = None /\ is_Some (snd r)))
    (Fetch fetcher ref).
Proof.
  intros Hn. unfold newManifestFetcher in Hn.
  assert (Hf : fetcher = v2ManifestFetcher endpoint config repoInfo
               \/ fetcher = v1ManifestFetcher endpoint config repoInfo).
  { destruct (_ =? _)%Z; [inversion Hn; auto|]. destruct (_ =? _)%Z; [inversion Hn; auto|].
    discriminate. }
  clear Hn. intros s a s' H. destruct Hf as [-> | ->]; cbn [Fetch] in H.
  - unfold v2ManifestFetcher_Fetch in H. apply bind_inv in H as (r & s1 & _ & H).
    destruct r as [err|repo].
    { apply bind_inv in H as (u & s2 & _ & H). unfold ret in H; inversion H. right. cbn. eauto. }
    apply bind_inv in H as (res & s2 & Hr & H).
    apply fetchWithRepository_yields in Hr as [(rec & -> & B)|[err ->]]; cbn [snd fst] in H.
    + unfold ret in H; inversion H. left. exists rec. cbn. auto.
    + destruct (ContinueOnError X err).
      * apply bind_inv in H as (u & s3 & _ & H). unfold ret in H; inversion H. right. cbn. eauto.
      * unfold ret in H; inversion H. right. cbn. eauto.
  - unfold v1ManifestFetcher_Fetch in H.
    destruct (reference.Digest ref) as [dgst|] eqn:Ed.
    { unfold ret in H; inversion H. right. cbn. eauto. }
    cbv zeta in H. apply bind_inv in H as (r & s1 & _ & H). destruct r as [err|tlsConfig].
    { unfold ret in H; inversion H. right. cbn. eauto. }
    apply bind_inv in H as (r & s2 & _ & H). destruct r as [err|v1Endpoint].
    { apply bind_inv in H as (u & s3 & _ & H). unfold ret in H; inversion H. right. cbn. eauto. }
    apply bind_inv in H as (r & s3 & _ & H). destruct r as [err|session].
    { apply bind_inv in H as (u & s4 & _ & H). unfold ret in H; inversion H. right. cbn. eauto. }
    apply bind_inv in H as (res & s4 & Hr & H).
    apply fetchWithSession_yields in Hr as [(pulled & tag & -> & T)|[err ->]];
      unfold ret in H; inversion H; [left|right; cbn; eauto].
    eexists. cbn. split; [reflexivity|]. split; [reflexivity|].
    exists pulled, tag, ""%string. split; [reflexivity|]. split.
    + rewrite Ed. intros [? ?]; discriminate.
    + intros _ t Et N. rewrite Et in T. exact (T N).
Qed.

Lemma fetchManifest_body_yields ref (config : @Config X) repoInfo endpoint acc :
  yields (fun c => match c with
                   | Continue _ => True
                   | Break res =>
                       (exists rec, res = (Some rec, None) /\ builtFor (X:=X) repoInfo ref rec)
                       \/ (exists err, res = (None, Some err))
                   end)
    (fetchManifest_body ref config repoInfo endpoint acc).
Proof.
  intros s c s' H. unfold fetchManifest_body in H.
  apply bind_inv in H as (u & s1 & _ & H).
  destruct (newManifestFetcher endpoint repoInfo config) as [err|fetcher] eqn:En.
  { unfold ret in H; inversion H. exact I. }
  apply bind_inv in H as ([[img fb] err] & s2 & Hr & H).
  apply (Fetch_yields _ _ _ _ ref En) in Hr. cbn [fst snd] in Hr.
  destruct Hr as [(rec & -> & -> & B)|[-> [e ->]]].
  - unfold ret in H; inversion H. left. eauto.
  - destruct fb.
    + unfold ret in H; inversion H. exact I.
    + apply bind_inv in H as (u' & s3 & _ & H). unfold ret in H; inversion H. eauto.
Qed.

Lemma getRemoteTagList_body_yields config repoInfo endpoint acc :
  yields (fun c => match c with
                   | Continue _ => True
                   | Break res =>
                       (exists tl, res = (Some tl, None) /\
                          types.Name tl = registry.CanonicalName repoInfo)
                       \/ (exists err, res = (None, Some err))
                   end)
    (getRemoteTagList_body (X:=X) config repoInfo endpoint acc).
Proof.
  intros s c s' H. unfold getRemoteTagList_body in H.
  apply bind_inv in H as (u & s1 & _ & H).
  destruct (newTagLister endpoint repoInfo config) as [err|lister].
  { unfold ret in H; inversion H. exact I. }
  apply bind_inv in H as ([[tags fb] [err|]] & s2 & _ & H).
  - destruct (fb || _).
    + unfold ret in H; inversion H. exact I.
    + apply bind_inv in H as (u' & s3 & _ & H). unfold ret in H; inversion H. eauto.
  - unfold ret in H; inversion H. left. eexists. split; reflexivity.
Qed.

Lemma forRange_Break_yields {A S R : Type} (P : R -> Prop) (xs : list A)
    (body : A -> S -> M X (Ctl S R)) st s r s' :
  (forall x st, yields (fun c => match c with Continue _ => True | Break r => P r end)
                  (body x st)) ->
  forRange xs body st s = (Done (Break r), s') -> P r.
Proof.
  intros Hb H. apply forRange_Break_inv in H as (tried & x & rest & st1 & s1 & _ & _ & H).
  exact (Hb _ _ _ _ _ H).
Qed.

End Fetched.

(** ** Results of the orchestrators *)

Section Orchestrators.

Context {X : Externals}.

Lemma fetchManifest_result ref (config : @Config X) s res s' :
  fetchManifest ref config s = (Done res, s') ->
  (exists err, res = (None, Some err)) \/
  (exists rec repoInfo,
     res = (Some rec, None) /\
     fst (ResolveRepository X ref (world s)) = inr repoInfo /\
     builtFor (X:=X) repoInfo ref rec).
Proof.
  intros H. unfold fetchManifest in H.
  rewrite (bind_Done _ _ _ _ _ (call_run _ _ _)) in H.
  destruct (fst (ResolveRepository X ref (world s))) as [err|repoInfo] eqn:Er.
  { unfold ret in H; inversion H; eauto. }
  destruct (validateRepoName X _) as [err|]; [unfold ret in H; inversion H; eauto|].
  apply bind_inv in H as (r & s1 & _ & H). destruct r as [err|endpoints].
  { unfold ret in H; inversion H; eauto. }
  apply bind_inv in H as (c & s2 & Hc & H). destruct c as [acc|result].
  { unfold ret in H; inversion H; eauto. }
  unfold ret in H; inversion H; subst.
  apply (forRange_Break_yields
           (fun res => (exists rec, res = (Some rec, None) /\ builtFor (X:=X) repoInfo ref rec)
                       \/ (exists err, res = (None, Some err)))) in Hc.
  - destruct Hc as [(rec & -> & B)|E]; [right; eauto|left; exact E].
  - intros e acc. apply fetchManifest_body_yields.
Qed.

Lemma getRemoteTagList_result ref (config : @Config X) s res s' :
  getRemoteTagList ref config s = (Done res, s') ->
  (exists err, res = (None, Some err)) \/
  (exists tl repoInfo,
     res = (Some tl, None) /\
     fst (ResolveRepository X ref (world s)) = inr repoInfo /\
     types.Name tl = registry.CanonicalName repoInfo).
Proof.
  intros H. unfold getRemoteTagList in H.
  rewrite (bind_Done _ _ _ _ _ (call_run _ _ _)) in H.
  destruct (fst (ResolveRepository X ref (world s))) as [err|repoInfo] eqn:Er.
  { unfold ret in H; inversion H; eauto. }
  destruct (validateRepoName X _) as [err|]; [unfold ret in H; inversion H; eauto|].
  apply bind_inv in H as (r & s1 & _ & H). destruct r as [err|endpoints].
  { unfold ret in H; inversion H; eauto. }
  cbv zeta in H. apply bind_inv in H as (c & s2 & Hc & H). destruct c as [acc|result].
  { unfold ret in H; inversion H; eauto. }
  unfold ret in H; inversion H; subst.
  apply (forRange_Break_yields
           (fun res => (exists tl, res = (Some tl, None) /\
                          types.Name tl = registry.CanonicalName repoInfo)
                       \/ (exists err, res = (None, Some err)))) in Hc.
  - destruct Hc as [(tl & -> & B)|E]; [right; eauto|left; exact E].
  - intros e acc. apply getRemoteTagList_body_yields.
Qed.

(** The loop of [Inspect] and the one of [ListRemoteTags], for a function
    [fetch] that returns a value or an error. *)
Lemma registry_loop_valueOrError {A : Type} (fetch : reference.Named -> M X (Result A))
    (body : string -> Result A -> M X (Ctl (Result A) (Result A))) ref :
  (forall fqr, yields valueOrError (fetch fqr)) ->
  (forall r st,
     body r st =
     match FullyQualifyReferenceWith X r ref with
     | inl _err =>
         emit (Logged (FailedToQualify (reference.Name ref) r _err)) ;;;
         ret (Continue (fst st, Some _err))
     | inr fqr =>
         res <- fetch fqr ;;
         match snd res with
         | None => ret (Break (fst res, None))
         | Some _ => ret (Continue res)
         end
     end) ->
  forall rs, rs <> [] ->
    yields (fun c => valueOrError (afterLoop c)) (forRange rs body (None, None)).
Proof.
  intros Hf Hb rs Hne s c s' H. destruct c as [st|res]; cbn [afterLoop].
  - right.
    assert (K : fst st = None /\ is_Some (snd st)).
    { apply (forRange_Continue_inv (fun st => fst st = None)
               (fun st => fst st = None /\ is_Some (snd st))) in H; [exact H| |reflexivity|exact Hne].
      intros r st0 s0 st1 s1 J E. rewrite Hb in E.
      destruct (FullyQualifyReferenceWith X r ref) as [err|fqr].
      - apply bind_inv in E as (u & s2 & _ & E). unfold ret in E; inversion E. cbn. eauto.
      - apply bind_inv in E as (res & s2 & Hr & E). apply Hf in Hr.
        destruct Hr as [[a ->]|[err ->]]; cbn [snd fst] in E; unfold ret in E; inversion E.
        cbn. eauto. }
    destruct st as [v e]. cbn in K. destruct K as [-> [err ->]]. eauto.
  - apply forRange_Break_inv in H as (tried & r & rest & st1 & s1 & _ & _ & H).
    rewrite Hb in H. destruct (FullyQualifyReferenceWith X r ref) as [err|fqr].
    + apply bind_inv in H as (u & s2 & _ & H). unfold ret in H; inversion H.
    + apply bind_inv in H as (res' & s2 & Hr & H). apply Hf in Hr.
      destruct Hr as [[a ->]|[err ->]]; cbn [snd fst] in H; unfold ret in H; inversion H.
      left. eauto.
Qed.

Lemma makeRemoteImageInspect_lists repoInfo img tag dgst :
  let r := makeRemoteImageInspect (X:=X) repoInfo img tag dgst in
  types.Registry r = registry.Name (registry.Index repoInfo) /\
  (length (types.RepoTags r) <= 1)%nat /\
  (length (types.RepoDigests r) <= 1)%nat /\
  (tag = ""%string -> types.RepoTags r = []) /\
  (forall t, t ∈ types.RepoTags r -> WithTag X (registry.CanonicalName repoInfo) tag = inr t) /\
  (forall d, d ∈ types.RepoDigests r -> d = dgst /\ Digest_Validate X dgst = None).
Proof.
  cbv zeta. unfold makeRemoteImageInspect. cbn.
  split; [reflexivity|]. split; [|split; [|split; [|split]]].
  - destruct (decide _); [destruct (WithTag X _ _)|]; cbn; lia.
  - destruct (Digest_Validate X dgst); cbn; lia.
  - intros ->. destruct (decide _) as [N|_]; [contradiction|reflexivity].
  - intros t. destruct (decide _); [destruct (WithTag X _ _)|]; intros Ht.
    + inversion Ht.
    + apply list_elem_of_singleton in Ht. now subst.
    + inversion Ht.
  - intros d. destruct (Digest_Validate X dgst); intros Hd.
    + inversion Hd.
    + apply list_elem_of_singleton in Hd. now subst.
Qed.

(** X1: a record that [fetchManifest] returns comes with no error and was
    built by [makeRemoteImageInspect] for the repository the reference
    resolved to: its field [Registry] is the name of the index of this
    repository, it has one tag at most and one digest at most, no tag when
    the reference has a digest, and when the reference has a tag that is not
    empty, and no digest, its tag is built from this one. *)
Theorem inspected_record_built_for_repository ref (config : @Config X) s r err s'
    repoInfo w1 :
  ResolveRepository X ref (world s) = (inr repoInfo, w1) ->
  fetchManifest ref config s = (Done (Some r, err), s') ->
  err = None /\
  builtFor (X:=X) repoInfo ref r /\
  types.Registry r = registry.Name (registry.Index repoInfo) /\
  (length (types.RepoTags r) <= 1)%nat /\
  (length (types.RepoDigests r) <= 1)%nat /\
  (is_Some (reference.Digest ref) -> types.RepoTags r = []) /\
  (forall t tagged, reference.Digest ref = None -> reference.Tag ref = Some t ->
     t <> ""%string -> tagged ∈ types.RepoTags r ->
     WithTag X (registry.CanonicalName repoInfo) t = inr tagged).
Proof.
  intros H1 H. apply fetchManifest_result in H as [[e E]|(rec & ri & E & Hr & B)];
    [discriminate|].
  inversion E; subst. rewrite H1 in Hr. cbn in Hr. inversion Hr; subst ri.
  split; [reflexivity|]. split; [exact B|].
  destruct B as (img & tag & dgst & -> & Bd & Bt).
  destruct (makeRemoteImageInspect_lists repoInfo img tag dgst) as (L1 & L2 & L3 & L4 & L5 & _).
  split; [exact L1|]. split; [exact L2|]. split; [exact L3|]. split.
  - intros Hd. apply L4, Bd, Hd.
  - intros t tagged Hd Ht N Hin. rewrite <- (Bt Hd t Ht N). apply L5, Hin.
Qed.

(** X2: [fetchManifest], [getRemoteTagList], [Inspect] and [ListRemoteTags]
    return a value and no error, or an error and no value: never both, and
    never neither. *)
Theorem results_are_a_value_or_an_error ref (config : @Config X) :
  yields valueOrError (fetchManifest ref config) /\
  yields valueOrError (getRemoteTagList ref config) /\
  yields valueOrError (Inspect ref config) /\
  yields valueOrError (ListRemoteTags ref config).
Proof.
  assert (F : forall fqr, yields valueOrError (fetchManifest (X:=X) fqr config)).
  { intros fqr s res s' H.
    apply fetchManifest_result in H as [[e ->]|(rec & ri & -> & _)]; [right|left]; eauto. }
  assert (G : forall fqr, yields valueOrError (getRemoteTagList (X:=X) fqr config)).
  { intros fqr s res s' H.
    apply getRemoteTagList_result in H as [[e ->]|(rec & ri & -> & _)]; [right|left]; eauto. }
  split; [apply F|]. split; [apply G|]. split.
  - unfold Inspect. destruct (IsReferenceFullyQualified X ref); [apply F|].
    destruct (decide _) as [_|N]; [apply yields_ret; right; eauto|].
    eapply yields_bind; [|intros c Hc; apply yields_ret; exact Hc].
    apply (registry_loop_valueOrError (fun fqr => fetchManifest fqr config) _ ref F).
    + reflexivity.
    + intros E. now rewrite E in N.
  - unfold ListRemoteTags. destruct (IsReferenceFullyQualified X ref); [apply G|].
    destruct (decide _) as [_|N]; [apply yields_ret; right; eauto|].
    destruct (ValidateRepositoryName X ref) as [err|]; [apply yields_ret; right; eauto|].
    eapply yields_bind; [|intros c Hc; apply yields_ret; exact Hc].
    apply (registry_loop_valueOrError (fun fqr => getRemoteTagList fqr config) _ ref G).
    + reflexivity.
    + intros E. now rewrite E in N.
Qed.

(** X3: with a runtime whose [range] visits every entry of a map,
    [fetchWithSession] never reads the image of a nil entry of the image
    list: it returns, and so do [Inspect] and [ListRemoteTags], from every
    state. *)
Theorem inspection_never_panics (OK : ExternalsOK X) ref (config : @Config X) (s : State X) :
  (forall session repoInfo askedTag,
     exists res s', fetchWithSession session repoInfo askedTag s = (Done res, s')) /\
  (exists res s', Inspect ref config s = (Done res, s')) /\
  (exists res s', ListRemoteTags ref config s = (Done res, s')).
Proof.
  assert (R : forall A (m : M X A), returns anything m -> exists a s', m s = (Done a, s')).
  { intros A m Hm. destruct (Hm s) as (a & s' & E & _). eauto. }
  split; [|split].
  - intros session repoInfo askedTag. apply R. now apply returns_fetchWithSession.
  - apply R. unfold Inspect. destruct (IsReferenceFullyQualified X ref).
    { now apply returns_fetchManifest. }
    destruct (decide _); [now apply returns_ret|].
    apply returns_bind_any; [|intros c; now apply returns_ret].
    apply returns_forRange. intros r st. unfold Inspect_body.
    destruct (FullyQualifyReferenceWith X r ref) as [err|fqr].
    + apply returns_bind_any; [apply returns_emit|intros; now apply returns_ret].
    + apply returns_bind_any; [now apply returns_fetchManifest|].
      intros res. destruct (snd res); now apply returns_ret.
  - apply R. unfold ListRemoteTags. destruct (IsReferenceFullyQualified X ref).
    { apply returns_getRemoteTagList. }
    destruct (decide _); [now apply returns_ret|].
    destruct (ValidateRepositoryName X ref); [now apply returns_ret|].
    apply returns_bind_any; [|intros c; now apply returns_ret].
    apply returns_forRange. intros r st. unfold ListRemoteTags_body.
    destruct (FullyQualifyReferenceWith X r ref) as [err|fqr].
    + apply returns_bind_any; [apply returns_emit|intros; now apply returns_ret].
    + apply returns_bind_any; [apply returns_getRemoteTagList|].
      intros res. destruct (snd res); now apply returns_ret.
Qed.

End Orchestrators.

(** ** The error an endpoint loop keeps *)

Section LastError.

Context {X : Externals}.

Lemma observes_Forall {A O : Type} (try : A -> M X O) (P : A * O -> Prop) xs s os s' :
  (forall x s o s1, try x s = (Done o, s1) -> P (x, o)) ->
  observes try xs s os s' -> Forall P os.
Proof. intros Ht H. induction H; constructor; eauto. Qed.

Lemma tryManifest_inl ref (config : @Config X) repoInfo e s err s1 :
  tryManifest ref config repoInfo e s = (Done (inl err), s1) -> err = unknownVersion e.
Proof.
  unfold tryManifest, newManifestFetcher. intros H.
  apply bind_inv in H as (u & s2 & _ & H).
  destruct (_ =? _)%Z.
  { apply bind_inv in H as (r & s3 & _ & H). unfold ret in H; inversion H. }
  destruct (_ =? _)%Z.
  { apply bind_inv in H as (r & s3 & _ & H). unfold ret in H; inversion H. }
  unfold ret in H; inversion H. reflexivity.
Qed.

Lemma tryTagList_inl (config : @Config X) repoInfo e s err s1 :
  tryTagList config repoInfo e s = (Done (inl err), s1) -> err = unknownVersion e.
Proof.
  unfold tryTagList, newTagLister. intros H.
  apply bind_inv in H as (u & s2 & _ & H).
  destruct (_ =? _)%Z.
  { apply bind_inv in H as (r & s3 & _ & H). unfold ret in H; inversion H. }
  destruct (_ =? _)%Z.
  { apply bind_inv in H as (r & s3 & _ & H). unfold ret in H; inversion H. }
  unfold ret in H; inversion H. reflexivity.
Qed.

Lemma last_error_kept {V : Type} (os : list (registry.APIEndpoint * Attempt V)) :
  Forall (fun eo => match snd eo with
                    | inl err => isNoSupport err = false
                    | inr (_, _, err) => is_Some err
                    end) os ->
  lastErr (foldl accAfter initialAcc (map snd os))
  = if existsb (fun eo => realError (snd eo)) os
    then last (filter (fun e => isNoSupport e = false) (errorsObserved os))
    else last (errorsObserved os).
Proof.
  induction os as [|[e o] os IH] using rev_ind; intros H; [reflexivity|].
  apply Forall_app in H as [H Ho]. specialize (IH H). inversion Ho as [|? ? Hlast _]; subst.
  cbn [snd] in Hlast.
  rewrite map_app, foldl_app. cbn [map foldl snd].
  unfold errorsObserved in *. rewrite omap_app, existsb_app, filter_app. cbn [omap existsb snd].
  pose proof (accumulator_after os (errorString "")) as [Hd _]. cbv zeta in Hd.
  destruct o as [err|[[v fb] [err|]]]; cbn [accAfter attemptError realError lastErr].
  - rewrite orb_false_r. cbn. rewrite decide_True by exact Hlast.
    destruct (existsb _ os); now rewrite last_snoc.
  - rewrite lastErr_saveError, Hd, orb_false_r. cbn.
    destruct (isNoSupport err) eqn:En; cbn.
    + destruct (decide _) as [D|_]; [discriminate|].
      rewrite app_nil_r, ?orb_false_r.
      destruct (existsb _ os); [exact IH | now rewrite last_snoc].
    + destruct (decide _) as [_|D]; [|congruence]. rewrite ?orb_true_r.
      now rewrite last_snoc.
  - destruct Hlast as [? ?]; discriminate.
Qed.

(** X4: when the loop of [fetchManifest], or the one of [getRemoteTagList],
    has gone through every endpoint, the error left in [lastErr] is the last
    error observed that is not an [ErrNoSupport], when an error of [Fetch]
    or [ListTags] that is not an [ErrNoSupport] was observed; otherwise it is
    the last error observed, if any. *)
Theorem real_error_wins ref (config : @Config X) repoInfo xs acc (s s' : State X) :
  (forRange xs (fetchManifest_body ref config repoInfo) initialAcc s
   = (Done (Continue acc), s') ->
   exists os,
     observes (tryManifest ref config repoInfo) xs s os s' /\
     lastErr acc
     = if existsb (fun eo => realError (snd eo)) os
       then last (filter (fun e => isNoSupport e = false) (errorsObserved os))
       else last (errorsObserved os)) /\
  (forRange xs (getRemoteTagList_body config repoInfo) initialAcc s
   = (Done (Continue acc), s') ->
   exists os,
     observes (tryTagList config repoInfo) xs s os s' /\
     lastErr acc
     = if existsb (fun eo => realError (snd eo)) os
       then last (filter (fun e => isNoSupport e = false) (errorsObserved os))
       else last (errorsObserved os)).
Proof.
  split; intros H.
  - destruct (fetchManifest_loop_observes _ _ _ _ _ _ _ _ H) as (os & Hos & Hall & ->).
    exists os. split; [exact Hos|]. apply last_error_kept.
    pose proof (observes_Forall _ (fun eo => forall err, snd eo = inl err ->
                                              err = unknownVersion (fst eo)) _ _ _ _
                  (fun x s o s1 E err Eo =>
                     tryManifest_inl ref config repoInfo x s err s1
                       (eq_trans E (f_equal (fun o => (Done o, s1)) Eo))) Hos) as Hu.
    rewrite Forall_forall in Hall, Hu. apply Forall_forall. intros [e o] Hin.
    specialize (Hall _ Hin). specialize (Hu _ Hin). cbn [snd fst] in *.
    destruct o as [err|[[v fb] err]]; [|tauto]. now rewrite (Hu err eq_refl).
  - destruct (getRemoteTagList_loop_observes _ _ _ _ _ _ _ H) as (os & Hos & Hall & ->).
    exists os. split; [exact Hos|]. apply last_error_kept.
    pose proof (observes_Forall _ (fun eo => forall err, snd eo = inl err ->
                                              err = unknownVersion (fst eo)) _ _ _ _
                  (fun x s o s1 E err Eo =>
                     tryTagList_inl config repoInfo x s err s1
                       (eq_trans E (f_equal (fun o => (Done o, s1)) Eo))) Hos) as Hu.
    rewrite Forall_forall in Hall, Hu. apply Forall_forall. intros [e o] Hin.
    specialize (Hall _ Hin). specialize (Hu _ Hin). cbn [snd fst] in *.
    destruct o as [err|[[v fb] err]]; [|tauto]. now rewrite (Hu err eq_refl).
Qed.

(** X5: an endpoint whose version is neither 1 nor 2 is not contacted: the
    loops of [fetchManifest] and of [getRemoteTagList] log the attempt, put
    the error "unknown version" in [lastErr], whatever it held, leave
    [discardNoSupportErrors] as it is and go on.  Over endpoints that are all
    of this kind the loops end with the error of the last one. *)
Theorem unknown_versions_are_skipped ref (config : @Config X) repoInfo xs acc (s : State X) :
  Forall (fun e => registry.Version e <> registry.APIVersion1 /\
                   registry.Version e <> registry.APIVersion2) xs ->
  let acc' := {| lastErr := from_option (fun e => Some (unknownVersion e)) (lastErr acc)
                              (last xs);
                 discardNoSupportErrors := discardNoSupportErrors acc |} in
  forRange xs (fetchManifest_body ref config repoInfo) acc s
  = (Done (Continue acc'),
     {| world := world s;
        trace := trace s ++ map (fun e => Logged (TryingManifest
                                                    (registry.CanonicalName repoInfo) e)) xs |}) /\
  forRange xs (getRemoteTagList_body config repoInfo) acc s
  = (Done (Continue acc'),
     {| world := world s;
        trace := trace s ++ map (fun e => Logged (TryingTagList
                                                    (registry.CanonicalName repoInfo) e)) xs |}).
Proof.
  intros H. revert acc s. induction H as [|e xs [H1 H2] _ IH]; intros acc s; cbv zeta.
  - cbn. rewrite app_nil_r. destruct acc, s. split; reflexivity.
  - apply Z.eqb_neq in H1, H2.
    assert (L : from_option (fun e => Some (unknownVersion e)) (lastErr acc) (last (e :: xs))
                = from_option (fun e => Some (unknownVersion e)) (Some (unknownVersion e))
                    (last xs)).
    { rewrite last_cons. now destruct (last xs). }
    rewrite L. clear L.
    destruct (IH {| lastErr := Some (unknownVersion e);
                    discardNoSupportErrors := discardNoSupportErrors acc |}
                 {| world := world s;
                    trace := trace s ++ [Logged (TryingManifest
                                                   (registry.CanonicalName repoInfo) e)] |})
      as [IH1 _].
    destruct (IH {| lastErr := Some (unknownVersion e);
                    discardNoSupportErrors := discardNoSupportErrors acc |}
                 {| world := world s;
                    trace := trace s ++ [Logged (TryingTagList
                                                   (registry.CanonicalName repoInfo) e)] |})
      as [_ IH2].
    cbv zeta in IH1, IH2. cbn [lastErr discardNoSupportErrors world trace] in IH1, IH2.
    rewrite <- app_assoc in IH1, IH2. split.
    + rewrite forRange_cons.
      unfold fetchManifest_body, newManifestFetcher. rewrite H1, H2.
      unfold bind, emit, ret. exact IH1.
    + rewrite forRange_cons.
      unfold getRemoteTagList_body, newTagLister. rewrite H1, H2.
      unfold bind, emit, ret. exact IH2.
Qed.

End LastError.

(** ** The v1 fetcher and lister *)

Section V1.

Context {X : Externals}.

(** X6: at an endpoint of version 1 and for a reference without digest, the
    loop of [fetchManifest] ends at once, with the error, when the TLS
    configuration fails and when [fetchWithSession] fails: no later endpoint
    is tried.  It goes on with the next endpoint, the error saved, only when
    the v1 endpoint or the session cannot be made. *)
Theorem v1_failures_in_inspection ref (config : @Config X) repoInfo e rest acc (s : State X) :
  registry.Version e = registry.APIVersion1 -> reference.Digest ref = None ->
  let body := fetchManifest_body ref config repoInfo in
  let index := registry.Name (registry.Index repoInfo) in
  let tag := default ""%string (reference.Tag ref) in
  let s0 := logged s (TryingManifest (registry.CanonicalName repoInfo) e) in
  (forall err w, TLSConfig X index (world s) = (inl err, w) ->
     forRange (e :: rest) body acc s
     = (Done (Break (None, Some err)),
        after s0 [Call_TLSConfig index (Some err); Logged (NotContinuing err)] w)) /\
  (forall tls w1 err w2,
     TLSConfig X index (world s) = (inr tls, w1) ->
     ToV1Endpoint X e (MetaHeaders_ config) w1 = (inl err, w2) ->
     forRange (e :: rest) body acc s
     = forRange rest body (saveError acc err)
         (after s0 [Call_TLSConfig index None; Call_ToV1Endpoint e (Some err);
                    Logged (CouldNotGetV1Endpoint err)] w2)) /\
  (forall tls w1 ep w2 err w3,
     TLSConfig X index (world s) = (inr tls, w1) ->
     ToV1Endpoint X e (MetaHeaders_ config) w1 = (inr ep, w2) ->
     NewSession X tls (MetaHeaders_ config) (AuthConfig_ config) ep w2 = (inl err, w3) ->
     forRange (e :: rest) body acc s
     = forRange rest body (saveError acc err)
         (after s0 [Call_TLSConfig index None; Call_ToV1Endpoint e None;
                    Call_NewSession (Some err); Logged (FallbackFromError err)] w3)) /\
  (forall tls w1 ep w2 session w3 err s4,
     TLSConfig X index (world s) = (inr tls, w1) ->
     ToV1Endpoint X e (MetaHeaders_ config) w1 = (inr ep, w2) ->
     NewSession X tls (MetaHeaders_ config) (AuthConfig_ config) ep w2 = (inr session, w3) ->
     fetchWithSession session repoInfo tag (atSession repoInfo e w3 s0)
     = (Done (None, Some err), s4) ->
     forRange (e :: rest) body acc s
     = (Done (Break (None, Some err)), logged s4 (NotContinuing err))).
Proof.
  intros Hv Hd body index tag s0.
  assert (Hb : forall st, body e acc st
               = match tryManifest ref config repoInfo e st with
                 | (Done (inl err), s1) =>
                     (Done (Continue {| lastErr := Some err;
                                        discardNoSupportErrors :=
                                          discardNoSupportErrors acc |}), s1)
                 | (Done (inr (_, true, Some err)), s1) =>
                     (Done (Continue (saveError acc err)), s1)
                 | (Done (inr (_, false, Some err)), s1) =>
                     (Done (Break (None, Some err)), logged s1 (NotContinuing err))
                 | (Done (inr (img, _, None)), s1) => (Done (Break (img, None)), s1)
                 | (Panic, s1) => (Panic, s1)
                 end) by (intros; apply fetchManifest_body_try).
  assert (Ht : tryManifest ref config repoInfo e s
               = (r <- v1ManifestFetcher_Fetch e config repoInfo ref ;; ret (inr r)) s0).
  { unfold tryManifest, newManifestFetcher. rewrite Hv. reflexivity. }
  unfold v1ManifestFetcher_Fetch in Ht. rewrite Hd in Ht. cbv zeta in Ht.
  rewrite bind_assoc, (bind_Done _ _ _ _ _ (call_run _ _ _)) in Ht.
  change (world s0) with (world s) in Ht. fold index in Ht.
  repeat split.
  - intros err w H. rewrite forRange_cons, Hb, Ht, H. cbn [fst snd errOf].
    unfold bind, ret, logged, after. cbn [world trace]. now rewrite <- !app_assoc.
  - intros tls w1 err w2 H1 H2. rewrite forRange_cons, Hb, Ht, H1. cbn [fst snd].
    rewrite bind_assoc, (bind_Done _ _ _ _ _ (call_run _ _ _)). cbn [world trace].
    rewrite H2. cbn [fst snd errOf]. unfold bind, emit, ret, after. cbn [world trace].
    now rewrite <- !app_assoc.
  - intros tls w1 ep w2 err w3 H1 H2 H3. rewrite forRange_cons, Hb, Ht, H1. cbn [fst snd].
    rewrite bind_assoc, (bind_Done _ _ _ _ _ (call_run _ _ _)). cbn [world trace].
    rewrite H2. cbn [fst snd errOf].
    rewrite bind_assoc, (bind_Done _ _ _ _ _ (call_run _ _ _)). cbn [world trace].
    rewrite H3. cbn [fst snd errOf]. unfold bind, emit, ret, after. cbn [world trace].
    now rewrite <- !app_assoc.
  - intros tls w1 ep w2 session w3 err s4 H1 H2 H3 H4.
    rewrite forRange_cons, Hb, Ht, H1. cbn [fst snd].
    rewrite bind_assoc, (bind_Done _ _ _ _ _ (call_run _ _ _)). cbn [world trace].
    rewrite H2. cbn [fst snd errOf].
    rewrite bind_assoc, (bind_Done _ _ _ _ _ (call_run _ _ _)). cbn [world trace].
    rewrite H3. cbn [fst snd errOf].
    assert (Es : {| world := w3;
                    trace := ((trace s0 ++ [Call_TLSConfig index None])
                              ++ [Call_ToV1Endpoint e None]) ++ [Call_NewSession None] |}
                 = atSession repoInfo e w3 s0).
    { unfold atSession. now rewrite <- !app_assoc. }
    rewrite Es, !bind_assoc, (bind_Done _ _ _ _ _ H4). reflexivity.
Qed.

(** X7: when the session cannot return the data of the repository,
    [fetchWithSession] and [listTagsWithSession] ask nothing more and return
    the error "Error: image ... not found" when the message of the error
    holds "HTTP code: 404", and the error itself when it does not. *)
Theorem repository_not_found session repoInfo askedTag (s : State X) err w1 :
  GetRepositoryData X session (registry.RemoteName repoInfo) (world s) = (inl err, w1) ->
  let s1 := after s [Call_GetRepositoryData (registry.RemoteName repoInfo) (inl err)] w1 in
  fetchWithSession session repoInfo askedTag s
  = (Done (None, Some (repositoryError (X:=X) repoInfo err)), s1) /\
  listTagsWithSession session repoInfo s
  = (Done ([], Some (repositoryError (X:=X) repoInfo err)), s1) /\
  ((exists pre post, Error (X:=X) err = pre +:+ "HTTP code: 404" +:+ post) ->
   repositoryError (X:=X) repoInfo err
   = errorString ("Error: image " +:+ registry.RemoteName repoInfo +:+ " not found")) /\
  (~ (exists pre post, Error (X:=X) err = pre +:+ "HTTP code: 404" +:+ post) ->
   repositoryError (X:=X) repoInfo err = err).
Proof.
  intros H s1. split; [|split; [|split]].
  - unfold fetchWithSession. rewrite (bind_Done _ _ _ _ _ (call_run _ _ _)), H.
    cbn [fst snd]. unfold repositoryError. destruct (strings_Contains _ _); reflexivity.
  - unfold listTagsWithSession. rewrite (bind_Done _ _ _ _ _ (call_run _ _ _)), H.
    cbn [fst snd]. unfold repositoryError. destruct (strings_Contains _ _); reflexivity.
  - intros Hc. apply strings_Contains_spec in Hc. unfold repositoryError. now rewrite Hc.
  - intros Hc. unfold repositoryError.
    destruct (strings_Contains _ _) eqn:E; [|reflexivity].
    apply strings_Contains_spec in E. contradiction.
Qed.

(** X8: with a runtime whose [range] visits every entry of a map once,
    [listTagsWithSession] fails with "No tags available" on an empty map of
    tags, and otherwise returns one element for each entry of the map, the tag
    with its image id: as many elements as the map has tags, none of them
    twice. *)
Theorem v1_listing_is_the_map_of_tags (OK : ExternalsOK X) session repoInfo (s : State X)
    repoData w1 tagsList w2 :
  GetRepositoryData X session (registry.RemoteName repoInfo) (world s) = (inr repoData, w1) ->
  GetRemoteTags X session (registry.Endpoints repoData) (registry.RemoteName repoInfo) w1
  = (inr tagsList, w2) ->
  let s2 := atTags repoInfo repoData tagsList w2 s in
  (size tagsList = 0%nat ->
   listTagsWithSession session repoInfo s
   = (Done ([], Some (errorString ("No tags available for remote repository "
                                   +:+ registry.CanonicalName repoInfo))), s2)) /\
  (size tagsList <> 0%nat ->
   exists tags s3,
     listTagsWithSession session repoInfo s = (Done (tags, None), s3) /\
     trace s3 = trace s2 /\
     tags ≡ₚ map tagOfEntry (map_to_list tagsList) /\
     length tags = size tagsList /\
     NoDup (map types.Tag tags) /\
     (forall tag id, {| types.Tag := tag; types.ImageID := id |} ∈ tags
                     <-> tagsList !! tag = Some id)).
Proof.
  intros H1 H2 s2.
  assert (E : listTagsWithSession session repoInfo s
              = (if decide (size tagsList < 1)%nat then
                   ret ([], Some (errorString ("No tags available for remote repository "
                                               +:+ registry.CanonicalName repoInfo)))
                 else
                   visited <- runtime (mapRange X tagsList) ;;
                   ret (map (fun p => {| types.Tag := fst p; types.ImageID := snd p |}) visited,
                        None)) s2).
  { unfold listTagsWithSession. rewrite (bind_Done _ _ _ _ _ (call_run _ _ _)), H1.
    cbn [fst snd]. unfold bind at 1, emit. cbn [world trace].
    rewrite (bind_Done _ _ _ _ _ (call_run _ _ _)). cbn [world trace]. rewrite H2.
    cbn [fst snd]. unfold s2, atTags. now rewrite <- !app_assoc. }
  rewrite E. split; intros Hs.
  - destruct (decide _) as [_|N]; [reflexivity|lia].
  - destruct (decide _) as [L|_]; [lia|].
    rewrite (bind_Done _ _ _ _ _ (runtime_run _ _)).
    pose proof (mapRange_Permutation X OK tagsList (world s2)) as P.
    destruct (mapRange X tagsList (world s2)) as [visited w3]. cbn [fst snd] in *.
    eexists _, _. split; [reflexivity|]. split; [reflexivity|].
    assert (Pt : map tagOfEntry visited ≡ₚ map tagOfEntry (map_to_list tagsList))
      by now rewrite P.
    split; [exact Pt|]. split; [|split].
    + change (length (map tagOfEntry visited) = size tagsList).
      now rewrite Pt, length_map, length_map_to_list.
    + change (NoDup (map types.Tag (map tagOfEntry visited))).
      rewrite Pt, map_map. cbn. apply (NoDup_fst_map_to_list tagsList).
    + intros tag id. change (tagOfEntry (tag, id) ∈ map tagOfEntry visited
                             <-> tagsList !! tag = Some id).
      rewrite Pt, <- elem_of_map_to_list. split.
      * intros Hin. apply list_elem_of_fmap in Hin as ([t i] & Heq & Hin).
        inversion Heq; subst. exact Hin.
      * intros Hin. apply list_elem_of_fmap. exists (tag, id). split; [reflexivity|exact Hin].
Qed.

End V1.

(** ** The v2 fetcher and lister *)

Section V2.

Context {X : Externals}.

(** Lines 100 to 161 of [fetchWithRepository]. *)
Let finish (repoInfo : registry.RepositoryInfo) (ref : reference.Named) (f : @Fetched X)
    : M X (Result types.RemoteImageInspect) :=
  match f with
  | inl err => ret (None, Some err)
  | inr (_, Some err, _, _) => ret (None, Some err)
  | inr (None, None, _, tagOrDigest) =>
      ret (None, Some (errorString
             ("image manifest does not exist for tag or digest " +:+ Quote X tagOrDigest)))
  | inr (Some unverifiedManifest, None, tag, _) =>
      match manifestToImage X unverifiedManifest ref repoInfo with
      | inl err => ret (None, Some err)
      | inr (img, dgst) =>
          ret (Some (makeRemoteImageInspect (X:=X) repoInfo img tag dgst), None)
      end
  end.

(** X9: on a reference with a digest [fetchWithRepository] asks whether the
    digest exists and looks at nothing else of the reference, a tag least of
    all.  When the answer is no, it fails without asking for the manifest:
    with the error of the question when there is one, with "Digest ... does
    not exist" otherwise.  When the answer is yes it asks for the manifest of
    the digest, whatever error came with the answer, and the record is built
    without tag. *)
Theorem v2_fetch_by_digest repo repoInfo ref (s : State X) dgst manSvc w1 :
  reference.Digest ref = Some dgst ->
  Manifests X repo (world s) = (inr manSvc, w1) ->
  let ex := Exists X manSvc dgst w1 in
  let s2 := after s [Call_Manifests None; Call_Exists dgst (fst ex)] (snd ex) in
  (fst (fst ex) = false ->
   fetchWithRepository repo repoInfo ref s
   = (Done (None, Some (default
                          (errorString ("Digest " +:+ Quote X dgst
                                        +:+ " does not exist in remote repository "
                                        +:+ registry.CanonicalName repoInfo))
                          (snd (fst ex)))), s2)) /\
  (fst (fst ex) = true ->
   let g := Get X manSvc dgst (snd ex) in
   fetchWithRepository repo repoInfo ref s
   = (Done (manifestResult repoInfo ref "" dgst (fst g)),
      after s2 [Call_Get dgst (snd (fst g))] (snd g))).
Proof.
  intros Hd H1 ex s2.
  assert (E : fetchWithRepository repo repoInfo ref s
              = (f <- fetchByDigest manSvc repoInfo dgst ;;
                 finish repoInfo ref f) (after s [Call_Manifests None] w1)).
  { unfold fetchWithRepository. rewrite (bind_Done _ _ _ _ _ (call_run _ _ _)), H1.
    cbn [fst snd errOf]. now rewrite Hd. }
  rewrite E. unfold fetchByDigest.
  rewrite bind_assoc, (bind_Done _ _ _ _ _ (call_run _ _ _)). cbn [world trace after].
  fold ex.
  assert (Es : {| world := snd ex;
                  trace := (trace s ++ [Call_Manifests None]) ++ [Call_Exists dgst (fst ex)] |}
               = s2).
  { unfold s2, after. now rewrite <- app_assoc. }
  rewrite Es. destruct (fst ex) as [[|] [err|]] eqn:Ex; cbn [fst snd default];
    split; intros Hex; try discriminate; try reflexivity.
  - cbv zeta. rewrite bind_assoc, (bind_Done _ _ _ _ _ (call_run _ _ _)).
    change (world s2) with (snd ex).
    destruct (Get X manSvc dgst (snd ex)) as [[m e] w3]. cbn [fst snd].
    unfold manifestResult, after.
    destruct e as [e|]; [destruct m; reflexivity|]. destruct m as [m|]; [|reflexivity].
    cbn. destruct (manifestToImage X m ref repoInfo) as [e|[img d]]; reflexivity.
  - cbv zeta. rewrite bind_assoc, (bind_Done _ _ _ _ _ (call_run _ _ _)).
    change (world s2) with (snd ex).
    destruct (Get X manSvc dgst (snd ex)) as [[m e] w3]. cbn [fst snd].
    unfold manifestResult, after.
    destruct e as [e|]; [destruct m; reflexivity|]. destruct m as [m|]; [|reflexivity].
    cbn. destruct (manifestToImage X m ref repoInfo) as [e|[img d]]; reflexivity.
Qed.

(** X10: on a reference with a tag and no digest [fetchWithRepository] asks
    whether the tag exists and never lists the tags of the repository.  It
    fails without asking for a manifest when the question fails, with its
    error, and when the answer is no, with "Tag ... does not exist"; when the
    answer is yes it asks for the manifest of this tag, once, and the record
    is built with this tag. *)
Theorem v2_fetch_by_tag repo repoInfo ref (s : State X) tag manSvc w1 :
  reference.Digest ref = None -> reference.Tag ref = Some tag ->
  Manifests X repo (world s) = (inr manSvc, w1) ->
  let ex := ExistsByTag X manSvc tag w1 in
  let s2 := after s [Call_Manifests None; Call_ExistsByTag tag (fst ex)] (snd ex) in
  (forall err, snd (fst ex) = Some err ->
     fetchWithRepository repo repoInfo ref s = (Done (None, Some err), s2)) /\
  (fst ex = (false, None) ->
   fetchWithRepository repo repoInfo ref s
   = (Done (None, Some (errorString ("Tag " +:+ Quote X tag
                                     +:+ " does not exist in remote repository "
                                     +:+ registry.CanonicalName repoInfo))), s2)) /\
  (fst ex = (true, None) ->
   let g := GetByTag X manSvc tag (snd ex) in
   fetchWithRepository repo repoInfo ref s
   = (Done (manifestResult repoInfo ref tag tag (fst g)),
      after s2 [Call_GetByTag tag (snd (fst g))] (snd g))) /\
  (forall r s', fetchWithRepository repo repoInfo ref s = (r, s') ->
     exists evs, trace s' = trace s ++ evs /\ forall l, Call_Tags l ∉ evs).
Proof.
  intros Hd Ht H1 ex s2.
  assert (E : fetchWithRepository repo repoInfo ref s
              = (f <- (r <- call (ExistsByTag X manSvc tag) (Call_ExistsByTag tag) ;;
                       match r with
                       | (_, Some err) => ret (inl err)
                       | (false, None) =>
                           ret (inl (errorString
                                  ("Tag " +:+ Quote X tag
                                   +:+ " does not exist in remote repository "
                                   +:+ registry.CanonicalName repoInfo)))
                       | (true, None) => fetchByTag manSvc tag
                       end) ;;
                 finish repoInfo ref f) (after s [Call_Manifests None] w1)).
  { unfold fetchWithRepository. rewrite (bind_Done _ _ _ _ _ (call_run _ _ _)), H1.
    cbn [fst snd errOf]. now rewrite Hd, Ht. }
  rewrite E.
  rewrite bind_assoc, (bind_Done _ _ _ _ _ (call_run _ _ _)). cbn [world trace after].
  fold ex.
  assert (Es : {| world := snd ex;
                  trace := (trace s ++ [Call_Manifests None])
                           ++ [Call_ExistsByTag tag (fst ex)] |}
               = s2).
  { unfold s2, after. now rewrite <- app_assoc. }
  rewrite Es.
  assert (G : (f <- fetchByTag manSvc tag ;;
               finish repoInfo ref f) s2
              = (Done (manifestResult repoInfo ref tag tag
                         (fst (GetByTag X manSvc tag (snd ex)))),
                 after s2 [Call_GetByTag tag (snd (fst (GetByTag X manSvc tag (snd ex))))]
                   (snd (GetByTag X manSvc tag (snd ex))))).
  { unfold fetchByTag. rewrite bind_assoc, (bind_Done _ _ _ _ _ (call_run _ _ _)).
    change (world s2) with (snd ex).
    destruct (GetByTag X manSvc tag (snd ex)) as [[m e] w3]. cbn [fst snd].
    unfold manifestResult, after.
    destruct e as [e|]; [destruct m; reflexivity|]. destruct m as [m|]; [|reflexivity].
    cbn. destruct (manifestToImage X m ref repoInfo) as [e|[img d]]; reflexivity. }
  split; [|split; [|split]].
  - intros err He. destruct (fst ex) as [b o]. cbn in He. subst o. now destruct b.
  - intros He. now rewrite He.
  - intros He. rewrite He. exact G.
  - intros r s' Hrun.
    assert (T : exists evs, trace s' = trace s2 ++ evs /\
                  Forall (fun e => forall l, e <> Call_Tags l) evs).
    { destruct (fst ex) as [[|] [err|]]; cbn [fst snd] in Hrun;
        try (inversion Hrun; subst; exists []; split; [now rewrite app_nil_r|constructor]).
      pose proof (eq_trans (eq_sym Hrun) G) as Hrun2. inversion Hrun2; subst.
      eexists. split; [reflexivity|].
      repeat constructor. discriminate. }
    destruct T as (evs & T & Hall).
    exists ([Call_Manifests None; Call_ExistsByTag tag (fst ex)] ++ evs).
    split; [rewrite T; unfold s2, after; cbn [trace]; now rewrite <- app_assoc|].
    intros l In. apply elem_of_app in In as [In|In].
    + apply elem_of_cons in In as [In|In]; [discriminate|].
      apply list_elem_of_singleton in In. discriminate.
    + rewrite Forall_forall in Hall. exact (Hall _ In l eq_refl).
Qed.

Lemma listTagsWithRepository_run endpoint repo (s : State X) manSvc w2 :
  Manifests X repo (world s) = (inr manSvc, w2) ->
  listTagsWithRepository endpoint repo s
  = (Done (match fst (Tags X manSvc w2) with
           | inl err => ([], Some (singleError err))
           | inr tags =>
               (map (fun tag => {| types.Tag := tag; types.ImageID := "" |}) tags, None)
           end),
     after s [Logged (RetrievingV2Tags (registry.URL endpoint)); Call_Manifests None;
              Call_Tags (fst (Tags X manSvc w2))] (snd (Tags X manSvc w2))).
Proof.
  intros HM. unfold listTagsWithRepository, bind, emit, call, ret, after. cbn [world trace].
  rewrite HM. cbn [world trace errOf].
  destruct (Tags X manSvc w2) as [[err|tags] w3]; cbn [fst snd world trace].
  - rewrite <- !app_assoc. destruct err as [msg|inner|[|t0 [|t1 errs]]]; reflexivity.
  - now rewrite <- !app_assoc.
Qed.

(** X11: once the v2 repository is open, [ListTags] of the v2 lister returns
    the tags of the repository in their order, each without image id, and no
    error; when the tags cannot be listed it returns the error, or its only
    element when it is an [errcode.Errors] of one element, and [fallback] is
    what [registry.ContinueOnError] says of the error returned.  When the
    repository cannot be opened [fallback] is set and nothing is asked. *)
Theorem v2_listing endpoint (config : @Config X) repoInfo (s : State X) :
  let nr := NewV2Repository X repoInfo endpoint (MetaHeaders_ config) (AuthConfig_ config)
              (world s) in
  (forall err, fst nr = inl err ->
     v2TagLister_ListTags endpoint config repoInfo s
     = (Done ([], true, Some err),
        after s [Call_NewV2Repository endpoint (Some err);
                 Logged (ErrorGettingV2Registry err)] (snd nr))) /\
  (forall repo manSvc w2 w3,
     fst nr = inr repo -> Manifests X repo (snd nr) = (inr manSvc, w2) ->
     (forall tags, Tags X manSvc w2 = (inr tags, w3) ->
        v2TagLister_ListTags endpoint config repoInfo s
        = (Done (map (fun tag => {| types.Tag := tag; types.ImageID := "" |}) tags,
                 false, None),
           after s [Call_NewV2Repository endpoint None;
                    Logged (RetrievingV2Tags (registry.URL endpoint));
                    Call_Manifests None; Call_Tags (inr tags)] w3)) /\
     (forall err, Tags X manSvc w2 = (inl err, w3) ->
        v2TagLister_ListTags endpoint config repoInfo s
        = (Done ([], ContinueOnError X (singleError err), Some (singleError err)),
           after s ([Call_NewV2Repository endpoint None;
                     Logged (RetrievingV2Tags (registry.URL endpoint));
                     Call_Manifests None; Call_Tags (inl err)]
                    ++ (if ContinueOnError X (singleError err)
                        then [Logged (ErrorTryingV2Registry (singleError err))] else []))
             w3))).
Proof.
  intros nr. unfold v2TagLister_ListTags.
  rewrite (bind_Done _ _ _ _ _ (call_run _ _ _)). fold nr. split.
  - intros err E. rewrite E. cbn [errOf]. unfold bind, emit, ret, after. cbn [world trace].
    now rewrite <- app_assoc.
  - intros repo manSvc w2 w3 E HM. rewrite E. cbn [errOf].
    rewrite (bind_Done _ _ _ _ _
               (listTagsWithRepository_run endpoint repo
                  {| world := snd nr;
                     trace := trace s ++ [Call_NewV2Repository endpoint None] |}
                  manSvc w2 HM)).
    split.
    + intros tags HT. rewrite HT. cbn [fst snd]. unfold ret, after. cbn [world trace].
      now rewrite <- !app_assoc.
    + intros err HT. rewrite HT. cbn [fst snd].
      destruct (ContinueOnError X (singleError err));
        unfold bind, emit, ret, after; cbn [world trace]; now rewrite <- !app_assoc.
Qed.

(** X12: [Fetch] of the v2 fetcher sets [fallback] and asks nothing more
    when the repository cannot be opened; once it is open, the record and the
    error are those of [fetchWithRepository], and [fallback] is set exactly
    when there is an error of which [registry.ContinueOnError] says yes. *)
Theorem v2_fetch_fallback endpoint (config : @Config X) repoInfo ref (s : State X) :
  let nr := NewV2Repository X repoInfo endpoint (MetaHeaders_ config) (AuthConfig_ config)
              (world s) in
  (forall err, fst nr = inl err ->
     v2ManifestFetcher_Fetch endpoint config repoInfo ref s
     = (Done (None, true, Some err),
        after s [Call_NewV2Repository endpoint (Some err);
                 Logged (ErrorGettingV2Registry err)] (snd nr))) /\
  (forall repo res s2,
     fst nr = inr repo ->
     fetchWithRepository repo repoInfo ref (after s [Call_NewV2Repository endpoint None] (snd nr))
     = (Done res, s2) ->
     exists fallback s',
       v2ManifestFetcher_Fetch endpoint config repoInfo ref s
       = (Done (fst res, fallback, snd res), s') /\
       world s' = world s2 /\
       (fallback = true <-> exists err, snd res = Some err /\ ContinueOnError X err = true)).
Proof.
  intros nr. unfold v2ManifestFetcher_Fetch.
  rewrite (bind_Done _ _ _ _ _ (call_run _ _ _)). fold nr. split.
  - intros err E. rewrite E. cbn [errOf]. unfold bind, emit, ret, after. cbn [world trace].
    now rewrite <- app_assoc.
  - intros repo res s2 E Hr. rewrite E. cbn [errOf].
    change {| world := snd nr; trace := trace s ++ [Call_NewV2Repository endpoint None] |}
      with (after s [Call_NewV2Repository endpoint None] (snd nr)).
    rewrite (bind_Done _ _ _ _ _ Hr).
    destruct res as [v [err|]]; cbn [fst snd].
    + destruct (ContinueOnError X err) eqn:Ec.
      * unfold bind, emit, ret. eexists _, _. split; [reflexivity|]. split; [reflexivity|].
        split; [eauto|reflexivity].
      * unfold ret. eexists _, _. split; [reflexivity|]. split; [reflexivity|].
        split; [discriminate|]. intros (e & [= <-] & Hc). congruence.
    + unfold ret. eexists _, _. split; [reflexivity|]. split; [reflexivity|].
      split; [discriminate|]. intros (e & He & _). discriminate.
Qed.

End V2.

(** ** The endpoint that answers *)

Section FirstSuccess.

Context {X : Externals}.

(** X13: a list of tags that [getRemoteTagList] returns is the one of the
    first endpoint, in the sorted order, whose lister returned no error: the
    endpoints before it were tried in order and each returned an error.  The
    list is named after the repository and holds the tags the lister
    returned, all of them and no other. *)
Theorem tag_list_of_first_successful_endpoint (OK : ExternalsOK X) ref (config : @Config X)
    repoInfo endpoints w1 w (s : State X) tl err s' :
  ResolveRepository X ref (world s) = (inr repoInfo, w1) ->
  validateRepoName X (registry.LocalName repoInfo) = None ->
  LookupPullEndpoints X (registry.CanonicalName repoInfo) w1 = (inr endpoints, w) ->
  getRemoteTagList ref config s = (Done (Some tl, err), s') ->
  exists tried e rest os s1 tags fallback,
    sort_Sort X _ byAPIVersion_Less endpoints = tried ++ e :: rest /\
    observes (tryTagList config repoInfo) tried (atEndpoints ref repoInfo endpoints w s) os s1 /\
    Forall (fun eo => is_Some (attemptError (snd eo))) os /\
    tryTagList config repoInfo e s1 = (Done (inr (tags, fallback, None)), s') /\
    types.Name tl = registry.CanonicalName repoInfo /\
    types.TagList tl ≡ₚ tags.
Proof.
  intros H1 H2 H3 H. rewrite (getRemoteTagList_at_endpoints _ _ _ _ _ _ _ H1 H2 H3) in H.
  destruct (forRange _ _ _ _) as [[[acc|res]|] s2] eqn:E; inversion H; subst.
  apply forRange_Break_inv in E as (tried & e & rest & acc1 & s1 & Hxs & Hloop & Hbody).
  destruct (getRemoteTagList_loop_observes _ _ _ _ _ _ _ Hloop) as (os & Hos & Hall & _).
  rewrite getRemoteTagList_body_try in Hbody.
  destruct (tryTagList config repoInfo e s1) as [[[e0|[[tags fb] [e0|]]]|] s3] eqn:Et;
    try discriminate.
  { destruct (fb || _); discriminate. }
  inversion Hbody; subst.
  exists tried, e, rest, os, s1, tags, fb. split; [exact Hxs|]. split; [exact Hos|].
  split; [|split; [exact Et|split; [reflexivity|]]].
  - eapply Forall_impl; [exact Hall|]. intros [x o]. cbn.
    destruct o as [e0|[[v f] e0]]; cbn; [eauto|tauto].
  - cbn. apply (sort_Sort_Permutation X OK).
Qed.

(** X14: a record that [fetchManifest] returns is the one of the first
    endpoint, in the order of the lookup, whose fetcher returned no error:
    the endpoints before it were tried in order, and each was of an unknown
    version or returned an error with [fallback]. *)
Theorem record_of_first_successful_endpoint ref (config : @Config X)
    repoInfo endpoints w1 w (s : State X) r err s' :
  ResolveRepository X ref (world s) = (inr repoInfo, w1) ->
  validateRepoName X (registry.LocalName repoInfo) = None ->
  LookupPullEndpoints X (registry.CanonicalName repoInfo) w1 = (inr endpoints, w) ->
  fetchManifest ref config s = (Done (Some r, err), s') ->
  exists tried e rest os s1 fallback,
    endpoints = tried ++ e :: rest /\
    observes (tryManifest ref config repoInfo) tried (atEndpoints ref repoInfo endpoints w s)
      os s1 /\
    Forall (fun eo => is_Some (attemptError (snd eo)) /\
                      (fallbackError (snd eo) = true \/
                       snd eo = inl (unknownVersion (fst eo)))) os /\
    tryManifest ref config repoInfo e s1 = (Done (inr (Some r, fallback, None)), s').
Proof.
  intros H1 H2 H3 H. rewrite (fetchManifest_at_endpoints _ _ _ _ _ _ _ H1 H2 H3) in H.
  destruct (forRange _ _ _ _) as [[[acc|res]|] s2] eqn:E; inversion H; subst.
  apply forRange_Break_inv in E as (tried & e & rest & acc1 & s1 & Hxs & Hloop & Hbody).
  destruct (fetchManifest_loop_observes _ _ _ _ _ _ _ _ Hloop) as (os & Hos & Hall & _).
  rewrite fetchManifest_body_try in Hbody.
  destruct (tryManifest ref config repoInfo e s1) as [[[e0|[[img fb] [e0|]]]|] s3] eqn:Et;
    try discriminate.
  { destruct fb; discriminate. }
  assert (img = Some r /\ s3 = s') as [-> ->] by (destruct fb; now inversion Hbody).
  exists tried, e, rest, os, s1, fb. split; [exact Hxs|]. split; [exact Hos|].
  split; [|exact Et].
  pose proof (observes_Forall _ (fun eo => forall err, snd eo = inl err ->
                                            err = unknownVersion (fst eo)) _ _ _ _
                (fun x s o s1 E err Eo =>
                   tryManifest_inl ref config repoInfo x s err s1
                     (eq_trans E (f_equal (fun o => (Done o, s1)) Eo))) Hos) as Hu.
  rewrite Forall_forall in Hall, Hu. apply Forall_forall. intros [x o] Hin.
  specialize (Hall _ Hin). specialize (Hu _ Hin). cbn [fst snd] in *.
  destruct o as [e0|[[v f] e0]]; cbn.
  - split; [eauto|]. right. now rewrite (Hu e0 eq_refl).
  - destruct Hall as [-> [e1 ->]]. split; [eauto|]. now left.
Qed.

(** X15: on a reference with a digest, endpoints that are all of version 1
    are not contacted: the loop of [fetchManifest] logs each attempt and
    ends with the error "Cannot pull by digest with v1 registry", an
    [ErrNoSupport], in [lastErr], so that [fetchManifest] returns this error
    when the repository has such endpoints only, one at least. *)
Theorem digest_on_v1_endpoints_only ref (config : @Config X) repoInfo endpoints w1 w
    (s : State X) dgst :
  reference.Digest ref = Some dgst ->
  Forall (fun e => registry.Version e = registry.APIVersion1) endpoints ->
  let logs := map (fun e => Logged (TryingManifest (registry.CanonicalName repoInfo) e))
                endpoints in
  (forall acc st, discardNoSupportErrors acc = false -> endpoints <> [] ->
     forRange endpoints (fetchManifest_body ref config repoInfo) acc st
     = (Done (Continue {| lastErr := Some noSupport; discardNoSupportErrors := false |}),
        after st logs (world st))) /\
  (ResolveRepository X ref (world s) = (inr repoInfo, w1) ->
   validateRepoName X (registry.LocalName repoInfo) = None ->
   LookupPullEndpoints X (registry.CanonicalName repoInfo) w1 = (inr endpoints, w) ->
   endpoints <> [] ->
   fetchManifest ref config s
   = (Done (None, Some noSupport), after (atEndpoints ref repoInfo endpoints w s) logs w)).
Proof.
  intros Hd Hv logs.
  assert (L : forall acc st, discardNoSupportErrors acc = false -> endpoints <> [] ->
            forRange endpoints (fetchManifest_body ref config repoInfo) acc st
            = (Done (Continue {| lastErr := Some noSupport; discardNoSupportErrors := false |}),
               after st logs (world st))).
  { subst logs. induction Hv as [|e xs He _ IH]; intros acc st Ha Hne; [easy|].
    rewrite forRange_cons.
    assert (Eb : fetchManifest_body ref config repoInfo e acc st
                 = (Done (Continue {| lastErr := Some noSupport;
                                      discardNoSupportErrors := false |}),
                    logged st (TryingManifest (registry.CanonicalName repoInfo) e))).
    { unfold fetchManifest_body, newManifestFetcher. rewrite He. cbn [Z.eqb Pos.eqb].
      change (registry.APIVersion1 =? registry.APIVersion2)%Z with false.
      change (registry.APIVersion1 =? registry.APIVersion1)%Z with true.
      cbn [Fetch]. unfold v1ManifestFetcher_Fetch. rewrite Hd.
      unfold bind, emit, ret, logged. cbn [world trace].
      rewrite saveError_first by easy. reflexivity. }
    rewrite Eb. destruct xs as [|e' xs'].
    - cbn. unfold ret, logged, after. reflexivity.
    - rewrite IH by easy. unfold after, logged. cbn [world trace map].
      now rewrite <- app_assoc. }
  split; [exact L|].
  intros H1 H2 H3 Hne.
  rewrite (fetchManifest_at_endpoints _ _ _ _ _ _ _ H1 H2 H3), (L initialAcc _ eq_refl Hne).
  reflexivity.
Qed.

End FirstSuccess.

(** ** The orders, the registries, the resolution *)

Section Edges.

Context {X : Externals}.

(** X16: [byTagName.Less] and [byAPIVersion.Less] are orderings as
    [sort.Sort] wants them: irreflexive, transitive, and such that being
    neither less nor greater is transitive.  Two tags are neither less nor
    greater exactly when their names are equal; two endpoints, exactly when
    they have the same version and both, or none, a URL that starts with
    "https://". *)
Theorem less_methods_are_strict_weak_orders :
  LessOrder byTagName_Less /\
  LessOrder byAPIVersion_Less /\
  (forall a b, byTagName_Less a b = false /\ byTagName_Less b a = false
               <-> types.Tag a = types.Tag b) /\
  (forall a b, byAPIVersion_Less a b = false /\ byAPIVersion_Less b a = false
               <-> rank a = rank b).
Proof.
  split; [exact byTagName_LessOrder|]. split; [exact byAPIVersion_LessOrder|]. split.
  - intros a b. unfold byTagName_Less. split.
    + intros [H1 H2]. apply string_ltb_false in H1 as [E|L]; [exact E|congruence].
    + intros ->. split; apply string_ltb_irrefl.
  - intros a b. rewrite !byAPIVersion_Less_rank_false.
    destruct (rank a) as [va sa], (rank b) as [vb sb]. cbn [fst snd]. split.
    + intros [H1 H2]. f_equal; lia.
    + intros [= -> ->]. lia.
Qed.

(** X17: on a reference that is not fully qualified, [Inspect] and
    [ListRemoteTags] fail with "No configured registry to pull from." when
    the list of registries is empty, and [ListRemoteTags] fails with the
    error of [registry.ValidateRepositoryName] when the list is not empty and
    the name is not valid; in both cases nothing is asked of a registry and
    nothing is logged. *)
Theorem nothing_asked_without_registry ref (config : @Config X) (s : State X) :
  IsReferenceFullyQualified X ref = false ->
  (RegistryList X = [] ->
   Inspect ref config s = (Done (None, Some noRegistry), s) /\
   ListRemoteTags ref config s = (Done (None, Some noRegistry), s)) /\
  (forall err, RegistryList X <> [] -> ValidateRepositoryName X ref = Some err ->
     ListRemoteTags ref config s = (Done (None, Some err), s)).
Proof.
  intros Hq. unfold Inspect, ListRemoteTags. rewrite Hq. split.
  - intros ->. split; reflexivity.
  - intros err Hne Hv. destruct (decide _) as [E|_].
    + apply length_zero_iff_nil in E. contradiction.
    + now rewrite Hv.
Qed.

(** X18: [fetchManifest] and [getRemoteTagList] return the error of the
    resolution of the repository, of the validation of its name or of the
    lookup of its endpoints, whichever comes first, and then try no endpoint:
    the validation is not followed by the lookup, nor the resolution by
    anything. *)
Theorem resolution_errors_try_no_endpoint ref (config : @Config X) (s : State X) :
  let rr := ResolveRepository X ref (world s) in
  (forall err, fst rr = inl err ->
     let s1 := after s [Call_ResolveRepository ref (inl err)] (snd rr) in
     fetchManifest ref config s = (Done (None, Some err), s1) /\
     getRemoteTagList ref config s = (Done (None, Some err), s1)) /\
  (forall repoInfo err, fst rr = inr repoInfo ->
     validateRepoName X (registry.LocalName repoInfo) = Some err ->
     let s1 := after s [Call_ResolveRepository ref (inr repoInfo)] (snd rr) in
     fetchManifest ref config s = (Done (None, Some err), s1) /\
     getRemoteTagList ref config s = (Done (None, Some err), s1)) /\
  (forall repoInfo err w, fst rr = inr repoInfo ->
     validateRepoName X (registry.LocalName repoInfo) = None ->
     LookupPullEndpoints X (registry.CanonicalName repoInfo) (snd rr) = (inl err, w) ->
     let s1 := after s [Call_ResolveRepository ref (inr repoInfo);
                        Call_LookupPullEndpoints (registry.CanonicalName repoInfo) (inl err)]
                 w in
     fetchManifest ref config s = (Done (None, Some err), s1) /\
     getRemoteTagList ref config s = (Done (None, Some err), s1)).
Proof.
  intros rr. unfold fetchManifest, getRemoteTagList.
  rewrite !(bind_Done _ _ _ _ _ (call_run _ _ _)). fold rr. split; [|split].
  - intros err E. rewrite E. split; reflexivity.
  - intros repoInfo err E Hv. rewrite E, Hv. split; reflexivity.
  - intros repoInfo err w E Hv Hl. rewrite E, Hv.
    rewrite !(bind_Done _ _ _ _ _ (call_run _ _ _)). cbn [world trace]. rewrite Hl.
    cbn [fst snd]. unfold ret, after. rewrite <- !app_assoc. split; reflexivity.
Qed.

End Edges.

(** ** Package [machine] *)

Section Machine.

Variable sd : machine.Systemd.

(** X19: [Register] leaves the host as [systemd.RegisterMachine] left it.
    It returns no error and logs nothing when the registration succeeds and
    when the message of its error holds "Failed to determine unit of
    process"; it returns every other error as it is, and logs one line with
    the name, the id and the message of the error. *)
Theorem register_passes_the_race name id pid root_directory (h : machine.Host sd) :
  let r := machine.RegisterMachine sd name id pid root_directory h in
  let lost err :=
    exists pre post,
      machine.Error sd err = pre +:+ "Failed to determine unit of process" +:+ post in
  snd (machine.Register sd name id pid root_directory h) = snd r /\
  (fst r = None -> fst (machine.Register sd name id pid root_directory h) = (None, [])) /\
  (forall err, fst r = Some err -> lost err ->
     fst (machine.Register sd name id pid root_directory h) = (None, [])) /\
  (forall err, fst r = Some err -> ~ lost err ->
     fst (machine.Register sd name id pid root_directory h)
     = (Some err, ["Unable to RegisterMachine " +:+ name +:+ " for " +:+ id +:+ ": "
                   +:+ machine.Error sd err])).
Proof.
  cbv zeta. unfold machine.Register.
  destruct (machine.RegisterMachine sd name id pid root_directory h) as [[err|] h'];
    cbn [fst snd].
  - destruct (strings_Contains _ _) eqn:E.
    + split; [reflexivity|]. split; [discriminate|]. split; [reflexivity|].
      intros e [= <-] N. apply strings_Contains_spec in E. contradiction.
    + split; [reflexivity|]. split; [discriminate|]. split.
      * intros e [= <-] L. apply strings_Contains_spec in L. congruence.
      * intros e [= <-] _. reflexivity.
  - split; [reflexivity|]. split; [reflexivity|]. split; intros e; discriminate.
Qed.

End Machine.

(** ** The properties on the examples *)

Lemma inspected_record_built_for_repository_witness :
  exists r,
    fst (inspection healthy (tagged x "1.0")) = Done (Some r, None) /\
    types.Registry r = "docker.io"%string /\
    builtFor (X:=demo healthy) (repoOf healthy x) (tagged x "1.0") r.
Proof.
  unfold inspection.
  destruct (fetchManifest (tagged x "1.0") (noConfig healthy) (start healthy))
    as [res s'] eqn:E.
  assert (Er : res = Done (Some (makeRemoteImageInspect (X:=demo healthy) (repoOf healthy x)
                                   anImage "1.0" "sha256:77af"), None)).
  { change res with (fst (res, s')). rewrite <- E. vm_compute. reflexivity. }
  subst res. eexists. split; [reflexivity|].
  destruct (inspected_record_built_for_repository (X:=demo healthy) (tagged x "1.0")
              (noConfig healthy) (start healthy) _ None s' (repoOf healthy x) tt eq_refl E)
    as (_ & B & R & _).
  split; [exact R | exact B].
Defined.

Lemma results_are_a_value_or_an_error_witness :
  exists res, fst (tagListing healthy) = Done res /\ valueOrError res.
Proof.
  unfold tagListing.
  destruct (getRemoteTagList (unqualified x) (noConfig healthy) (start healthy))
    as [[res|] s'] eqn:E.
  - exists res. split; [reflexivity|].
    exact (proj1 (proj2 (results_are_a_value_or_an_error (X:=demo healthy) (unqualified x)
                           (noConfig healthy))) _ _ _ E).
  - exfalso.
    assert (H : fst (getRemoteTagList (unqualified x) (noConfig healthy) (start healthy))
                = Panic) by now rewrite E.
    vm_compute in H. discriminate.
Defined.

Lemma inspection_never_panics_witness :
  exists res s',
    Inspect (unqualified "library/x") (noConfig twoRegistries) (start twoRegistries)
    = (Done res, s').
Proof.
  exact (proj1 (proj2 (inspection_never_panics (demo_OK twoRegistries)
                         (unqualified "library/x") (noConfig twoRegistries)
                         (start twoRegistries)))).
Defined.

Lemma real_error_wins_witness :
  exists os,
    observes (tryManifest (digested x "sha256:1f") (noConfig twoDown) (repoOf twoDown x))
      (sc_endpoints twoDown) (start twoDown) os (snd twoDownManifests) /\
    lastErr refused
    = if existsb (fun eo => realError (snd eo)) os
      then last (filter (fun e => isNoSupport e = false) (errorsObserved os))
      else last (errorsObserved os).
Proof.
  apply (proj1 (real_error_wins (digested x "sha256:1f") (noConfig twoDown)
                  (repoOf twoDown x) (sc_endpoints twoDown) refused (start twoDown)
                  (snd twoDownManifests))).
  vm_compute. reflexivity.
Defined.

Lemma unknown_versions_are_skipped_witness :
  forRange [unknownAt "https://r.example"]
    (fetchManifest_body (unqualified x) (noConfig healthy) (repoOf healthy x))
    initialAcc (start healthy)
  = (Done (Continue {| lastErr := Some (unknownVersion (unknownAt "https://r.example"));
                       discardNoSupportErrors := false |}),
     after (start healthy) [Logged (TryingManifest x (unknownAt "https://r.example"))] tt).
Proof.
  refine (proj1 (unknown_versions_are_skipped (X:=demo healthy) (unqualified x)
                   (noConfig healthy) (repoOf healthy x) [unknownAt "https://r.example"]
                   initialAcc (start healthy) _)).
  apply Forall_cons. split; [|constructor].
  split; intros H; vm_compute in H; discriminate.
Defined.

Lemma v1_failures_in_inspection_witness :
  forRange [v1At "https://index.docker.io"; v2At "https://registry-1.docker.io"]
    (fetchManifest_body (unqualified x) (noConfig twoDown) (repoOf twoDown x))
    initialAcc (start twoDown)
  = (Done (Break (None, Some tlsError)),
     after (logged (start twoDown) (TryingManifest x (v1At "https://index.docker.io")))
       [Call_TLSConfig "docker.io" (Some tlsError); Logged (NotContinuing tlsError)] tt).
Proof.
  destruct (v1_failures_in_inspection (X:=demo twoDown) (unqualified x) (noConfig twoDown)
              (repoOf twoDown x) (v1At "https://index.docker.io")
              [v2At "https://registry-1.docker.io"] initialAcc (start twoDown)
              eq_refl eq_refl) as [H _].
  exact (H tlsError tt eq_refl).
Defined.

Lemma repository_not_found_witness :
  fst (fetchWithSession (X:=gone) tt (repoOf healthy x) "1.0"
         (@Build_State gone tt []))
  = Done (None, Some (errorString "Error: image docker.io/library/x not found")).
Proof.
  destruct (repository_not_found (X:=gone) tt (repoOf healthy x) "1.0"
              (@Build_State gone tt [])
              (errorString "Unexpected status (HTTP code: 404)") tt eq_refl)
    as (E & _ & N & _).
  rewrite E. cbn [fst]. rewrite N; [reflexivity|].
  exists "Unexpected status ("%string, ")"%string. reflexivity.
Defined.

Lemma v1_listing_is_the_map_of_tags_witness :
  exists tags s3,
    listTagsWithSession (X:=demo healthy) tt (repoOf healthy x) (start healthy)
    = (Done (tags, None), s3) /\
    length tags = 2%nat.
Proof.
  destruct (v1_listing_is_the_map_of_tags (X:=demo healthy) (demo_OK healthy) tt
              (repoOf healthy x) (start healthy)
              {| registry.ImgList := ∅;
                 registry.Endpoints := sc_repoEndpoints healthy;
                 registry.Tokens := [] |}
              tt
              (<["1.0"%string := "id10"%string]> (<["latest"%string := "id77"%string]> ∅))
              tt eq_refl eq_refl) as [_ H].
  destruct H as (tags & s3 & E & _ & _ & L & _); [vm_compute; discriminate|].
  exists tags, s3. split; [exact E|]. rewrite L. vm_compute. reflexivity.
Defined.

Lemma v2_fetch_by_digest_witness :
  fst (fetchWithRepository (X:=demo healthy) tt (repoOf healthy x)
         (digested x "sha256:1f") (start healthy))
  = Done (Some (makeRemoteImageInspect (X:=demo healthy) (repoOf healthy x) anImage
                  "" "sha256:77af"), None).
Proof.
  destruct (v2_fetch_by_digest (X:=demo healthy) tt (repoOf healthy x)
              (digested x "sha256:1f") (start healthy) "sha256:1f"%string tt tt
              eq_refl eq_refl) as [_ H].
  pose proof (H eq_refl) as E. cbv zeta in E. rewrite E. reflexivity.
Defined.

Lemma v2_fetch_by_tag_witness :
  fst (fetchWithRepository (X:=demo healthy) tt (repoOf healthy x)
         (tagged x "1.0") (start healthy))
  = Done (Some (makeRemoteImageInspect (X:=demo healthy) (repoOf healthy x) anImage
                  "1.0" "sha256:77af"), None).
Proof.
  destruct (v2_fetch_by_tag (X:=demo healthy) tt (repoOf healthy x)
              (tagged x "1.0") (start healthy) "1.0"%string tt tt
              eq_refl eq_refl eq_refl) as (_ & _ & H & _).
  pose proof (H eq_refl) as E. cbv zeta in E. rewrite E. reflexivity.
Defined.

Lemma v2_listing_witness :
  fst (v2TagLister_ListTags (v2At "https://registry-1.docker.io") (noConfig healthy)
         (repoOf healthy x) (start healthy))
  = Done ([{| types.Tag := "1.0"; types.ImageID := "" |};
           {| types.Tag := "latest"; types.ImageID := "" |};
           {| types.Tag := "2.0"; types.ImageID := "" |}], false, None).
Proof.
  destruct (v2_listing (X:=demo healthy) (v2At "https://registry-1.docker.io")
              (noConfig healthy) (repoOf healthy x) (start healthy)) as [_ H].
  destruct (H tt tt tt tt eq_refl eq_refl) as [Ht _].
  rewrite (Ht ["1.0"%string; "latest"%string; "2.0"%string] eq_refl). reflexivity.
Defined.

Lemma v2_fetch_fallback_witness :
  fst (v2ManifestFetcher_Fetch (v2At "https://registry-1.docker.io") (noConfig twoDown)
         (repoOf twoDown x) (unqualified x) (start twoDown))
  = Done (None, true, Some (errorString "connection refused")).
Proof.
  destruct (v2_fetch_fallback (X:=demo twoDown) (v2At "https://registry-1.docker.io")
              (noConfig twoDown) (repoOf twoDown x) (unqualified x) (start twoDown))
    as [H _].
  rewrite (H (errorString "connection refused") eq_refl). reflexivity.
Defined.

Lemma tag_list_of_first_successful_endpoint_witness :
  exists tl tags,
    fst (tagListing healthy) = Done (Some tl, None) /\
    types.Name tl = x /\
    types.TagList tl ≡ₚ tags.
Proof.
  unfold tagListing.
  destruct (getRemoteTagList (unqualified x) (noConfig healthy) (start healthy))
    as [r s'] eqn:E.
  assert (Er : r = Done (Some {| types.Name := x;
                                 types.TagList :=
                                   [{| types.Tag := "1.0"; types.ImageID := "" |};
                                    {| types.Tag := "2.0"; types.ImageID := "" |};
                                    {| types.Tag := "latest"; types.ImageID := "" |}] |},
                         None)).
  { change r with (fst (r, s')). rewrite <- E. vm_compute. reflexivity. }
  subst r.
  destruct (tag_list_of_first_successful_endpoint (X:=demo healthy) (demo_OK healthy)
              (unqualified x) (noConfig healthy) (repoOf healthy x) (sc_endpoints healthy)
              tt tt (start healthy) _ None s' eq_refl eq_refl eq_refl E)
    as (tried & e & rest & os & s1 & tags & fb & _ & _ & _ & _ & Hn & Hp).
  eexists _, tags. split; [reflexivity|]. split; [exact Hn | exact Hp].
Defined.

Lemma record_of_first_successful_endpoint_witness :
  exists r tried e rest,
    fst (inspection healthy (tagged x "1.0")) = Done (Some r, None) /\
    sc_endpoints healthy = tried ++ e :: rest.
Proof.
  unfold inspection.
  destruct (fetchManifest (tagged x "1.0") (noConfig healthy) (start healthy))
    as [res s'] eqn:E.
  assert (Er : res = Done (Some (makeRemoteImageInspect (X:=demo healthy) (repoOf healthy x)
                                   anImage "1.0" "sha256:77af"), None)).
  { change res with (fst (res, s')). rewrite <- E. vm_compute. reflexivity. }
  subst res.
  destruct (record_of_first_successful_endpoint (X:=demo healthy) (tagged x "1.0")
              (noConfig healthy) (repoOf healthy x) (sc_endpoints healthy) tt tt
              (start healthy) _ None s' eq_refl eq_refl eq_refl E)
    as (tried & e & rest & os & s1 & fb & Hxs & _).
  eexists _, tried, e, rest. split; [reflexivity | exact Hxs].
Defined.

Lemma digest_on_v1_endpoints_only_witness :
  fst (inspection emptyRepo (digested x "sha256:1f")) = Done (None, Some noSupport).
Proof.
  destruct (digest_on_v1_endpoints_only (X:=demo emptyRepo) (digested x "sha256:1f")
              (noConfig emptyRepo) (repoOf emptyRepo x) (sc_endpoints emptyRepo) tt tt
              (start emptyRepo) "sha256:1f"%string eq_refl) as [_ H].
  - repeat constructor.
  - unfold inspection. rewrite (H eq_refl eq_refl eq_refl); [reflexivity|discriminate].
Defined.

Lemma nothing_asked_without_registry_witness :
  Inspect (unqualified "library/x") (noConfig noRegistries) (start noRegistries)
  = (Done (None, Some noRegistry), start noRegistries).
Proof.
  exact (proj1 (proj1 (nothing_asked_without_registry (X:=demo noRegistries)
                         (unqualified "library/x") (noConfig noRegistries)
                         (start noRegistries) eq_refl) eq_refl)).
Defined.

Lemma resolution_errors_try_no_endpoint_witness :
  fetchManifest (unqualified "down.io/x") (noConfig healthy) (start healthy)
  = (Done (None, Some (errorString "registry is down")),
     after (start healthy)
       [Call_ResolveRepository (unqualified "down.io/x")
          (inl (errorString "registry is down"))] tt).
Proof.
  exact (proj1 (proj1 (resolution_errors_try_no_endpoint (X:=demo healthy)
                         (unqualified "down.io/x") (noConfig healthy) (start healthy))
                  (errorString "registry is down") eq_refl)).
Defined.

Lemma register_passes_the_race_witness :
  fst (machine.Register racyHost "web" "0f3a" 42 "/var/lib/docker/containers/0f3a" tt)
  = (None, []).
Proof.
  destruct (register_passes_the_race racyHost "web" "0f3a" 42
              "/var/lib/docker/containers/0f3a" tt) as (_ & _ & H & _).
  apply (H (errorString "Failed to determine unit of process 42 (No such process)") eq_refl).
  exists ""%string, " 42 (No such process)"%string. reflexivity.
Defined.

(** ** What the tag listing never asks *)

Section Listing.

Context {X : Externals}.

Ltac quiet_step :=
  first
    [ apply emits_ret
    | apply emits_panic
    | apply emits_runtime
    | apply emits_emit; exact I
    | apply emits_call; intros; exact I
    | apply emits_bind; [|intros]
    | apply emits_forRange; intros
    | match goal with
      | |- emits _ (match ?x with _ => _ end) => destruct x
      | |- emits _ (if ?x then _ else _) => destruct x
      | |- emits _ (let (_, _) := ?x in _) => destruct x
      end
    | progress cbv zeta ].

Lemma ListTags_noDownload lister : emits noDownload (ListTags (X:=X) lister).
Proof.
  destruct lister as [endpoint config repoInfo|endpoint config repoInfo]; cbn [ListTags].
  - unfold v2TagLister_ListTags, listTagsWithRepository. repeat quiet_step.
  - unfold v1TagLister_ListTags, listTagsWithSession. repeat quiet_step.
Qed.

Lemma getRemoteTagList_noDownload ref (config : @Config X) :
  emits noDownload (getRemoteTagList ref config).
Proof.
  unfold getRemoteTagList.
  apply emits_bind; [apply emits_call; intros; exact I|]. intros [err|repoInfo]; [apply emits_ret|].
  destruct (validateRepoName X _); [apply emits_ret|].
  apply emits_bind; [apply emits_call; intros; exact I|]. intros [err|endpoints];
    [apply emits_ret|].
  cbv zeta. apply emits_bind.
  - apply emits_forRange. intros e acc. unfold getRemoteTagList_body.
    apply emits_bind; [apply emits_emit; exact I|]. intros _.
    destruct (newTagLister e repoInfo config) as [err|lister]; [apply emits_ret|].
    apply emits_bind; [apply ListTags_noDownload|]. intros [[tags fb] [err|]].
    + destruct (fb || _); [apply emits_ret|].
      apply emits_bind; [apply emits_emit; exact I|]. intros _. apply emits_ret.
    + apply emits_ret.
  - intros [acc|res]; apply emits_ret.
Qed.

(** X20: listing the tags of a repository asks for no manifest and for no
    image: whatever [ListRemoteTags] returns, it has not called
    [GetRemoteImageJSON], [Exists], [Get], [ExistsByTag] nor [GetByTag]. *)
Theorem tag_listing_downloads_nothing ref (config : @Config X) (s : State X) r s' :
  ListRemoteTags ref config s = (r, s') ->
  exists evs, trace s' = trace s ++ evs /\ Forall noDownload evs.
Proof.
  revert s r s'. change (emits noDownload (ListRemoteTags ref config)).
  unfold ListRemoteTags.
  destruct (IsReferenceFullyQualified X ref); [apply getRemoteTagList_noDownload|].
  destruct (decide _); [apply emits_ret|].
  destruct (ValidateRepositoryName X ref); [apply emits_ret|].
  apply emits_bind; [|intros; apply emits_ret].
  apply emits_forRange. intros reg st. unfold ListRemoteTags_body.
  destruct (FullyQualifyReferenceWith X reg ref) as [err|fqr].
  - apply emits_bind; [apply emits_emit; exact I|]. intros _. apply emits_ret.
  - apply emits_bind; [apply getRemoteTagList_noDownload|]. intros res.
    destruct (snd res); apply emits_ret.
Qed.

End Listing.

Lemma tag_listing_downloads_nothing_witness :
  exists evs,
    trace (snd (ListRemoteTags (unqualified "library/x") (noConfig twoRegistries)
                  (start twoRegistries)))
    = trace (start twoRegistries) ++ evs /\
    Forall noDownload evs.
Proof.
  apply (tag_listing_downloads_nothing (X:=demo twoRegistries) (unqualified "library/x")
           (noConfig twoRegistries) (start twoRegistries)
           (fst (ListRemoteTags (unqualified "library/x") (noConfig twoRegistries)
                   (start twoRegistries)))).
  apply surjective_pairing.
Defined.
